(** * Tailscale log collector for Wazuh: a shallow embedding

    The development follows [scripts/collect_tailscale_logs.py].

    - Python [str] values are sequences of Unicode code points ([list N]).
    - Python objects that can reach the collector (the results of
      [json.loads] and the dictionaries the collector builds) are the
      inductive type [pyval]; a [dict] is an insertion-ordered association
      list with distinct keys.
    - [float] is kept abstract behind the interface [PyFloat]: the collector
      never computes with floats, it only parses, tests and prints them.
    - The library functions the script calls ([json.loads], [json.dump],
      [str.strip], [str.split], [str.replace], [Path.mkdir], [open],
      [subprocess.run]) are modelled after CPython 3 on Linux.
    - Effects (sub-processes, the file system, the clock, [print]) are
      threaded through a state-and-exception monad over [world], which
      also keeps the trace of the steps taken, in order.

    Outside the model: resource limits of the interpreter (recursion
    depth, the digit limit of [int], memory), the decoding of the
    sub-process output to text, signals, and a file system that changes
    under the run. The decoder follows the C scanner of [json], which
    CPython uses by default. *)

From Stdlib Require Import NArith ZArith List String Ascii Lia Bool.
From Stdlib Require Import DecimalFacts DecimalPos DecimalN.
From stdpp Require Import base option list gmap.

Local Open Scope N_scope.

(* ===================================================================== *)
(** ** Python strings *)
(* ===================================================================== *)

Module PyStr.

(** A [str]: its code points, in order. *)
Abbreviation pystr := (list N).

(** String literals of the source, written as Rocq strings (ASCII only). *)
Definition lit (s : string) : pystr :=
  map N_of_ascii (list_ascii_of_string s).
#[global] Arguments lit : simpl never.

(** [str.isspace] on one code point (the Unicode white-space set used by
    [str.strip] without argument). *)
Definition isspace (c : N) : bool :=
  ((9 <=? c) && (c <=? 13)) || ((28 <=? c) && (c <=? 32))
  || (c =? 133) || (c =? 160) || (c =? 5760)
  || ((8192 <=? c) && (c <=? 8202))
  || (c =? 8232) || (c =? 8233) || (c =? 8239) || (c =? 8287)
  || (c =? 12288).

Fixpoint lstrip (s : pystr) : pystr :=
  match s with
  | c :: s' => if isspace c then lstrip s' else s
  | [] => []
  end.

Definition rstrip (s : pystr) : pystr := rev (lstrip (rev s)).

(** [s.strip()] *)
Definition strip (s : pystr) : pystr := rstrip (lstrip s).

(** [s.split(sep)] for a one-character separator: never empty, and
    [''.split(sep) == ['']]. *)
Fixpoint split (sep : N) (s : pystr) : list pystr :=
  match s with
  | [] => [[]]
  | c :: s' =>
      if c =? sep then [] :: split sep s'
      else match split sep s' with
           | l :: ls => (c :: l) :: ls
           | [] => [[c]]
           end
  end.

(** [s.startswith(p)] *)
Fixpoint startswith (p s : pystr) : bool :=
  match p, s with
  | [], _ => true
  | a :: p', b :: s' => (a =? b) && startswith p' s'
  | _ :: _, [] => false
  end.

(** [s.replace(old, new)] for a non-empty [old]: occurrences are replaced
    left to right without overlap; [skip] counts the characters of a
    matched occurrence still to be dropped. *)
Fixpoint replace_from (old new s : pystr) (skip : nat) : pystr :=
  match s with
  | [] => []
  | c :: s' =>
      match skip with
      | S k => replace_from old new s' k
      | O =>
          if startswith old s
          then new ++ replace_from old new s' (Nat.pred (length old))
          else c :: replace_from old new s' O
      end
  end.

Definition replace (old new s : pystr) : pystr := replace_from old new s O.

(** [sep.join(parts)] *)
Fixpoint join (sep : pystr) (parts : list pystr) : pystr :=
  match parts with
  | [] => []
  | [p] => p
  | p :: ps => p ++ sep ++ join sep ps
  end.

(** The decimal digits of a number, as characters. *)
Fixpoint uint_chars (d : Decimal.uint) : pystr :=
  match d with
  | Decimal.Nil => []
  | Decimal.D0 d => 48 :: uint_chars d
  | Decimal.D1 d => 49 :: uint_chars d
  | Decimal.D2 d => 50 :: uint_chars d
  | Decimal.D3 d => 51 :: uint_chars d
  | Decimal.D4 d => 52 :: uint_chars d
  | Decimal.D5 d => 53 :: uint_chars d
  | Decimal.D6 d => 54 :: uint_chars d
  | Decimal.D7 d => 55 :: uint_chars d
  | Decimal.D8 d => 56 :: uint_chars d
  | Decimal.D9 d => 57 :: uint_chars d
  end.

(** [str(n)] / [int.__repr__] for an arbitrary-precision [int]. *)
Definition int_repr (z : Z) : pystr :=
  match z with
  | Z0 => [48]
  | Zpos p => uint_chars (Pos.to_uint p)
  | Zneg p => 45 :: uint_chars (Pos.to_uint p)
  end.

Definition isdigit (c : N) : bool := (48 <=? c) && (c <=? 57).

(** The value of a run of ASCII digits, most significant first. *)
Definition digits_value (ds : pystr) : Z :=
  fold_left (fun acc c => (acc * 10 + Z.of_N (c - 48))%Z) ds 0%Z.

(** [a == b] on strings *)
Fixpoint str_eqb (a b : pystr) : bool :=
  match a, b with
  | [], [] => true
  | x :: a', y :: b' => (x =? y) && str_eqb a' b'
  | _, _ => false
  end.

End PyStr.
Import PyStr.

(* ===================================================================== *)
(** ** Python floats, abstractly *)
(* ===================================================================== *)

Inductive float_class := FNan | FPosInf | FNegInf | FFinite.

(** The operations of [float] that the script reaches through [json] and
    through [if status:]. *)
Class PyFloat := {
  pyfloat : Type;
  (** [float(s)] on the text of a JSON number with a fraction or exponent *)
  float_of_literal : pystr -> pyfloat;
  (** [float.__repr__] *)
  float_repr : pyfloat -> pystr;
  (** [o != o], [o == inf], [o == -inf] as tested by the JSON encoder *)
  float_classify : pyfloat -> float_class;
  (** [bool(o)]: false exactly for [0.0] and [-0.0] *)
  float_bool : pyfloat -> bool;
  float_nan : pyfloat;
  float_inf : pyfloat;
  float_neginf : pyfloat;
}.

(* ===================================================================== *)
(** ** Python values *)
(* ===================================================================== *)

Section Values.
Context {F : PyFloat}.

#[local] Set Warnings "-register-all".
Inductive pyval : Type :=
| PNone
| PBool (b : bool)
| PInt (z : Z)
| PFloat (f : pyfloat)
| PStr (s : pystr)
| PList (l : list pyval)
| PDict (d : list (pystr * pyval)).

(** [bool(v)], the test of [if v:]. *)
Definition truthy (v : pyval) : bool :=
  match v with
  | PNone => false
  | PBool b => b
  | PInt z => negb (z =? 0)%Z
  | PFloat f => float_bool f
  | PStr s => negb (Nat.eqb (length s) 0)
  | PList l => negb (Nat.eqb (length l) 0)
  | PDict d => negb (Nat.eqb (length d) 0)
  end.

(** [d[k]] lookup in a dictionary's association list. *)
Fixpoint dict_lookup (k : pystr) (d : list (pystr * pyval)) : option pyval :=
  match d with
  | [] => None
  | (k', v) :: d' => if str_eqb k k' then Some v else dict_lookup k d'
  end.

(** [d[k] = v]: an existing key keeps its position, a new key goes last. *)
Fixpoint dict_set (k : pystr) (v : pyval) (d : list (pystr * pyval))
  : list (pystr * pyval) :=
  match d with
  | [] => [(k, v)]
  | (k', v') :: d' =>
      if str_eqb k k' then (k', v) :: d' else (k', v') :: dict_set k v d'
  end.

(** [dict(pairs)] *)
Definition dict_of_pairs (pairs : list (pystr * pyval)) : list (pystr * pyval) :=
  fold_left (fun d kv => dict_set (fst kv) (snd kv) d) pairs [].

End Values.

(* ===================================================================== *)
(** ** [json]: the encoder behind [json.dump] *)
(* ===================================================================== *)

Section JsonEncoder.
Context {F : PyFloat}.

Definition hexdigit (d : N) : N := if d <? 10 then 48 + d else 87 + d.

(** ['{0:04x}'.format(n)] for [n < 0x10000] *)
Definition hex4 (n : N) : pystr :=
  [ hexdigit (N.land (N.shiftr n 12) 15); hexdigit (N.land (N.shiftr n 8) 15);
    hexdigit (N.land (N.shiftr n 4) 15); hexdigit (N.land n 15) ].

(** The replacement of one character by [py_encode_basestring_ascii]:
    the short escapes of [ESCAPE_DCT], printable ASCII unchanged, and
    [\uXXXX] (a surrogate pair above the BMP) for everything else. *)
Definition escape_char (c : N) : pystr :=
  if c =? 34 then [92; 34]
  else if c =? 92 then [92; 92]
  else if c =? 10 then [92; 110]
  else if c =? 13 then [92; 114]
  else if c =? 9 then [92; 116]
  else if c =? 8 then [92; 98]
  else if c =? 12 then [92; 102]
  else if (32 <=? c) && (c <=? 126) then [c]
  else if c <? 65536 then 92 :: 117 :: hex4 c
  else
    let n := c - 65536 in
    let s1 := N.lor 55296 (N.land (N.shiftr n 10) 1023) in
    let s2 := N.lor 56320 (N.land n 1023) in
    (92 :: 117 :: hex4 s1) ++ (92 :: 117 :: hex4 s2).

Definition encode_basestring_ascii (s : pystr) : pystr :=
  34 :: flat_map escape_char s ++ [34].

(** [floatstr] of [json.encoder], with [allow_nan=True]. *)
Definition floatstr (f : pyfloat) : pystr :=
  match float_classify f with
  | FNan => lit "NaN"
  | FPosInf => lit "Infinity"
  | FNegInf => lit "-Infinity"
  | FFinite => float_repr f
  end.

(** [JSONEncoder(item_separator, key_separator).encode(v)] with
    [ensure_ascii=True], no indent, keys in insertion order. *)
Fixpoint json_encode (item_sep key_sep : pystr) (v : pyval) : pystr :=
  match v with
  | PNone => lit "null"
  | PBool true => lit "true"
  | PBool false => lit "false"
  | PInt z => int_repr z
  | PFloat f => floatstr f
  | PStr s => encode_basestring_ascii s
  | PList l =>
      91 :: join item_sep (map (json_encode item_sep key_sep) l) ++ [93]
  | PDict d =>
      123 :: join item_sep
               (map (fun kv => encode_basestring_ascii (fst kv) ++ key_sep
                               ++ json_encode item_sep key_sep (snd kv)) d)
          ++ [125]
  end.

(** The text [json.dump(v, f)] writes: the default separators are
    [(', ', ': ')] when [indent] is [None]. *)
Definition json_dumps (v : pyval) : pystr := json_encode [44; 32] [58; 32] v.

(** The most compact form, [separators=(',', ':')], which is what
    [jq -c] prints. *)
Definition json_dumps_compact (v : pyval) : pystr := json_encode [44] [58] v.

End JsonEncoder.

(* ===================================================================== *)
(** ** [json]: the decoder behind [json.loads] *)
(* ===================================================================== *)

(** What a scanner returns: the value and the unread rest, a
    [JSONDecodeError], or the exhaustion of the recursion budget of the
    model (which [json_loads] below never meets). *)
Inductive scan (A : Type) : Type :=
| Scanned (a : A) (rest : pystr)
| Malformed
| Exhausted.
Arguments Scanned {A} a rest.
Arguments Malformed {A}.
Arguments Exhausted {A}.

Section JsonDecoder.
Context {F : PyFloat}.

(** [WHITESPACE = re.compile(r'[ \t\n\r]*')] *)
Definition is_json_ws (c : N) : bool :=
  (c =? 32) || (c =? 9) || (c =? 10) || (c =? 13).

Fixpoint skip_ws (s : pystr) : pystr :=
  match s with
  | c :: s' => if is_json_ws c then skip_ws s' else s
  | [] => []
  end.

(** [s[0] == c], false at the end of the text. *)
Definition head_is (c : N) (s : pystr) : bool :=
  match s with
  | x :: _ => x =? c
  | [] => false
  end.

(** The longest prefix of ASCII digits, and what follows it. *)
Fixpoint span_digits (s : pystr) : pystr * pystr :=
  match s with
  | c :: s' =>
      if isdigit c then let '(ds, r) := span_digits s' in (c :: ds, r)
      else ([], s)
  | [] => ([], [])
  end.

(** The integer part of [NUMBER_RE]: a single zero, or a non-zero digit
    followed by any digits. *)
Definition scan_int_digits (s : pystr) : option (pystr * pystr) :=
  match s with
  | c :: s' =>
      if c =? 48 then Some ([48], s')
      else if isdigit c then let '(ds, r) := span_digits s' in Some (c :: ds, r)
      else None
  | [] => None
  end.

(** The optional fraction of [NUMBER_RE]: a dot and at least one digit. *)
Definition scan_frac (s : pystr) : pystr * pystr :=
  match s with
  | c :: s' =>
      if c =? 46 then
        match span_digits s' with
        | ([], _) => ([], s)
        | (ds, r) => (c :: ds, r)
        end
      else ([], s)
  | [] => ([], s)
  end.

(** The optional exponent of [NUMBER_RE]: e or E, an optional sign and at
    least one digit. *)
Definition scan_exp (s : pystr) : pystr * pystr :=
  match s with
  | e :: s' =>
      if (e =? 101) || (e =? 69) then
        let '(sign, s'') :=
          match s' with
          | g :: t => if (g =? 45) || (g =? 43) then ([g], t) else ([], s')
          | [] => ([], s')
          end in
        match span_digits s'' with
        | ([], _) => ([], s)
        | (ds, r) => (e :: sign ++ ds, r)
        end
      else ([], s)
  | [] => ([], s)
  end.

(** [NUMBER_RE.match]: the matched text, whether it has a fraction or an
    exponent, and the rest. *)
Definition scan_number (s : pystr) : option (pystr * bool * pystr) :=
  let '(sign, s0) := if head_is 45 s then ([45], tail s) else ([], s) in
  match scan_int_digits s0 with
  | None => None
  | Some (ip, s1) =>
      let '(fp, s2) := scan_frac s1 in
      let '(ep, s3) := scan_exp s2 in
      Some (sign ++ ip ++ fp ++ ep,
            negb (Nat.eqb (length fp) 0) || negb (Nat.eqb (length ep) 0), s3)
  end.

(** [int(text)] on the text of a JSON integer. *)
Definition int_of_literal (t : pystr) : Z :=
  if head_is 45 t then (- digits_value (tail t))%Z else digits_value t.

Definition hexval (c : N) : option N :=
  if isdigit c then Some (c - 48)
  else if (97 <=? c) && (c <=? 102) then Some (c - 87)
  else if (65 <=? c) && (c <=? 70) then Some (c - 55)
  else None.

(** The four hexadecimal digits of a [\uXXXX] escape. *)
Definition hex4_value (a b c d : N) : option N :=
  match hexval a, hexval b, hexval c, hexval d with
  | Some x, Some y, Some z, Some w => Some (((x * 16 + y) * 16 + z) * 16 + w)
  | _, _, _, _ => None
  end.

Definition is_high_surrogate (u : N) : bool := (55296 <=? u) && (u <=? 56319).
Definition is_low_surrogate (u : N) : bool := (56320 <=? u) && (u <=? 57343).

Definition join_surrogates (hi lo : N) : N :=
  65536 + N.lor (N.shiftl (hi - 55296) 10) (lo - 56320).

(** The one-letter escapes of [BACKSLASH]. *)
Definition unescape (e : N) : option N :=
  if e =? 34 then Some 34
  else if e =? 92 then Some 92
  else if e =? 47 then Some 47
  else if e =? 98 then Some 8
  else if e =? 102 then Some 12
  else if e =? 110 then Some 10
  else if e =? 114 then Some 13
  else if e =? 116 then Some 9
  else None.

Definition scan_cons (c : N) (r : option (pystr * pystr)) : option (pystr * pystr) :=
  match r with
  | Some (t, rest) => Some (c :: t, rest)
  | None => None
  end.

(** [scanstring] in strict mode, started after the opening quote: the
    decoded text and what follows the closing quote. *)
Fixpoint scanstring (s : pystr) : option (pystr * pystr) :=
  match s with
  | [] => None
  | c :: s1 =>
      if c =? 34 then Some ([], s1)
      else if c =? 92 then
        match s1 with
        | [] => None
        | e :: s2 =>
            if e =? 117 then
              match s2 with
              | h1 :: h2 :: h3 :: h4 :: s3 =>
                  match hex4_value h1 h2 h3 h4 with
                  | None => None
                  | Some u =>
                      if is_high_surrogate u then
                        match s3 with
                        | b :: v :: g1 :: g2 :: g3 :: g4 :: s4 =>
                            if (b =? 92) && (v =? 117) then
                              match hex4_value g1 g2 g3 g4 with
                              | None => None
                              | Some u2 =>
                                  if is_low_surrogate u2
                                  then scan_cons (join_surrogates u u2) (scanstring s4)
                                  else scan_cons u (scanstring s3)
                              end
                            else scan_cons u (scanstring s3)
                        | _ => scan_cons u (scanstring s3)
                        end
                      else scan_cons u (scanstring s3)
                  end
              | _ => None
              end
            else
              match unescape e with
              | Some c' => scan_cons c' (scanstring s2)
              | None => None
              end
        end
      else if c <=? 31 then None
      else scan_cons c (scanstring s1)
  end.

(** [scan_once]: one JSON value at the head of [s]. [scan_items] is the
    loop of [JSONArray] and [scan_members] the loop of [JSONObject], both
    entered where the first element is expected. *)
Fixpoint scan_once (fuel : nat) (s : pystr) : scan pyval :=
  match fuel with
  | O => Exhausted
  | S fuel' =>
      match s with
      | [] => Malformed
      | c :: s' =>
          if c =? 34 then
            match scanstring s' with
            | Some (t, rest) => Scanned (PStr t) rest
            | None => Malformed
            end
          else if c =? 123 then
            let s1 := skip_ws s' in
            if head_is 125 s1 then Scanned (PDict []) (tail s1)
            else
              match scan_members fuel' s1 with
              | Scanned pairs rest => Scanned (PDict (dict_of_pairs pairs)) rest
              | Malformed => Malformed
              | Exhausted => Exhausted
              end
          else if c =? 91 then
            let s1 := skip_ws s' in
            if head_is 93 s1 then Scanned (PList []) (tail s1)
            else
              match scan_items fuel' s1 with
              | Scanned items rest => Scanned (PList items) rest
              | Malformed => Malformed
              | Exhausted => Exhausted
              end
          else if startswith (lit "null") s then Scanned PNone (drop 4 s)
          else if startswith (lit "true") s then Scanned (PBool true) (drop 4 s)
          else if startswith (lit "false") s then Scanned (PBool false) (drop 5 s)
          else
            match scan_number s with
            | Some (t, is_float, rest) =>
                Scanned (if is_float then PFloat (float_of_literal t)
                         else PInt (int_of_literal t)) rest
            | None =>
                if startswith (lit "NaN") s then Scanned (PFloat float_nan) (drop 3 s)
                else if startswith (lit "Infinity") s
                then Scanned (PFloat float_inf) (drop 8 s)
                else if startswith (lit "-Infinity") s
                then Scanned (PFloat float_neginf) (drop 9 s)
                else Malformed
            end
      end
  end
with scan_items (fuel : nat) (s : pystr) : scan (list pyval) :=
  match fuel with
  | O => Exhausted
  | S fuel' =>
      match scan_once fuel' s with
      | Scanned v s1 =>
          match skip_ws s1 with
          | c :: s2 =>
              if c =? 93 then Scanned [v] s2
              else if c =? 44 then
                match scan_items fuel' (skip_ws s2) with
                | Scanned vs rest => Scanned (v :: vs) rest
                | Malformed => Malformed
                | Exhausted => Exhausted
                end
              else Malformed
          | [] => Malformed
          end
      | Malformed => Malformed
      | Exhausted => Exhausted
      end
  end
with scan_members (fuel : nat) (s : pystr) : scan (list (pystr * pyval)) :=
  match fuel with
  | O => Exhausted
  | S fuel' =>
      if head_is 34 s then
        match scanstring (tail s) with
        | None => Malformed
        | Some (k, s1) =>
            let s2 := skip_ws s1 in
            if head_is 58 s2 then
              match scan_once fuel' (skip_ws (tail s2)) with
              | Scanned v s3 =>
                  match skip_ws s3 with
                  | c :: s4 =>
                      if c =? 125 then Scanned [(k, v)] s4
                      else if c =? 44 then
                        match scan_members fuel' (skip_ws s4) with
                        | Scanned kvs rest => Scanned ((k, v) :: kvs) rest
                        | Malformed => Malformed
                        | Exhausted => Exhausted
                        end
                      else Malformed
                  | [] => Malformed
                  end
              | Malformed => Malformed
              | Exhausted => Exhausted
              end
            else Malformed
        end
      else Malformed
  end.

(** [JSONDecoder.decode]: leading white space, one value, trailing white
    space, and nothing else. *)
Definition decode (fuel : nat) (s : pystr) : scan pyval :=
  match scan_once fuel (skip_ws s) with
  | Scanned v rest =>
      match skip_ws rest with
      | [] => Scanned v []
      | _ :: _ => Malformed
      end
  | Malformed => Malformed
  | Exhausted => Exhausted
  end.

(** [json.loads(s)] for a [str]: [None] stands for [JSONDecodeError].
    Every scanner call consumes a character at least every second level
    of recursion, so the budget below is never exhausted
    (see [decode_never_exhausted]). *)
Definition json_loads (s : pystr) : option pyval :=
  if startswith [65279] s then None
  else match decode (2 * length s + 1) s with
       | Scanned v _ => Some v
       | _ => None
       end.

End JsonDecoder.

(* ===================================================================== *)
(** ** What the encoder needs of [float.__repr__] *)
(* ===================================================================== *)

(** A text that [NUMBER_RE] matches entirely, with a fraction or an
    exponent. *)
Definition is_float_literal (t : pystr) : bool :=
  match scan_number t with
  | Some (_, true, []) => true
  | _ => false
  end.

(** [repr] of a finite float is such a text ([1.5], [-0.0], [1e+16],
    [2.5e-07]): this is all the development assumes of floats. *)
Class PyFloatLaws (F : PyFloat) : Prop := {
  float_repr_literal :
    forall f : pyfloat,
      float_classify f = FFinite -> is_float_literal (float_repr f) = true
}.

(** An instance in which a float is the literal that denotes it: it makes
    the examples and concrete runs below computable. *)
Definition literal_classify (t : pystr) : float_class :=
  if str_eqb t (lit "NaN") then FNan
  else if str_eqb t (lit "Infinity") then FPosInf
  else if str_eqb t (lit "-Infinity") then FNegInf
  else FFinite.

Definition literal_repr (t : pystr) : pystr :=
  if is_float_literal t then t else lit "0.0".

(** Some digit of the mantissa is not zero. *)
Fixpoint literal_nonzero (t : pystr) : bool :=
  match t with
  | [] => false
  | c :: t' =>
      if (c =? 101) || (c =? 69) then false
      else ((49 <=? c) && (c <=? 57)) || literal_nonzero t'
  end.

Definition literal_bool (t : pystr) : bool :=
  match literal_classify t with
  | FFinite => literal_nonzero t
  | _ => true
  end.

#[export] Instance LiteralFloat : PyFloat := {|
  pyfloat := pystr;
  float_of_literal := fun t => t;
  float_repr := literal_repr;
  float_classify := literal_classify;
  float_bool := literal_bool;
  float_nan := lit "NaN";
  float_inf := lit "Infinity";
  float_neginf := lit "-Infinity";
|}.

(* ===================================================================== *)
(** ** [pathlib] paths *)
(* ===================================================================== *)

Module PyPath.

(** A path is its [parts]: an absolute path starts with its root. *)
Abbreviation path := (list pystr).

Fixpoint count_slashes (s : pystr) : nat :=
  match s with
  | c :: s' => if c =? 47 then S (count_slashes s') else O
  | [] => O
  end.

(** The root of a POSIX path text: two leading slashes are kept apart,
    one or three and more make the root [/]. *)
Definition root_of (s : pystr) : path :=
  match count_slashes s with
  | O => []
  | 2%nat => [[47; 47]]
  | _ => [[47]]
  end.

Definition is_component (c : pystr) : bool :=
  negb (str_eqb c []) && negb (str_eqb c [46]).

(** [Path(s)] *)
Definition Path (s : pystr) : path :=
  root_of s ++ filter (fun c => is_component c = true) (split 47 s).

Definition is_root (p : path) : bool :=
  match p with
  | [r] => head_is 47 r
  | _ => false
  end.

(** [p.parent]: the root and the empty path are their own parents. *)
Definition parent (p : path) : path :=
  if is_root p then p else removelast p.

(** [p / name] for a relative one-component [name] *)
Definition joinpath (p : path) (name : pystr) : path := p ++ [name].

(** [str(p)] *)
Definition path_str (p : path) : pystr :=
  match p with
  | [] => [46]
  | r :: cs => if head_is 47 r then r ++ join [47] cs else join [47] p
  end.

End PyPath.
Import PyPath.

(* ===================================================================== *)
(** ** The world: sub-processes, clock, file system, standard output *)
(* ===================================================================== *)

Inductive exn :=
| CalledProcessError (cmd : list pystr) (returncode : Z)
| FileNotFoundError
| PermissionError
| FileExistsError
| NotADirectoryError
| IsADirectoryError
| JSONDecodeError
| AttributeError.

(** What becomes of a command line: the executable is missing, or the
    process ends with a return code and what it wrote to standard output. *)
Inductive proc_outcome :=
| NotInstalled
| Exited (returncode : Z) (stdout : pystr).

(** The observable steps of a run, in order. *)
Inductive event :=
| EvPrint (text : pystr)
| EvRun (argv : list pystr)
| EvClock
| EvMkdir (p : path)
| EvOpenAppend (p : path)
| EvWrite (p : path) (data : pystr).

Record world := {
  (** what [subprocess.run] meets for a command line *)
  w_exec : list pystr -> proc_outcome;
  (** [str(e)] of a [CalledProcessError] *)
  w_errtext : list pystr -> Z -> pystr;
  (** [datetime.now(timezone.utc).isoformat()] *)
  w_now : pystr;
  (** the directories and the regular files with their contents *)
  w_dirs : gset path;
  w_files : gmap path pystr;
  (** may the process create entries in this directory, or write this file *)
  w_writable : path -> bool;
  w_trace : list event
}.

Inductive outcome (A : Type) : Type :=
| Ret (a : A)
| Raise (e : exn).
Arguments Ret {A} a.
Arguments Raise {A} e.

(** Computations: state passing, with Python exceptions. *)
Definition M (A : Type) : Type := world -> outcome A * world.

Definition ret {A} (a : A) : M A := fun w => (Ret a, w).
Definition raise {A} (e : exn) : M A := fun w => (Raise e, w).
Definition bind {A B} (m : M A) (k : A -> M B) : M B :=
  fun w => match m w with
           | (Ret a, w') => k a w'
           | (Raise e, w') => (Raise e, w')
           end.

Notation "x <- m ;; k" := (bind m (fun x => k))
  (at level 100, m at level 99, k at level 200, right associativity).
Notation "m ;; k" := (bind m (fun _ => k))
  (at level 100, k at level 200, right associativity).

(** [try: m  except ...: handler]: [handler e] is [None] when no clause
    matches [e], which then propagates. The effects of [m] up to the
    exception stay. *)
Definition try_except {A} (m : M A) (handler : exn -> option (M A)) : M A :=
  fun w => match m w with
           | (Ret a, w') => (Ret a, w')
           | (Raise e, w') =>
               match handler e with
               | Some k => k w'
               | None => (Raise e, w')
               end
           end.

Definition record_event (ev : event) (w : world) : world :=
  {| w_exec := w_exec w; w_errtext := w_errtext w; w_now := w_now w;
     w_dirs := w_dirs w; w_files := w_files w;
     w_writable := w_writable w; w_trace := w_trace w ++ [ev] |}.

Definition emit (ev : event) : M unit :=
  fun w => (Ret tt, record_event ev w).

Definition print (text : pystr) : M unit := emit (EvPrint text).

(** [subprocess.run(argv, capture_output=True, text=True, check=True).stdout] *)
Definition subprocess_run (argv : list pystr) : M pystr :=
  emit (EvRun argv) ;;
  fun w => match w_exec w argv with
           | NotInstalled => (Raise FileNotFoundError, w)
           | Exited rc out =>
               if (rc =? 0)%Z then (Ret out, w)
               else (Raise (CalledProcessError argv rc), w)
           end.

Definition exn_str (e : exn) : M pystr :=
  fun w => match e with
           | CalledProcessError cmd rc => (Ret (w_errtext w cmd rc), w)
           | _ => (Ret [], w)
           end.

(** [datetime.datetime.now(datetime.timezone.utc).isoformat()] *)
Definition now_isoformat : M pystr :=
  emit EvClock ;; fun w => (Ret (w_now w), w).

Definition is_dir (w : world) (p : path) : bool :=
  bool_decide (p ∈ w_dirs w) || is_root p || bool_decide (p = []).

Definition is_file (w : world) (p : path) : bool :=
  bool_decide (is_Some (w_files w !! p)).

Definition set_dirs (w : world) (ds : gset path) : world :=
  {| w_exec := w_exec w; w_errtext := w_errtext w; w_now := w_now w;
     w_dirs := ds; w_files := w_files w;
     w_writable := w_writable w; w_trace := w_trace w |}.

Definition set_files (w : world) (fs : gmap path pystr) : world :=
  {| w_exec := w_exec w; w_errtext := w_errtext w; w_now := w_now w;
     w_dirs := w_dirs w; w_files := fs;
     w_writable := w_writable w; w_trace := w_trace w |}.

(** [os.mkdir(p)] *)
Definition os_mkdir (p : path) : M unit :=
  emit (EvMkdir p) ;;
  fun w =>
    if is_dir w (parent p) then
      if is_dir w p || is_file w p then (Raise FileExistsError, w)
      else if w_writable w (parent p)
           then (Ret tt, set_dirs w ({[ p ]} ∪ w_dirs w))
           else (Raise PermissionError, w)
    else if is_file w (parent p) then (Raise NotADirectoryError, w)
    else (Raise FileNotFoundError, w).

Definition path_is_dir (p : path) : M bool := fun w => (Ret (is_dir w p), w).

(** [p.mkdir(parents=False, exist_ok=True)] *)
Definition mkdir_exist_ok (p : path) : M unit :=
  try_except (os_mkdir p)
    (fun e => match e with
              | FileNotFoundError => None
              | _ => Some (d <- path_is_dir p ;; if d then ret tt else raise e)
              end).

(** [p.mkdir(parents=True, exist_ok=True)], as [pathlib] writes it: on
    [FileNotFoundError] the parent is made first, then [p] itself. The
    recursion follows the length of [p]. *)
Fixpoint mkdir_parents (fuel : nat) (p : path) : M unit :=
  try_except (os_mkdir p)
    (fun e => match e with
              | FileNotFoundError =>
                  match fuel with
                  | O => None
                  | S fuel' =>
                      if bool_decide (parent p = p) then None
                      else Some (mkdir_parents fuel' (parent p) ;; mkdir_exist_ok p)
                  end
              | _ => Some (d <- path_is_dir p ;; if d then ret tt else raise e)
              end).

Definition path_mkdir (p : path) : M unit := mkdir_parents (length p) p.

(** The content of a file, empty when there is none. *)
Definition content (w : world) (p : path) : pystr := default [] (w_files w !! p).

Definition create_file (p : path) (w : world) : world :=
  set_files w (<[ p := [] ]> (w_files w)).

Definition append_data (p : path) (data : pystr) (w : world) : world :=
  set_files w (<[ p := content w p ++ data ]> (w_files w)).

(** [open(p, 'a')]: the file is created empty when it is missing. *)
Definition open_append (p : path) : M path :=
  emit (EvOpenAppend p) ;;
  fun w =>
    if is_dir w p then (Raise IsADirectoryError, w)
    else if is_file w p then
      if w_writable w p then (Ret p, w) else (Raise PermissionError, w)
    else if is_dir w (parent p) then
      if w_writable w (parent p)
      then (Ret p, create_file p w)
      else (Raise PermissionError, w)
    else if is_file w (parent p) then (Raise NotADirectoryError, w)
    else (Raise FileNotFoundError, w).

(** [f.write(data)] on a file opened for appending: the data goes after
    the present content. *)
Definition file_write (f : path) (data : pystr) : M unit :=
  emit (EvWrite f data) ;;
  fun w => (Ret tt, append_data f data w).


(* ===================================================================== *)
(** ** [TailscaleLogCollector] *)
(* ===================================================================== *)

Section Collector.
Context {F : PyFloat}.

(** The attributes set by [__init__]. *)
Record collector := {
  output_dir : path;
  log_file : path
}.

(** [TailscaleLogCollector.__init__] *)
Definition init (dir : pystr) : M collector :=
  let output_dir := Path dir in
  path_mkdir output_dir ;;
  ret {| output_dir := output_dir;
         log_file := joinpath output_dir (lit "tailscale.log") |}.

Definition status_argv : list pystr :=
  [lit "tailscale"; lit "status"; lit "--json"].

(** [json.loads] inside a computation: [None] raises. *)
Definition loads (s : pystr) : M pyval :=
  match json_loads s with
  | Some v => ret v
  | None => raise JSONDecodeError
  end.

(** [get_tailscale_status]; Python's [None] is [PNone]. *)
Definition get_tailscale_status (self : collector) : M pyval :=
  try_except
    (stdout <- subprocess_run status_argv ;;
     loads stdout)
    (fun e => match e with
              | CalledProcessError _ _ =>
                  Some (text <- exn_str e ;;
                        print (lit "Error getting Tailscale status: " ++ text) ;;
                        ret PNone)
              | FileNotFoundError =>
                  Some (print (lit "Tailscale CLI not found. Please install Tailscale.") ;;
                        ret PNone)
              | _ => None
              end).

Definition journal_argv (lines : Z) : list pystr :=
  [lit "journalctl"; lit "-u"; lit "tailscaled"; lit "-n"; int_repr lines;
   lit "--output=json"].

(** The body of the [for line in ...] loop of [get_system_logs], with the
    list [logs] it appends to: an empty line is passed over, a line that
    raises [JSONDecodeError] is left by [continue]. *)
Fixpoint parse_lines (lines : list pystr) (logs : list pyval) : list pyval :=
  match lines with
  | [] => logs
  | line :: rest =>
      if negb (Nat.eqb (length line) 0) then
        match json_loads line with
        | Some v => parse_lines rest (logs ++ [v])
        | None => parse_lines rest logs
        end
      else parse_lines rest logs
  end.

(** [get_system_logs] *)
Definition get_system_logs (self : collector) (lines : Z) : M (list pyval) :=
  try_except
    (stdout <- subprocess_run (journal_argv lines) ;;
     ret (parse_lines (split 10 (strip stdout)) []))
    (fun e => match e with
              | CalledProcessError _ _ =>
                  Some (print (lit "Could not retrieve system logs. Running without sudo?") ;;
                        ret [])
              | FileNotFoundError =>
                  Some (print (lit "journalctl not found. This script works best on Linux with systemd.") ;;
                        ret [])
              | _ => None
              end).

(** [log.get(key, default)]: only a [dict] has the method. *)
Definition get (log : pyval) (key : pystr) (default : pyval) : M pyval :=
  match log with
  | PDict d => ret (match dict_lookup key d with
                    | Some v => v
                    | None => default
                    end)
  | _ => raise AttributeError
  end.

(** [wazuh_logs["events"].append(event)] *)
Definition events_append (wazuh_logs event : pyval) : pyval :=
  match wazuh_logs with
  | PDict d =>
      match dict_lookup (lit "events") d with
      | Some (PList l) => PDict (dict_set (lit "events") (PList (l ++ [event])) d)
      | _ => wazuh_logs
      end
  | _ => wazuh_logs
  end.

(** The loop [for log in system_logs] of [format_for_wazuh]. *)
Fixpoint process_logs (timestamp : pystr) (system_logs : list pyval)
    (wazuh_logs : pyval) : M pyval :=
  match system_logs with
  | [] => ret wazuh_logs
  | log :: rest =>
      ts <- get log (lit "__REALTIME_TIMESTAMP") (PStr timestamp) ;;
      message <- get log (lit "MESSAGE") (PStr []) ;;
      priority <- get log (lit "PRIORITY") (PStr (lit "6")) ;;
      unit <- get log (lit "_SYSTEMD_UNIT") (PStr (lit "tailscaled")) ;;
      hostname <- get log (lit "_HOSTNAME") (PStr (lit "unknown")) ;;
      let event := PDict [ (lit "timestamp", ts);
                           (lit "message", message);
                           (lit "priority", priority);
                           (lit "unit", unit);
                           (lit "hostname", hostname) ] in
      process_logs timestamp rest (events_append wazuh_logs event)
  end.

(** [format_for_wazuh] *)
Definition format_for_wazuh (self : collector) (status_data : pyval)
    (system_logs : list pyval) : M pyval :=
  now <- now_isoformat ;;
  let timestamp := replace (lit "+00:00") (lit "Z") now in
  let wazuh_logs := PDict [ (lit "timestamp", PStr timestamp);
                            (lit "source", PStr (lit "tailscale"));
                            (lit "collector_version", PStr (lit "1.0"));
                            (lit "status", status_data);
                            (lit "events", PList []) ] in
  process_logs timestamp system_logs wazuh_logs.

(** [json.dump(obj, f)] *)
Definition json_dump (obj : pyval) (f : path) : M unit :=
  file_write f (json_dumps obj).

(** [save_logs]: the returned path, or [None]. *)
Definition save_logs (self : collector) (logs : pyval) : M (option path) :=
  try_except
    (f <- open_append (log_file self) ;;
     json_dump logs f ;;
     file_write f [10] ;;
     print (lit "Log appended to: " ++ path_str (log_file self)) ;;
     ret (Some (log_file self)))
    (fun e => match e with
              | PermissionError =>
                  Some (print (lit "Error: Permission denied writing to "
                               ++ path_str (log_file self) ++ lit ". Try sudo?") ;;
                        ret None)
              | _ => None
              end).

(** [collect] *)
Definition collect (self : collector) : M unit :=
  print (lit "Collecting Tailscale logs...") ;;
  status <- get_tailscale_status self ;;
  if truthy status then
    system_logs <- get_system_logs self 50 ;;
    formatted_logs <- format_for_wazuh self status system_logs ;;
    save_logs self formatted_logs ;;
    ret tt
  else
    print (lit "Failed to collect status.").

(** [main], given [sys.argv]. *)
Definition main (argv : list pystr) : M unit :=
  let output_dir :=
    if (1 <? length argv)%nat then nth 1 argv []
    else lit "/var/log/tailscale-custom" in
  collector <- init output_dir ;;
  collect collector.

End Collector.


(* ===================================================================== *)
(** ** Notions used to state the properties *)
(* ===================================================================== *)

Section Notions.
Context {F : PyFloat}.

Definition is_dict (v : pyval) : Prop :=
  match v with
  | PDict _ => True
  | _ => False
  end.

(** [v[k]] when [v] is a dictionary holding [k]. *)
Definition item (v : pyval) (k : pystr) : option pyval :=
  match v with
  | PDict d => dict_lookup k d
  | _ => None
  end.

Definition get_default (d : list (pystr * pyval)) (k : pystr) (default : pyval) : pyval :=
  match dict_lookup k d with
  | Some v => v
  | None => default
  end.

(** The LogEntry of the specification: the five recognized fields of a
    raw log document, each with its default. *)
Definition log_entry (timestamp : pystr) (log : pyval) : pyval :=
  match log with
  | PDict d =>
      PDict [ (lit "timestamp", get_default d (lit "__REALTIME_TIMESTAMP") (PStr timestamp));
              (lit "message", get_default d (lit "MESSAGE") (PStr []));
              (lit "priority", get_default d (lit "PRIORITY") (PStr (lit "6")));
              (lit "unit", get_default d (lit "_SYSTEMD_UNIT") (PStr (lit "tailscaled")));
              (lit "hostname", get_default d (lit "_HOSTNAME") (PStr (lit "unknown"))) ]
  | _ => PNone
  end.

(** The CollectionRecord of the specification. *)
Definition collection_record (timestamp : pystr) (status : pyval)
    (events : list pyval) : pyval :=
  PDict [ (lit "timestamp", PStr timestamp);
          (lit "source", PStr (lit "tailscale"));
          (lit "collector_version", PStr (lit "1.0"));
          (lit "status", status);
          (lit "events", PList events) ].

(** The collection timestamp read from the clock of [w]. *)
Definition collection_timestamp (w : world) : pystr :=
  replace (lit "+00:00") (lit "Z") (w_now w).

(** A raw log document with none of the five recognized keys. *)
Definition no_recognized_key (log : pyval) : Prop :=
  is_dict log /\
  item log (lit "__REALTIME_TIMESTAMP") = None /\
  item log (lit "MESSAGE") = None /\
  item log (lit "PRIORITY") = None /\
  item log (lit "_SYSTEMD_UNIT") = None /\
  item log (lit "_HOSTNAME") = None.

(** [open(p, 'a')] succeeds: [p] is not a directory and is a writable
    file, or is missing from a writable directory. *)
Definition appendable (w : world) (p : path) : bool :=
  negb (is_dir w p)
  && (if is_file w p then w_writable w p
      else is_dir w (parent p) && w_writable w (parent p)).

(** Status retrieval yields no snapshot: [get_tailscale_status] returns
    [None] or does not return. *)
Definition status_unavailable (self : collector) (w : world) : Prop :=
  match fst (get_tailscale_status self w) with
  | Ret v => v = PNone
  | Raise _ => True
  end.

(** The steps of a run that stops at the status: the status command and
    diagnostics. *)
Definition status_step (ev : event) : Prop :=
  ev = EvRun status_argv \/ exists text, ev = EvPrint text.

(** The lines of a text file: the pieces between line feeds, the piece
    after the last line feed counting only when it is not empty. *)
Definition file_lines (text : pystr) : list pystr :=
  let pieces := split 10 text in
  match last pieces with
  | Some [] => removelast pieces
  | _ => pieces
  end.


(** Printable ASCII, the only characters the encoder writes. *)
Definition printable (c : N) : bool := (32 <=? c) && (c <=? 126).

(** The characters of a JSON number. *)
Definition numchar (c : N) : bool :=
  isdigit c || (c =? 46) || (c =? 101) || (c =? 69) || (c =? 43) || (c =? 45).

(** What follows cannot prolong a number. *)
Definition stops_number (rest : pystr) : bool :=
  match rest with
  | [] => true
  | c :: _ => negb (numchar c)
  end.

(** The first character of the text of a value. *)
Definition value_head (c : N) : bool :=
  (c =? 110) || (c =? 116) || (c =? 102) || isdigit c || (c =? 45)
  || (c =? 78) || (c =? 73) || (c =? 34) || (c =? 91) || (c =? 123).

(** What [scanstring] does after a [\uXXXX] escape that is a high
    surrogate [u], with [s3] the text after the escape. *)
Definition after_high (u : N) (s3 : pystr) : option (pystr * pystr) :=
  match s3 with
  | b :: v :: g1 :: g2 :: g3 :: g4 :: s4 =>
      if (b =? 92) && (v =? 117) then
        match hex4_value g1 g2 g3 g4 with
        | None => None
        | Some u2 =>
            if is_low_surrogate u2
            then scan_cons (join_surrogates u u2) (scanstring s4)
            else scan_cons u (scanstring s3)
        end
      else scan_cons u (scanstring s3)
  | _ => scan_cons u (scanstring s3)
  end.

(** The pieces the encoder makes of a string: a character as it is, a
    one-letter escape, or a [\uXXXX] escape with its four digits. *)
Inductive token :=
| TChar (c : N)
| TEsc (e : N)
| TUni (a b c d : N).

Definition render (t : token) : pystr :=
  match t with
  | TChar c => [c]
  | TEsc e => [92; e]
  | TUni a b c d => [92; 117; a; b; c; d]
  end.

Definition token_ok (t : token) : Prop :=
  match t with
  | TChar c => (c =? 34) = false /\ (c =? 92) = false /\ (c <=? 31) = false
  | TEsc e => (e =? 117) = false /\ is_Some (unescape e)
  | TUni a b c d => is_Some (hex4_value a b c d)
  end.

(** A recursion budget that suffices to scan the text of a value. *)
Fixpoint need (v : pyval) : nat :=
  match v with
  | PList l => S (list_sum (map (fun x => S (need x)) l))
  | PDict d => S (list_sum (map (fun kv => S (need (snd kv))) d))
  | _ => 1
  end.

(** The text of one member of a dictionary, as [json.dump] writes it. *)
Definition member_text (kv : pystr * pyval) : pystr :=
  encode_basestring_ascii (fst kv) ++ [58; 32] ++ json_dumps (snd kv).


(** The log query fails: the tool is missing or ends with a non-zero
    return code. *)
Definition log_source_fails (w : world) : Prop :=
  match w_exec w (journal_argv 50) with
  | NotInstalled => True
  | Exited rc _ => rc <> 0%Z
  end.

(** The non-empty prefixes of a path, shortest first: its ancestors and
    itself. *)
Fixpoint prefixes (p : path) : list path :=
  match p with
  | [] => []
  | c :: p' => [c] :: map (cons c) (prefixes p')
  end.

(** Nothing stands in the way of [p.mkdir(parents=True, exist_ok=True)]:
    no prefix of [p] is a regular file, and each one that is not yet a
    directory may be created in its parent. *)
Definition mkdir_allowed (w : world) (p : path) : bool :=
  forallb (fun q => negb (is_file w q) && (is_dir w q || w_writable w (parent q)))
          (prefixes p).

(** Every directory lies in a directory. *)
Definition dirs_closed (w : world) : Prop :=
  forall q, q ∈ w_dirs w -> is_dir w (parent q) = true.

Definition is_mkdir (ev : event) : Prop :=
  match ev with
  | EvMkdir _ => True
  | _ => False
  end.

(** [w'] comes after [w] by steps that all satisfy [P]. *)
Definition extends (P : event -> Prop) (w w' : world) : Prop :=
  exists steps, w_trace w' = w_trace w ++ steps /\ Forall P steps.

(** What [mkdir] may change of a world: more directories, and its own
    steps. *)
Definition grows (w w' : world) : Prop :=
  w_files w' = w_files w /\ w_exec w' = w_exec w /\
  w_writable w' = w_writable w /\ w_dirs w ⊆ w_dirs w' /\
  extends is_mkdir w w'.

(** A step of [collect]: anything but a [mkdir]. *)
Definition collect_step (ev : event) : Prop := ~ is_mkdir ev.

(** What [collect] may change of a world: never the directories, and its
    steps are not [mkdir] steps. *)
Definition quiet (w w' : world) : Prop :=
  w_dirs w' = w_dirs w /\ extends collect_step w w'.

Definition quiet_comp {A} (m : M A) : Prop :=
  forall w, quiet w (snd (m w)).

(** The directory [main] takes from [sys.argv]. *)
Definition chosen_dir (argv : list pystr) : pystr :=
  if (1 <? length argv)%nat then nth 1 argv []
  else lit "/var/log/tailscale-custom".

(** JSON texts are written below with an apostrophe for each double
    quote. *)
Definition jlit (s : string) : pystr :=
  map (fun c => if c =? 39 then 34 else c) (lit s).

(** Outputs of the status command that are JSON values Python takes for
    false: the empty object, null, false, zero, the empty string, the empty
    array. *)
Definition falsy_status_outputs : list pystr :=
  [jlit "{}"; lit "null"; lit "false"; lit "0"; jlit "''"; lit "[]"].

(** A concrete setting for examples: the default output directory
    exists, there is no file yet, and the two tools behave as given. *)
Definition example_dir : path := Path (lit "/var/log/tailscale-custom").

Definition example_collector : collector :=
  {| output_dir := example_dir;
     log_file := joinpath example_dir (lit "tailscale.log") |}.

Definition example_world (status journal : proc_outcome) (writable : bool) : world :=
  {| w_exec := fun argv => if bool_decide (argv = status_argv) then status else journal;
     w_errtext := fun _ _ => lit "Command returned non-zero exit status.";
     w_now := lit "2026-11-04T12:28:00.123456+00:00";
     w_dirs := {[ example_dir ]};
     w_files := ∅;
     w_writable := fun _ => writable;
     w_trace := [] |}.

(** The same with nothing on disk yet. *)
Definition bare_world (status journal : proc_outcome) : world :=
  {| w_exec := fun argv => if bool_decide (argv = status_argv) then status else journal;
     w_errtext := fun _ _ => lit "Command returned non-zero exit status.";
     w_now := lit "2026-11-04T12:28:00.123456+00:00";
     w_dirs := ∅;
     w_files := ∅;
     w_writable := fun _ => true;
     w_trace := [] |}.

Definition example_status : pyval :=
  PDict [ (lit "Self", PDict [ (lit "Online", PBool true) ]) ].

Definition example_record : pyval :=
  collection_record (lit "2026-11-04T12:28:00.123456Z") example_status [].

(** Two raw log documents: one with a message, one with no recognized
    key. *)
Definition example_logs : list pyval :=
  [ PDict [ (lit "MESSAGE", PStr (lit "a")) ]; PDict [ (lit "OTHER", PInt 1) ] ].

(** A journal output of three JSON lines and one line that is not JSON. *)
Definition example_journal : pystr :=
  jlit "{'MESSAGE':'a'}" ++ [10] ++ lit "garbage" ++ [10]
  ++ jlit "{'MESSAGE':'b'}" ++ [10] ++ jlit "{'MESSAGE':'c'}" ++ [10].

Definition example_status_output : pystr := jlit "{'Self':{'Online':true}}".

Definition example_argv : list pystr := [lit "collect_tailscale_logs.py"].

(** Worlds for the examples: all is well; the status tool is missing; the
    status is the empty object; the log tool is missing; the log tool is
    missing and nothing may be written. *)
Definition world_ok : world :=
  example_world (Exited 0 example_status_output) (Exited 0 example_journal) true.

Definition world_no_tailscale : world :=
  example_world NotInstalled (Exited 0 example_journal) true.

Definition world_empty_status : world :=
  example_world (Exited 0 (jlit "{}")) NotInstalled true.

Definition world_no_journalctl : world :=
  example_world (Exited 0 example_status_output) NotInstalled true.

Definition world_read_only : world :=
  example_world (Exited 0 example_status_output) NotInstalled false.

Definition example_full_record : pyval :=
  collection_record (lit "2026-11-04T12:28:00.123456Z") example_status
    (map (log_entry (lit "2026-11-04T12:28:00.123456Z")) example_logs).

(** *** Notions for the further properties *)

(** The five fields of an entry, each with the journal key it is taken
    from. *)
Definition recognized_keys : list (pystr * pystr) :=
  [ (lit "timestamp", lit "__REALTIME_TIMESTAMP");
    (lit "message", lit "MESSAGE");
    (lit "priority", lit "PRIORITY");
    (lit "unit", lit "_SYSTEMD_UNIT");
    (lit "hostname", lit "_HOSTNAME") ].


(** The file system of [w'] is that of [w]. *)
Definition same_disk (w w' : world) : Prop :=
  w_files w' = w_files w /\ w_dirs w' = w_dirs w /\ w_writable w' = w_writable w.

(** The status command yields no output to parse: the tool is missing or
    ends with a non-zero return code. *)
Definition status_command_fails (w : world) : Prop :=
  match w_exec w status_argv with
  | NotInstalled => True
  | Exited rc _ => rc <> 0%Z
  end.

(** [open(p, 'a')] is refused: [p] is a file that may not be written, or
    is missing from a directory in which nothing may be created. *)
Definition write_refused (w : world) (p : path) : bool :=
  negb (is_dir w p)
  && (if is_file w p then negb (w_writable w p)
      else is_dir w (parent p) && negb (w_writable w (parent p))).



(** Consecutive calls of [save_logs], one for each record, in order. *)
Fixpoint save_each (self : collector) (records : list pyval) : M unit :=
  match records with
  | [] => ret tt
  | record :: rest => save_logs self record ;; save_each self rest
  end.

(** A text file whose last line is complete: the text is empty or ends
    with a line feed. *)
Definition terminated (text : pystr) : bool :=
  match last text with
  | Some c => c =? 10
  | None => true
  end.

(** A Unicode scalar value: a code point that is not a surrogate. *)
Definition is_scalar (c : N) : bool :=
  (c <? 55296) || ((57344 <=? c) && (c <? 1114112)).

Definition scalar_text (s : pystr) : bool := forallb is_scalar s.

(** A float that [json] writes and reads back as itself: the NaN or an
    infinity that [json.loads] makes, or a finite float, which [float]
    gives back from its [repr]. *)
Definition float_canonical (f : pyfloat) : Prop :=
  match float_classify f with
  | FNan => f = float_nan
  | FPosInf => f = float_inf
  | FNegInf => f = float_neginf
  | FFinite => float_of_literal (float_repr f) = f
  end.

(** A value that [json] writes and reads back as itself: strings and keys
    are made of scalar values, the keys of a dictionary are distinct (as
    in every Python [dict]), floats are as above. *)
Fixpoint canonical (v : pyval) : Prop :=
  match v with
  | PNone | PBool _ | PInt _ => True
  | PFloat f => float_canonical f
  | PStr s => scalar_text s = true
  | PList l =>
      (fix each (l : list pyval) : Prop :=
         match l with
         | [] => True
         | x :: l' => canonical x /\ each l'
         end) l
  | PDict d =>
      NoDup (map fst d) /\
      (fix each (d : list (pystr * pyval)) : Prop :=
         match d with
         | [] => True
         | (k, x) :: d' => scalar_text k = true /\ canonical x /\ each d'
         end) d
  end.

(** [json.loads] reads the text of [v] back as [v] itself, up to [rest],
    with any sufficient budget. *)
Definition reads_back_same (v : pyval) : Prop :=
  forall fuel rest,
    (need v <= fuel)%nat -> stops_number rest = true ->
    scan_once fuel (json_dumps v ++ rest) = Scanned v rest.

(** More worlds for the examples: the log query prints only white space;
    it prints a JSON number; the status command prints a text that is not
    JSON; the path of the output directory is taken by a regular file. *)
Definition world_blank_journal : world :=
  example_world (Exited 0 example_status_output) (Exited 0 [32; 10; 10]) true.



Definition world_path_taken : world :=
  {| w_exec := fun _ => NotInstalled;
     w_errtext := fun _ _ => [];
     w_now := lit "2026-11-04T12:28:00.123456+00:00";
     w_dirs := ∅;
     w_files := {[ example_dir := lit "not a directory" ]};
     w_writable := fun _ => true;
     w_trace := [] |}.



(** A text of JSON white space only: spaces, tabs, line feeds, carriage
    returns. *)
Definition json_blank (ws : pystr) : bool := forallb is_json_ws ws.






End Notions.

(** A record over the literal floats, with a float, a negative integer,
    and a text with characters that are escaped (a quote, a line feed, an
    accented letter, a character above the BMP). *)
Definition example_reading : @pyval LiteralFloat :=
  PDict [ (lit "latency", PFloat (lit "1.5"));
          (lit "offset", PInt (-42));
          (lit "peers", PList [ PStr [34; 233; 10; 128512]; PNone ]) ].

(* ===================================================================== *)
(** ** The Normalizer: [format_for_wazuh] *)
(* ===================================================================== *)

Section Normalizer.
Context {F : PyFloat}.

Lemma get_dict (d : list (pystr * pyval)) k default w :
  get (PDict d) k default w = (Ret (get_default d k default), w).
Proof. reflexivity. Qed.

(** The loop adds, after the events already present, the entry of each
    log document, in order. *)
Lemma process_logs_events ts (logs : list pyval) :
  Forall is_dict logs ->
  forall status evs w,
    process_logs ts logs (collection_record ts status evs) w
    = (Ret (collection_record ts status (evs ++ map (log_entry ts) logs)), w).
Proof.
  induction 1 as [|log logs Hlog _ IH]; intros status evs w.
  - simpl. by rewrite app_nil_r.
  - destruct log as [| | | | | |d]; try contradiction.
    cbn [process_logs]. unfold bind at 1. rewrite get_dict.
    unfold bind at 1. rewrite get_dict.
    unfold bind at 1. rewrite get_dict.
    unfold bind at 1. rewrite get_dict.
    unfold bind at 1. rewrite get_dict.
    change (events_append (collection_record ts status evs) ?e)
      with (collection_record ts status (evs ++ [e])).
    rewrite IH. cbn [map]. by rewrite <- app_assoc.
Qed.

(** [format_for_wazuh] reads the clock once and returns the record built
    from that timestamp, the status as given, and one entry per log. *)
Lemma format_for_wazuh_record self status (logs : list pyval) w :
  Forall is_dict logs ->
  format_for_wazuh self status logs w
  = (Ret (collection_record (collection_timestamp w) status
            (map (log_entry (collection_timestamp w)) logs)),
     record_event EvClock w).
Proof.
  intros Hlogs. unfold format_for_wazuh, now_isoformat, bind, emit.
  change (w_now (record_event EvClock w)) with (w_now w).
  fold (collection_timestamp w).
  exact (process_logs_events _ logs Hlogs status [] _).
Qed.


(** C1. For every status document and every sequence of raw log documents
    (key-value documents), [format_for_wazuh] returns exactly one
    CollectionRecord: its [events] list is as long as the sequence of log
    documents and its [status] field is the input status document,
    unchanged. *)
Theorem format_for_wazuh_events_length_status self status (logs : list pyval) w :
  Forall is_dict logs ->
  exists record events,
    fst (format_for_wazuh self status logs w) = Ret record /\
    item record (lit "events") = Some (PList events) /\
    length events = length logs /\
    item record (lit "status") = Some status.
Proof.
  intros Hlogs. rewrite format_for_wazuh_record by done.
  eexists _, _. split; [reflexivity|].
  split; [reflexivity|]. split; [|reflexivity].
  by rewrite length_map.
Qed.

(** C8. For every raw log document with none of the five recognized keys,
    the entry [format_for_wazuh] makes of it has an empty message, priority
    6, unit tailscaled, hostname unknown, and for timestamp the collection
    timestamp of the record, which is read once for the whole record. *)
Theorem format_for_wazuh_defaults self status (logs : list pyval) w i log :
  Forall is_dict logs ->
  logs !! i = Some log ->
  no_recognized_key log ->
  exists record ts events,
    fst (format_for_wazuh self status logs w) = Ret record /\
    item record (lit "timestamp") = Some (PStr ts) /\
    item record (lit "events") = Some (PList events) /\
    events !! i = Some (PDict [ (lit "timestamp", PStr ts);
                                (lit "message", PStr []);
                                (lit "priority", PStr (lit "6"));
                                (lit "unit", PStr (lit "tailscaled"));
                                (lit "hostname", PStr (lit "unknown")) ]) /\
    w_trace (snd (format_for_wazuh self status logs w)) = w_trace w ++ [EvClock].
Proof.
  intros Hlogs Hi (Hd & H1 & H2 & H3 & H4 & H5).
  rewrite format_for_wazuh_record by done.
  eexists _, (collection_timestamp w), _.
  split; [reflexivity|]. split; [reflexivity|]. split; [reflexivity|].
  split; [|reflexivity].
  rewrite list_lookup_fmap, Hi. cbn [fmap option_fmap option_map].
  destruct log as [| | | | | |d]; try contradiction.
  cbn [item] in *. unfold log_entry, get_default.
  by rewrite H1, H2, H3, H4, H5.
Qed.

End Normalizer.

(* ===================================================================== *)
(** ** The Status Source and the Log Source *)
(* ===================================================================== *)

Section Sources.
Context {F : PyFloat}.

Lemma json_loads_empty : json_loads [] = None.
Proof. reflexivity. Qed.

Lemma subprocess_run_eq argv w :
  subprocess_run argv w =
  match w_exec w argv with
  | NotInstalled => (Raise FileNotFoundError, record_event (EvRun argv) w)
  | Exited rc out =>
      if (rc =? 0)%Z then (Ret out, record_event (EvRun argv) w)
      else (Raise (CalledProcessError argv rc), record_event (EvRun argv) w)
  end.
Proof. reflexivity. Qed.

(** [get_tailscale_status], case by case. *)
Lemma get_tailscale_status_eq self w :
  get_tailscale_status self w =
  let w1 := record_event (EvRun status_argv) w in
  match w_exec w status_argv with
  | NotInstalled =>
      (Ret PNone,
       record_event (EvPrint (lit "Tailscale CLI not found. Please install Tailscale.")) w1)
  | Exited rc out =>
      if (rc =? 0)%Z then
        match json_loads out with
        | Some v => (Ret v, w1)
        | None => (Raise JSONDecodeError, w1)
        end
      else
        (Ret PNone,
         record_event (EvPrint (lit "Error getting Tailscale status: "
                                ++ w_errtext w status_argv rc)) w1)
  end.
Proof.
  unfold get_tailscale_status, try_except, bind. rewrite subprocess_run_eq.
  destruct (w_exec w status_argv) as [|rc out]; [reflexivity|].
  destruct (rc =? 0)%Z; [|reflexivity].
  unfold loads. by destruct (json_loads out).
Qed.

(** The loop keeps what parses, in order, after what it already has. *)
Lemma parse_lines_omap (lines : list pystr) (logs : list pyval) :
  parse_lines lines logs = logs ++ omap json_loads lines.
Proof.
  revert logs. induction lines as [|line lines IH]; intros logs; cbn [parse_lines omap list_omap].
  - by rewrite app_nil_r.
  - destruct line as [|c line].
    + cbn [length Nat.eqb negb]. by rewrite json_loads_empty, IH.
    + cbn [length Nat.eqb negb].
      destruct (json_loads (c :: line)); rewrite IH; [|done].
      by rewrite <- app_assoc.
Qed.

(** [get_system_logs], case by case. *)
Lemma get_system_logs_eq self n w :
  get_system_logs self n w =
  let w1 := record_event (EvRun (journal_argv n)) w in
  match w_exec w (journal_argv n) with
  | NotInstalled =>
      (Ret [],
       record_event (EvPrint (lit "journalctl not found. This script works best on Linux with systemd.")) w1)
  | Exited rc out =>
      if (rc =? 0)%Z then (Ret (omap json_loads (split 10 (strip out))), w1)
      else
        (Ret [],
         record_event (EvPrint (lit "Could not retrieve system logs. Running without sudo?")) w1)
  end.
Proof.
  unfold get_system_logs, try_except, bind. rewrite subprocess_run_eq.
  destruct (w_exec w (journal_argv n)) as [|rc out]; [reflexivity|].
  destruct (rc =? 0)%Z; [|reflexivity].
  unfold ret. by rewrite parse_lines_omap.
Qed.


End Sources.

(* ===================================================================== *)
(** ** The Appender and the run *)
(* ===================================================================== *)

Section Run.
Context {F : PyFloat}.

(** [save_logs] when the file can be opened: the text of the record and
    one line feed go after the present content. *)
Lemma save_logs_appendable self logs w :
  appendable w (log_file self) = true ->
  exists w',
    save_logs self logs w = (Ret (Some (log_file self)), w') /\
    w_files w' = <[ log_file self :=
                      content w (log_file self) ++ json_dumps logs ++ [10] ]> (w_files w) /\
    w_dirs w' = w_dirs w /\
    w_exec w' = w_exec w /\ w_writable w' = w_writable w /\
    w_trace w' = w_trace w ++
      [ EvOpenAppend (log_file self);
        EvWrite (log_file self) (json_dumps logs);
        EvWrite (log_file self) [10];
        EvPrint (lit "Log appended to: " ++ path_str (log_file self)) ].
Proof.
  intros Hok. set (f := log_file self) in *.
  unfold appendable in Hok. apply andb_true_iff in Hok as [Hnd Hok].
  apply negb_true_iff in Hnd.
  unfold save_logs, try_except, bind, open_append, emit, json_dump, file_write,
    bind, emit, print, emit, ret. fold f.
  change (is_dir (record_event ?e w) ?p) with (is_dir w p).
  change (is_file (record_event ?e w) ?p) with (is_file w p).
  change (w_writable (record_event ?e w) ?p) with (w_writable w p).
  rewrite Hnd. destruct (is_file w f) eqn:Hf.
  - rewrite Hok. eexists. split; [reflexivity|]. cbn.
    split_and!; try reflexivity.
    + repeat (unfold content; cbn; rewrite ?lookup_insert_eq, ?insert_insert_eq).
      by rewrite <- app_assoc.
    + by rewrite <- !app_assoc.
  - apply andb_true_iff in Hok as [Hp Hw]. rewrite Hp, Hw.
    eexists. split; [reflexivity|]. cbn.
    split_and!; try reflexivity.
    + repeat (unfold content; cbn; rewrite ?lookup_insert_eq, ?insert_insert_eq).
      unfold is_file in Hf. apply bool_decide_eq_false in Hf.
      destruct (w_files w !! f) eqn:E; [destruct Hf; eauto|]. done.
    + by rewrite <- !app_assoc.
Qed.

(** [save_logs] when the open is refused: a diagnostic, and no write. *)
Lemma save_logs_denied self logs w :
  fst (open_append (log_file self) w) = Raise PermissionError ->
  exists w',
    save_logs self logs w = (Ret None, w') /\
    w_files w' = w_files w /\ w_dirs w' = w_dirs w.
Proof.
  intros Hopen. unfold save_logs, try_except, bind.
  destruct (open_append (log_file self) w) as [[f|e] w1] eqn:E;
    cbn in Hopen; [discriminate|]. injection Hopen as ->.
  eexists. split; [reflexivity|].
  revert E. unfold open_append, bind, emit.
  repeat case_match; intros; simplify_eq; done.
Qed.

Lemma collect_unfold self w :
  collect self w =
  match get_tailscale_status self
          (record_event (EvPrint (lit "Collecting Tailscale logs...")) w) with
  | (Ret status, w1) =>
      if truthy status then
        match get_system_logs self 50 w1 with
        | (Ret system_logs, w2) =>
            match format_for_wazuh self status system_logs w2 with
            | (Ret formatted_logs, w3) =>
                match save_logs self formatted_logs w3 with
                | (Ret _, w4) => (Ret tt, w4)
                | (Raise e, w4) => (Raise e, w4)
                end
            | (Raise e, w3) => (Raise e, w3)
            end
        | (Raise e, w2) => (Raise e, w2)
        end
      else (Ret tt, record_event (EvPrint (lit "Failed to collect status.")) w1)
  | (Raise e, w1) => (Raise e, w1)
  end.
Proof.
  unfold collect, bind, print, emit.
  repeat case_match; simplify_eq; try reflexivity; congruence.
Qed.

(** Earlier events do not change what the status command yields. *)
Lemma get_tailscale_status_after_event self ev w :
  fst (get_tailscale_status self (record_event ev w))
  = fst (get_tailscale_status self w).
Proof.
  rewrite !get_tailscale_status_eq. cbn.
  by repeat case_match.
Qed.

Ltac status_steps :=
  cbn [app];
  repeat match goal with
         | |- Forall _ [] => constructor
         | |- Forall _ (_ :: _) => constructor
         | |- status_step _ => first [by left | right; eexists; reflexivity]
         end.

(** The status command touches no file. *)
Lemma get_tailscale_status_quiet_files self w :
  w_files (snd (get_tailscale_status self w)) = w_files w.
Proof.
  rewrite get_tailscale_status_eq. cbv zeta.
  destruct (w_exec w status_argv) as [|rc out]; [done|].
  destruct (rc =? 0)%Z; [|done]. by destruct (json_loads out).
Qed.

(** Without a status, [collect] leaves the files as they are. *)
Lemma collect_files_without_status self w :
  status_unavailable self w ->
  w_files (snd (collect self w)) = w_files w.
Proof.
  unfold status_unavailable.
  rewrite <- (get_tailscale_status_after_event self
                (EvPrint (lit "Collecting Tailscale logs...")) w).
  rewrite collect_unfold.
  pose proof (get_tailscale_status_quiet_files self
                (record_event (EvPrint (lit "Collecting Tailscale logs...")) w)) as Hf.
  destruct (get_tailscale_status self _) as [[v|e] w1]; cbn [fst snd] in *.
  - intros ->. exact Hf.
  - intros _. exact Hf.
Qed.

(** C5. Whenever status retrieval yields no snapshot, the run stops there:
    beyond the status command and diagnostics it takes no step (the log
    query is not run, the clock is not read for a record, no file is
    opened or written), and files and directories are as before. *)
Theorem collect_without_status_writes_nothing self w :
  status_unavailable self w ->
  exists steps,
    w_trace (snd (collect self w)) = w_trace w ++ steps /\
    Forall status_step steps /\
    w_files (snd (collect self w)) = w_files w /\
    w_dirs (snd (collect self w)) = w_dirs w.
Proof.
  unfold status_unavailable.
  rewrite <- (get_tailscale_status_after_event self
                (EvPrint (lit "Collecting Tailscale logs...")) w).
  rewrite collect_unfold, get_tailscale_status_eq. cbn.
  destruct (w_exec w status_argv) as [|rc out]; cbn.
  - intros _. eexists. rewrite <- !app_assoc.
    split; [reflexivity|]. split; [|done].
    status_steps.
  - destruct (rc =? 0)%Z.
    + destruct (json_loads out) as [v|]; cbn.
      * intros ->. cbn. eexists. rewrite <- !app_assoc.
        split; [reflexivity|]. split; [|done].
        status_steps.
      * intros _. eexists. rewrite <- !app_assoc.
        split; [reflexivity|]. split; [|done].
        status_steps.
    + intros _. cbn. eexists. rewrite <- !app_assoc.
      split; [reflexivity|]. split; [|done].
      status_steps.
Qed.

End Run.

Section RunClaims.
Context {F : PyFloat}.

Lemma get_system_logs_fails self w :
  log_source_fails w ->
  exists text,
    get_system_logs self 50 w
    = (Ret [], record_event (EvPrint text) (record_event (EvRun (journal_argv 50)) w)).
Proof.
  unfold log_source_fails. intros H. rewrite get_system_logs_eq. cbn zeta.
  destruct (w_exec w (journal_argv 50)) as [|rc out]; [by eexists|].
  destruct (Z.eqb_spec rc 0) as [->|_]; [done|]. by eexists.
Qed.

Lemma collection_timestamp_event ev w :
  collection_timestamp (record_event ev w) = collection_timestamp w.
Proof. reflexivity. Qed.

Lemma get_tailscale_status_parsed self w stdout v :
  w_exec w status_argv = Exited 0 stdout ->
  json_loads stdout = Some v ->
  get_tailscale_status self w = (Ret v, record_event (EvRun status_argv) w).
Proof.
  intros Hexec Hv. rewrite get_tailscale_status_eq. cbv zeta. by rewrite Hexec, Hv.
Qed.

(** A status that parses to a false value sends [collect] to its [else]
    branch. *)
Lemma collect_falsy self w stdout v :
  w_exec w status_argv = Exited 0 stdout ->
  json_loads stdout = Some v ->
  truthy v = false ->
  collect self w
  = (Ret tt,
     record_event (EvPrint (lit "Failed to collect status."))
       (record_event (EvRun status_argv)
          (record_event (EvPrint (lit "Collecting Tailscale logs...")) w))).
Proof.
  intros Hexec Hv Hf. rewrite collect_unfold.
  rewrite (get_tailscale_status_parsed self _ stdout v) by done.
  by rewrite Hf.
Qed.

(** C9. The gate of [collect] tests the truth value of the parsed status:
    when the status command prints the empty object, null, false, 0, the
    empty string or the empty array, the output parses, the status is
    false for [if status:], and the run goes as on a failure: after the
    status command only the diagnostic is printed, and no file changes. *)
Theorem collect_falsy_status_treated_as_failure self w stdout :
  w_exec w status_argv = Exited 0 stdout ->
  In stdout falsy_status_outputs ->
  (exists v, json_loads stdout = Some v /\ truthy v = false /\
             fst (get_tailscale_status self w) = Ret v) /\
  w_trace (snd (collect self w))
  = w_trace w ++ [ EvPrint (lit "Collecting Tailscale logs...");
                   EvRun status_argv;
                   EvPrint (lit "Failed to collect status.") ] /\
  w_files (snd (collect self w)) = w_files w.
Proof.
  intros Hexec Hin.
  assert (exists v, json_loads stdout = Some v /\ truthy v = false) as (v & Hv & Hf).
  { cbn in Hin.
    destruct Hin as [<-|[<-|[<-|[<-|[<-|[<-|[]]]]]]];
      eexists; (split; [vm_compute; reflexivity|reflexivity]). }
  split.
  - exists v. split_and!; [done..|].
    by rewrite (get_tailscale_status_parsed self _ stdout v).
  - rewrite (collect_falsy self w stdout v) by done. cbn.
    by rewrite <- !app_assoc.
Qed.

(** With a truthy status, a failing log query and a file that can be
    opened, [collect] appends the record with no events. *)
Lemma collect_log_failure self w stdout status :
  w_exec w status_argv = Exited 0 stdout ->
  json_loads stdout = Some status ->
  truthy status = true ->
  log_source_fails w ->
  appendable w (log_file self) = true ->
  exists w',
    collect self w = (Ret tt, w') /\
    w_files w' =
      <[ log_file self :=
           content w (log_file self)
           ++ json_dumps (collection_record (collection_timestamp w) status [])
           ++ [10] ]> (w_files w).
Proof.
  intros Hexec Hv Ht Hlog Hok.
  rewrite collect_unfold.
  rewrite (get_tailscale_status_parsed self _ stdout status) by done.
  rewrite Ht.
  set (w1 := record_event _ (record_event _ w)).
  destruct (get_system_logs_fails self w1 Hlog) as (text & ->).
  rewrite format_for_wazuh_record by constructor. cbn [map].
  unfold w1. rewrite !collection_timestamp_event.
  set (w3 := record_event EvClock _).
  destruct (save_logs_appendable self
              (collection_record (collection_timestamp w) status []) w3)
    as (w' & -> & Hfiles & _); [exact Hok|].
  eexists. split; [reflexivity|]. exact Hfiles.
Qed.

(** C6 (amended). Whenever the log query fails (tool missing or non-zero
    return code) while the status command yields a status that is true for
    [if status:] and the log file can be opened for appending,
    [get_system_logs] returns the empty list and [collect] appends a
    CollectionRecord whose [events] is the empty list. *)
Theorem collect_log_failure_persists_empty_events self w stdout status :
  w_exec w status_argv = Exited 0 stdout ->
  json_loads stdout = Some status ->
  truthy status = true ->
  log_source_fails w ->
  appendable w (log_file self) = true ->
  fst (get_system_logs self 50 w) = Ret [] /\
  exists record,
    item record (lit "events") = Some (PList []) /\
    item record (lit "status") = Some status /\
    w_files (snd (collect self w)) =
      <[ log_file self :=
           content w (log_file self) ++ json_dumps record ++ [10] ]> (w_files w).
Proof.
  intros Hexec Hv Ht Hlog Hok. split.
  - by destruct (get_system_logs_fails self w Hlog) as (text & ->).
  - destruct (collect_log_failure self w stdout status) as (w' & -> & Hfiles);
      [done..|].
    eexists. split; [|split; [|exact Hfiles]]; reflexivity.
Qed.

(** The status command succeeds but its output is not JSON: the
    [JSONDecodeError] of [json.loads] meets no [except] clause. *)
Lemma get_tailscale_status_malformed self w stdout :
  w_exec w status_argv = Exited 0 stdout ->
  json_loads stdout = None ->
  get_tailscale_status self w
  = (Raise JSONDecodeError, record_event (EvRun status_argv) w).
Proof.
  intros Hexec Hv. rewrite get_tailscale_status_eq. cbv zeta. by rewrite Hexec, Hv.
Qed.

Lemma collect_malformed self w stdout :
  w_exec w status_argv = Exited 0 stdout ->
  json_loads stdout = None ->
  fst (collect self w) = Raise JSONDecodeError.
Proof.
  intros Hexec Hv. rewrite collect_unfold.
  rewrite (get_tailscale_status_malformed _ _ stdout); done.
Qed.

End RunClaims.

(* ===================================================================== *)
(** ** Facts about the decoder *)
(* ===================================================================== *)

Section DecoderFacts.
Context {F : PyFloat}.

Lemma span_digits_spec s ds r :
  span_digits s = (ds, r) ->
  s = ds ++ r /\ Forall (fun c => isdigit c = true) ds.
Proof.
  revert ds r. induction s as [|c s IH]; intros ds r; cbn [span_digits].
  - intros [= <- <-]. by split.
  - destruct (isdigit c) eqn:Hc.
    + destruct (span_digits s) as [ds' r'].
      intros [= <- <-]. destruct (IH ds' r' eq_refl) as [-> Hds].
      split; [done|]. by constructor.
    + intros [= <- <-]. by split.
Qed.

Lemma stops_number_digit c rest :
  stops_number (c :: rest) = true -> isdigit c = false.
Proof.
  cbn. unfold numchar. rewrite negb_true_iff, !orb_false_iff. tauto.
Qed.

Lemma span_digits_app s rest ds r :
  span_digits s = (ds, r) ->
  stops_number rest = true ->
  span_digits (s ++ rest) = (ds, r ++ rest).
Proof.
  intros Hs Hrest. revert ds r Hs.
  induction s as [|c s IH]; intros ds r; cbn [span_digits app].
  - intros [= <- <-]. destruct rest as [|c rest]; [done|].
    cbn [span_digits]. by rewrite (stops_number_digit c rest).
  - destruct (isdigit c).
    + destruct (span_digits s) as [ds' r'].
      intros [= <- <-]. by rewrite (IH ds' r').
    + by intros [= <- <-].
Qed.

Lemma scan_int_digits_app s rest ip r :
  scan_int_digits s = Some (ip, r) ->
  stops_number rest = true ->
  scan_int_digits (s ++ rest) = Some (ip, r ++ rest).
Proof.
  intros Hs Hrest. destruct s as [|c s]; [done|].
  cbn [scan_int_digits app] in *. destruct (c =? 48); [by injection Hs as <- <-|].
  destruct (isdigit c); [|done].
  destruct (span_digits s) as [ds r'] eqn:E.
  injection Hs as <- <-. by rewrite (span_digits_app s rest ds r').
Qed.

Lemma scan_frac_app s rest fp r :
  scan_frac s = (fp, r) ->
  stops_number rest = true ->
  scan_frac (s ++ rest) = (fp, r ++ rest).
Proof.
  intros Hs Hrest. destruct s as [|c s].
  - injection Hs as <- <-. destruct rest as [|c rest]; [done|].
    cbn in Hrest |- *. unfold numchar in Hrest.
    rewrite negb_true_iff, !orb_false_iff in Hrest.
    destruct Hrest as [[[[[_ ->] _] _] _] _]. done.
  - cbn [scan_frac app] in *. destruct (c =? 46); [|by injection Hs as <- <-].
    destruct (span_digits s) as [ds r'] eqn:E.
    rewrite (span_digits_app s rest ds r') by done.
    destruct ds; by injection Hs as <- <-.
Qed.

Lemma scan_exp_app s rest ep r :
  scan_exp s = (ep, r) ->
  stops_number rest = true ->
  scan_exp (s ++ rest) = (ep, r ++ rest).
Proof.
  intros Hs Hrest. destruct s as [|e s].
  - injection Hs as <- <-. destruct rest as [|c rest]; [done|].
    cbn in Hrest |- *. unfold numchar in Hrest.
    rewrite negb_true_iff, !orb_false_iff in Hrest.
    destruct Hrest as [[[[[_ _] -> ] ->] _] _]. done.
  - cbn [scan_exp app] in *. destruct ((e =? 101) || (e =? 69)); [|by injection Hs as <- <-].
    destruct s as [|g t].
    + cbn [app span_digits] in *. injection Hs as <- <-.
      destruct rest as [|g rest]; [done|].
      pose proof (stops_number_digit g rest Hrest) as Hd.
      cbn in Hrest. unfold numchar in Hrest.
      rewrite negb_true_iff, !orb_false_iff in Hrest.
      destruct Hrest as [[[[[_ _] _] _] H1] H2].
      rewrite H1, H2. cbn [orb span_digits]. by rewrite Hd.
    + cbn [app]. destruct ((g =? 45) || (g =? 43)).
      * destruct (span_digits t) as [ds r'] eqn:E.
        rewrite (span_digits_app t rest ds r') by done.
        destruct ds; by injection Hs as <- <-.
      * destruct (span_digits (g :: t)) as [ds r'] eqn:E.
        change (g :: t ++ rest) with ((g :: t) ++ rest).
        rewrite (span_digits_app (g :: t) rest ds r') by done.
        destruct ds; by injection Hs as <- <-.
Qed.

(** What follows a number does not change how it is scanned, when it
    cannot prolong it. *)
Lemma scan_number_app s rest t b r :
  scan_number s = Some (t, b, r) ->
  stops_number rest = true ->
  scan_number (s ++ rest) = Some (t, b, r ++ rest).
Proof.
  intros Hs Hrest. unfold scan_number in *.
  destruct s as [|c s]; [done|]. cbn [head_is tail app] in *.
  destruct (c =? 45).
  - destruct (scan_int_digits s) as [[ip s1]|] eqn:E1; [|done].
    rewrite (scan_int_digits_app s rest ip s1) by done.
    destruct (scan_frac s1) as [fp s2] eqn:E2.
    rewrite (scan_frac_app s1 rest fp s2) by done.
    destruct (scan_exp s2) as [ep s3] eqn:E3.
    rewrite (scan_exp_app s2 rest ep s3) by done.
    by injection Hs as <- <- <-.
  - destruct (scan_int_digits (c :: s)) as [[ip s1]|] eqn:E1; [|done].
    change (c :: s ++ rest) with ((c :: s) ++ rest).
    rewrite (scan_int_digits_app (c :: s) rest ip s1) by done.
    destruct (scan_frac s1) as [fp s2] eqn:E2.
    rewrite (scan_frac_app s1 rest fp s2) by done.
    destruct (scan_exp s2) as [ep s3] eqn:E3.
    rewrite (scan_exp_app s2 rest ep s3) by done.
    by injection Hs as <- <- <-.
Qed.

Lemma numchar_digit c : isdigit c = true -> numchar c = true.
Proof. unfold numchar. by intros ->. Qed.

Lemma scan_int_digits_spec s ip r :
  scan_int_digits s = Some (ip, r) ->
  s = ip ++ r /\ ip <> [] /\ Forall (fun c => numchar c = true) ip.
Proof.
  destruct s as [|c s]; [done|]. cbn [scan_int_digits].
  destruct (N.eqb_spec c 48) as [->|_].
  - intros [= <- <-]. split_and!; [done..|]. by repeat constructor.
  - destruct (isdigit c) eqn:Hc; [|done].
    destruct (span_digits s) as [ds r'] eqn:E. intros [= <- <-].
    destruct (span_digits_spec s ds r' E) as [-> Hds].
    split_and!; [done..|]. constructor; [by apply numchar_digit|].
    eapply Forall_impl; [exact Hds|]. apply numchar_digit.
Qed.

Lemma scan_frac_spec s fp r :
  scan_frac s = (fp, r) ->
  s = fp ++ r /\ Forall (fun c => numchar c = true) fp.
Proof.
  destruct s as [|c s]; [by intros [= <- <-]|]. cbn [scan_frac].
  destruct (N.eqb_spec c 46) as [->|_]; [|by intros [= <- <-]].
  destruct (span_digits s) as [ds r'] eqn:E.
  destruct (span_digits_spec s ds r' E) as [-> Hds].
  destruct ds as [|d ds]; intros [= <- <-]; [done|].
  split; [done|]. constructor; [done|].
  eapply Forall_impl; [exact Hds|]. apply numchar_digit.
Qed.

Lemma scan_exp_spec s ep r :
  scan_exp s = (ep, r) ->
  s = ep ++ r /\ Forall (fun c => numchar c = true) ep.
Proof.
  destruct s as [|e s]; [by intros [= <- <-]|]. cbn [scan_exp].
  destruct ((e =? 101) || (e =? 69)) eqn:He; [|by intros [= <- <-]].
  assert (numchar e = true) as Hne.
  { unfold numchar. apply orb_true_iff in He as [->| ->];
      by rewrite ?orb_true_r. }
  destruct s as [|g t].
  - by intros [= <- <-].
  - destruct ((g =? 45) || (g =? 43)) eqn:Hg.
    + assert (numchar g = true) as Hng.
      { unfold numchar. apply orb_true_iff in Hg as [->| ->];
          by rewrite ?orb_true_r. }
      destruct (span_digits t) as [ds r'] eqn:E.
      destruct (span_digits_spec t ds r' E) as [-> Hds].
      destruct ds as [|d ds]; intros [= <- <-]; [done|].
      split; [done|]. constructor; [done|]. constructor; [done|].
      eapply Forall_impl; [exact Hds|]. apply numchar_digit.
    + destruct (span_digits (g :: t)) as [ds r'] eqn:E.
      destruct (span_digits_spec (g :: t) ds r' E) as [Heq Hds].
      destruct ds as [|d ds]; intros [= <- <-]; [done|].
      rewrite Heq. split; [done|]. constructor; [done|].
      eapply Forall_impl; [exact Hds|]. apply numchar_digit.
Qed.

(** The text of a number is a non-empty prefix of what was scanned, made
    of number characters. *)
Lemma scan_number_spec s t b r :
  scan_number s = Some (t, b, r) ->
  s = t ++ r /\ t <> [] /\ Forall (fun c => numchar c = true) t.
Proof.
  unfold scan_number. destruct s as [|c s]; [done|]. cbn [head_is tail].
  destruct (N.eqb_spec c 45) as [->|_].
  - destruct (scan_int_digits s) as [[ip s1]|] eqn:E1; [|done].
    destruct (scan_int_digits_spec _ _ _ E1) as (-> & _ & H1).
    destruct (scan_frac s1) as [fp s2] eqn:E2.
    destruct (scan_frac_spec _ _ _ E2) as (-> & H2).
    destruct (scan_exp s2) as [ep s3] eqn:E3.
    destruct (scan_exp_spec _ _ _ E3) as (-> & H3).
    intros [= <- <- <-]. split_and!; [cbn [app]; by rewrite <- ?app_assoc|done|].
    constructor; [done|]. by rewrite !Forall_app.
  - destruct (scan_int_digits (c :: s)) as [[ip s1]|] eqn:E1; [|done].
    destruct (scan_int_digits_spec _ _ _ E1) as (Heq & Hne & H1).
    destruct (scan_frac s1) as [fp s2] eqn:E2.
    destruct (scan_frac_spec _ _ _ E2) as (-> & H2).
    destruct (scan_exp s2) as [ep s3] eqn:E3.
    destruct (scan_exp_spec _ _ _ E3) as (-> & H3).
    intros [= <- <- <-]. split_and!.
    + rewrite Heq. cbn [app]. by rewrite <- ?app_assoc.
    + cbn [app]. by destruct ip.
    + cbn [app]. by rewrite !Forall_app.
Qed.

Lemma skip_ws_length s : (length (skip_ws s) <= length s)%nat.
Proof.
  induction s as [|c s IH]; cbn [skip_ws]; [done|].
  destruct (is_json_ws c); cbn [length]; lia.
Qed.

Lemma scan_cons_some c o t r :
  scan_cons c o = Some (t, r) -> exists t', o = Some (t', r).
Proof. destruct o as [[t' r']|]; cbn; [|done]. intros [= <- <-]. eauto. Qed.

(** The string scanner reads at least the closing quote. *)
Lemma scanstring_shrinks s t r :
  scanstring s = Some (t, r) -> (length r < length s)%nat.
Proof.
  remember (length s) as n eqn:Hn. revert s t r Hn.
  induction n as [n IH] using lt_wf_ind. intros s t r -> Hs.
  destruct s as [|c s1]; [done|]. cbn [scanstring] in Hs.
  repeat case_match; simplify_eq;
    try (cbn [length]; lia);
    match goal with
    | H : scan_cons _ (scanstring ?x) = Some _ |- _ =>
        apply scan_cons_some in H as (t' & H);
        eapply (IH (length x)) in H; [|cbn [length]; lia|reflexivity];
        cbn [length] in *; lia
    end.
Qed.

Lemma head_is_tail c s :
  head_is c s = true -> (length (tail s) < length s)%nat.
Proof. destruct s; cbn; [done|lia]. Qed.

Lemma scan_number_shrinks s t b r :
  scan_number s = Some (t, b, r) -> (length r < length s)%nat.
Proof.
  intros (-> & Hne & _)%scan_number_spec. rewrite length_app.
  destruct t; [done|]. cbn [length]. lia.
Qed.

(** Every scanner reads at least one character. *)
Lemma scan_progress fuel :
  (forall s v r, scan_once fuel s = Scanned v r -> (length r < length s)%nat) /\
  (forall s vs r, scan_items fuel s = Scanned vs r -> (length r < length s)%nat) /\
  (forall s kvs r, scan_members fuel s = Scanned kvs r -> (length r < length s)%nat).
Proof.
  induction fuel as [|fuel (IH1 & IH2 & IH3)]; [done|].
  split_and!.
  - intros [|c s'] v r; [done|]. cbn [scan_once].
    pose proof (skip_ws_length s') as Hws.
    destruct (c =? 34).
    { destruct (scanstring s') as [[t rest]|] eqn:E; [|done].
      intros [= <- <-]. apply scanstring_shrinks in E. cbn [length]. lia. }
    destruct (c =? 123).
    { cbv zeta. destruct (head_is 125 (skip_ws s')) eqn:E.
      - intros [= <- <-]. apply head_is_tail in E. cbn [length]. lia.
      - destruct (scan_members fuel (skip_ws s')) as [pairs rest| |] eqn:E'; [|done..].
        intros [= <- <-]. apply IH3 in E'. cbn [length]. lia. }
    destruct (c =? 91).
    { cbv zeta. destruct (head_is 93 (skip_ws s')) eqn:E.
      - intros [= <- <-]. apply head_is_tail in E. cbn [length]. lia.
      - destruct (scan_items fuel (skip_ws s')) as [items rest| |] eqn:E'; [|done..].
        intros [= <- <-]. apply IH2 in E'. cbn [length]. lia. }
    destruct (startswith (lit "null") (c :: s')) eqn:E1.
    { intros [= <- <-]. rewrite length_drop. cbn [length]. lia. }
    destruct (startswith (lit "true") (c :: s')) eqn:E2.
    { intros [= <- <-]. rewrite length_drop. cbn [length]. lia. }
    destruct (startswith (lit "false") (c :: s')) eqn:E3.
    { intros [= <- <-]. rewrite length_drop. cbn [length]. lia. }
    destruct (scan_number (c :: s')) as [[[t b] rest]|] eqn:E4.
    { intros [= <- <-]. by apply scan_number_shrinks in E4. }
    destruct (startswith (lit "NaN") (c :: s')) eqn:E5.
    { intros [= <- <-]. rewrite length_drop. cbn [length]. lia. }
    destruct (startswith (lit "Infinity") (c :: s')) eqn:E6.
    { intros [= <- <-]. rewrite length_drop. cbn [length]. lia. }
    destruct (startswith (lit "-Infinity") (c :: s')) eqn:E7; [|done].
    intros [= <- <-]. rewrite length_drop. cbn [length]. lia.
  - intros s vs r. cbn [scan_items].
    destruct (scan_once fuel s) as [v s1| |] eqn:E; [|done..].
    apply IH1 in E. pose proof (skip_ws_length s1) as Hws.
    destruct (skip_ws s1) as [|c s2]; [done|]. cbn [length] in Hws.
    destruct (c =? 93); [intros [= <- <-]; lia|].
    destruct (c =? 44); [|done].
    pose proof (skip_ws_length s2) as Hws2.
    destruct (scan_items fuel (skip_ws s2)) as [vs' rest| |] eqn:E'; [|done..].
    intros [= <- <-]. apply IH2 in E'. lia.
  - intros s kvs r. cbn [scan_members].
    destruct (head_is 34 s) eqn:Eh; [|done]. apply head_is_tail in Eh.
    destruct (scanstring (tail s)) as [[k s1]|] eqn:Ek; [|done].
    apply scanstring_shrinks in Ek. cbv zeta.
    pose proof (skip_ws_length s1) as Hws1.
    destruct (head_is 58 (skip_ws s1)) eqn:Ec; [|done]. apply head_is_tail in Ec.
    pose proof (skip_ws_length (tail (skip_ws s1))) as Hws2.
    destruct (scan_once fuel (skip_ws (tail (skip_ws s1)))) as [v s3| |] eqn:E; [|done..].
    apply IH1 in E. pose proof (skip_ws_length s3) as Hws3.
    destruct (skip_ws s3) as [|c s4]; [done|]. cbn [length] in Hws3.
    destruct (c =? 125); [intros [= <- <-]; lia|].
    destruct (c =? 44); [|done].
    pose proof (skip_ws_length s4) as Hws4.
    destruct (scan_members fuel (skip_ws s4)) as [kvs' rest| |] eqn:E'; [|done..].
    intros [= <- <-]. apply IH3 in E'. lia.
Qed.

(** With a budget above twice the length of the text, no scanner runs
    out of it. *)
Lemma scan_never_exhausted fuel :
  (forall s, (2 * length s < fuel)%nat -> scan_once fuel s <> Exhausted) /\
  (forall s, (2 * length s + 1 < fuel)%nat -> scan_items fuel s <> Exhausted) /\
  (forall s, (2 * length s + 1 < fuel)%nat -> scan_members fuel s <> Exhausted).
Proof.
  induction fuel as [|fuel (IH1 & IH2 & IH3)]; [split_and!; intros; lia|].
  destruct (scan_progress fuel) as (P1 & P2 & P3).
  split_and!.
  - intros [|c s'] Hlen; [done|]. cbn [scan_once]. cbn [length] in Hlen.
    pose proof (skip_ws_length s') as Hws.
    repeat case_match; try done.
    + exfalso. eapply IH3; [|eassumption]. lia.
    + exfalso. eapply IH2; [|eassumption]. lia.
  - intros s Hlen. cbn [scan_items].
    destruct (scan_once fuel s) as [v s1| |] eqn:E; [|done|].
    + apply P1 in E. pose proof (skip_ws_length s1) as Hws.
      destruct (skip_ws s1) as [|c s2]; [done|]. cbn [length] in Hws.
      destruct (c =? 93); [done|]. destruct (c =? 44); [|done].
      pose proof (skip_ws_length s2) as Hws2.
      destruct (scan_items fuel (skip_ws s2)) eqn:E'; try done.
      exfalso. eapply IH2; [|exact E']. lia.
    + exfalso. eapply IH1; [|exact E]. lia.
  - intros s Hlen. cbn [scan_members].
    destruct (head_is 34 s) eqn:Eh; [|done]. apply head_is_tail in Eh.
    destruct (scanstring (tail s)) as [[k s1]|] eqn:Ek; [|done].
    apply scanstring_shrinks in Ek. cbv zeta.
    pose proof (skip_ws_length s1) as Hws1.
    destruct (head_is 58 (skip_ws s1)) eqn:Ec; [|done]. apply head_is_tail in Ec.
    pose proof (skip_ws_length (tail (skip_ws s1))) as Hws2.
    destruct (scan_once fuel (skip_ws (tail (skip_ws s1)))) as [v s3| |] eqn:E; [|done|].
    + apply P1 in E. pose proof (skip_ws_length s3) as Hws3.
      destruct (skip_ws s3) as [|c s4]; [done|]. cbn [length] in Hws3.
      destruct (c =? 125); [done|]. destruct (c =? 44); [|done].
      pose proof (skip_ws_length s4) as Hws4.
      destruct (scan_members fuel (skip_ws s4)) eqn:E'; try done.
      exfalso. eapply IH3; [|exact E']. lia.
    + exfalso. eapply IH1; [|exact E]. lia.
Qed.

(** The budget of [json_loads] is never exhausted: a [None] is a
    [JSONDecodeError]. *)
Theorem decode_never_exhausted s :
  decode (2 * length s + 1) s <> Exhausted.
Proof.
  unfold decode.
  destruct (scan_once (2 * length s + 1) (skip_ws s)) as [v rest| |] eqn:E.
  - by destruct (skip_ws rest).
  - done.
  - exfalso. eapply (proj1 (scan_never_exhausted _)); [|exact E].
    pose proof (skip_ws_length s). lia.
Qed.




End DecoderFacts.

(* ===================================================================== *)
(** ** Facts about the encoder *)
(* ===================================================================== *)

Section EncoderFacts.
Context {F : PyFloat} {L : PyFloatLaws F}.

(** Induction on values, through the lists and dictionaries they hold. *)
Lemma pyval_nested_ind (P : pyval -> Prop) :
  P PNone ->
  (forall b, P (PBool b)) ->
  (forall z, P (PInt z)) ->
  (forall f, P (PFloat f)) ->
  (forall s, P (PStr s)) ->
  (forall l, Forall P l -> P (PList l)) ->
  (forall d, Forall (fun kv => P (snd kv)) d -> P (PDict d)) ->
  forall v, P v.
Proof.
  intros HN HB HI HF HS HL HD. fix IH 1. intros [| b | z | f | s | l | d].
  - exact HN.
  - apply HB.
  - apply HI.
  - apply HF.
  - apply HS.
  - apply HL. revert l. fix IHl 1. intros [|x l].
    + constructor.
    + constructor; [apply IH | apply IHl].
  - apply HD. revert d. fix IHd 1. intros [|[k x] d].
    + constructor.
    + constructor; [apply IH | apply IHd].
Qed.

Lemma uint_chars_digits d : Forall (fun c => isdigit c = true) (uint_chars d).
Proof. induction d; cbn [uint_chars]; by constructor. Qed.

Lemma nzhead_not_D0 u u' : Decimal.nzhead u <> Decimal.D0 u'.
Proof. induction u; cbn; done. Qed.

Lemma to_uint_normal p : Decimal.unorm (Pos.to_uint p) = Pos.to_uint p.
Proof.
  rewrite <- (DecimalPos.Unsigned.to_of (Pos.to_uint p)).
  by rewrite DecimalPos.Unsigned.of_to.
Qed.

(** The decimal text of a positive number starts with a digit that is
    not zero. *)
Lemma uint_chars_pos p :
  exists c cs, uint_chars (Pos.to_uint p) = c :: cs /\
               49 <= c <= 57 /\ Forall (fun c => isdigit c = true) cs.
Proof.
  pose proof (to_uint_normal p) as Hn.
  pose proof (DecimalPos.Unsigned.to_uint_nonzero p) as Hz.
  pose proof (uint_chars_digits (Pos.to_uint p)) as Hd.
  unfold Decimal.unorm in Hn.
  destruct (Decimal.nzhead (Pos.to_uint p)) eqn:E;
    try (rewrite <- Hn in Hd |- *; cbn [uint_chars] in *;
         eexists _, _; split; [reflexivity|]; split; [lia|];
         by inversion Hd).
  - by rewrite <- Hn in Hz.
  - by apply nzhead_not_D0 in E.
Qed.

Lemma span_digits_all cs :
  Forall (fun c => isdigit c = true) cs -> span_digits cs = (cs, []).
Proof.
  induction 1 as [|c cs Hc _ IH]; cbn [span_digits]; [done|].
  by rewrite Hc, IH.
Qed.

Lemma nonzero_digit c :
  49 <= c <= 57 ->
  isdigit c = true /\ (c =? 48) = false /\ (c =? 45) = false.
Proof.
  intros H. unfold isdigit. split_and!.
  - apply andb_true_iff. split; apply N.leb_le; lia.
  - apply N.eqb_neq. lia.
  - apply N.eqb_neq. lia.
Qed.

(** [NUMBER_RE] matches the whole text of an [int], as an integer. *)
Lemma scan_number_int_repr z :
  scan_number (int_repr z) = Some (int_repr z, false, []).
Proof.
  destruct z as [|p|p]; [reflexivity| |]; cbn [int_repr];
    destruct (uint_chars_pos p) as (c & cs & -> & Hc & Hcs);
    destruct (nonzero_digit c Hc) as (Hd & H0 & Hm);
    unfold scan_number; cbn [head_is tail scan_int_digits].
  - rewrite Hm. cbn [scan_int_digits].
    rewrite H0, Hd, (span_digits_all cs Hcs). cbn.
    by rewrite app_nil_r.
  - change (45 =? 45) with true. cbn [tail scan_int_digits].
    rewrite H0, Hd, (span_digits_all cs Hcs). cbn.
    by rewrite app_nil_r.
Qed.

Lemma scan_number_head s t b r :
  scan_number s = Some (t, b, r) ->
  exists c s', s = c :: s' /\ (c = 45 \/ isdigit c = true).
Proof.
  unfold scan_number. destruct s as [|c s]; [done|]. cbn [head_is tail].
  destruct (N.eqb_spec c 45) as [->|_]; [eauto|].
  cbn [scan_int_digits]. destruct (N.eqb_spec c 48) as [->|_]; [eauto|].
  destruct (isdigit c) eqn:E; [eauto|done].
Qed.

Lemma value_head_facts c :
  value_head c = true ->
  is_json_ws c = false /\ (c =? 93) = false /\ (c =? 125) = false /\
  (c =? 65279) = false /\ printable c = true.
Proof.
  unfold value_head, isdigit, is_json_ws, printable.
  rewrite !orb_true_iff, andb_true_iff, !N.eqb_eq, !N.leb_le.
  intros H. rewrite !orb_false_iff, andb_true_iff, !N.eqb_neq, !N.leb_le. lia.
Qed.

Lemma numchar_printable c : numchar c = true -> printable c = true.
Proof.
  unfold numchar, isdigit, printable.
  rewrite !orb_true_iff, !andb_true_iff, !N.eqb_eq, !N.leb_le. lia.
Qed.

Lemma floatstr_finite_cases f :
  floatstr f = lit "NaN" \/ floatstr f = lit "Infinity" \/
  floatstr f = lit "-Infinity" \/
  (floatstr f = float_repr f /\ is_float_literal (float_repr f) = true).
Proof.
  unfold floatstr. destruct (float_classify f) eqn:E; auto.
  right. right. right. split; [done|]. by apply float_repr_literal.
Qed.

Lemma is_float_literal_scan t :
  is_float_literal t = true -> scan_number t = Some (t, true, []).
Proof.
  unfold is_float_literal.
  destruct (scan_number t) as [[[t' b] r]|] eqn:E; [|done].
  destruct b; [|done]. destruct r; [|done]. intros _.
  destruct (scan_number_spec _ _ _ _ E) as (-> & _). by rewrite app_nil_r.
Qed.

(** The first character of the text of a value. *)
Lemma json_dumps_head v :
  exists c t, json_dumps v = c :: t /\ value_head c = true.
Proof.
  destruct v as [| [|] | z | f | s | l | d]; try (by eexists _, _).
  - destruct z as [|p|p]; [by eexists _, _| |by eexists _, _].
    cbn [json_dumps json_encode int_repr].
    destruct (uint_chars_pos p) as (c & cs & -> & Hc & _).
    exists c, cs. split; [done|].
    destruct (nonzero_digit c Hc) as (Hd & _). unfold value_head.
    by rewrite Hd, ?orb_true_r.
  - cbn [json_dumps json_encode].
    destruct (floatstr_finite_cases f) as [-> | [-> | [-> | [-> Hl]]]];
      try (by eexists _, _).
    apply is_float_literal_scan in Hl.
    destruct (scan_number_head _ _ _ _ Hl) as (c & t & Heq & Hc).
    rewrite Heq. exists c, t. split; [done|].
    destruct Hc as [-> | Hd]; [done|].
    unfold value_head. by rewrite Hd, ?orb_true_r.
Qed.

Lemma land_15 x : N.land x 15 < 16.
Proof.
  change 15 with (N.ones 4). rewrite N.land_ones.
  by apply N.mod_lt.
Qed.

Lemma hexdigit_facts d :
  d < 16 ->
  is_Some (hexval (hexdigit d)) /\ printable (hexdigit d) = true.
Proof.
  intros Hd. unfold hexdigit, hexval, isdigit, printable.
  destruct (N.ltb_spec d 10).
  - replace ((48 <=? 48 + d) && (48 + d <=? 57)) with true
      by (symmetry; apply andb_true_iff; split; apply N.leb_le; lia).
    split; [done|]. apply andb_true_iff; split; apply N.leb_le; lia.
  - replace ((48 <=? 87 + d) && (87 + d <=? 57)) with false
      by (symmetry; apply andb_false_iff; right; apply N.leb_gt; lia).
    replace ((97 <=? 87 + d) && (87 + d <=? 102)) with true
      by (symmetry; apply andb_true_iff; split; apply N.leb_le; lia).
    split; [done|]. apply andb_true_iff; split; apply N.leb_le; lia.
Qed.

(** The four digits written for a [\uXXXX] escape are read back as a
    number, and are printable. *)
Lemma hex4_facts n :
  exists a b c d,
    hex4 n = [a; b; c; d] /\ is_Some (hex4_value a b c d) /\
    Forall (fun c => printable c = true) [a; b; c; d].
Proof.
  unfold hex4. eexists _, _, _, _. split; [reflexivity|].
  destruct (hexdigit_facts _ (land_15 (N.shiftr n 12))) as [[x1 H1] P1].
  destruct (hexdigit_facts _ (land_15 (N.shiftr n 8))) as [[x2 H2] P2].
  destruct (hexdigit_facts _ (land_15 (N.shiftr n 4))) as [[x3 H3] P3].
  destruct (hexdigit_facts _ (land_15 n)) as [[x4 H4] P4].
  split.
  - unfold hex4_value. by rewrite H1, H2, H3, H4.
  - by repeat constructor.
Qed.

(** The text written for one character, as tokens. *)
Lemma escape_char_tokens c :
  exists toks,
    escape_char c = flat_map render toks /\ Forall token_ok toks /\
    Forall (fun c => printable c = true) (escape_char c).
Proof.
  unfold escape_char.
  destruct (c =? 34) eqn:E1;
    [exists [TEsc 34]; split_and!; [done| |by repeat constructor];
     repeat constructor; by eexists|].
  destruct (c =? 92) eqn:E2;
    [exists [TEsc 92]; split_and!; [done| |by repeat constructor];
     repeat constructor; by eexists|].
  destruct (c =? 10);
    [exists [TEsc 110]; split_and!; [done| |by repeat constructor];
     repeat constructor; by eexists|].
  destruct (c =? 13);
    [exists [TEsc 114]; split_and!; [done| |by repeat constructor];
     repeat constructor; by eexists|].
  destruct (c =? 9);
    [exists [TEsc 116]; split_and!; [done| |by repeat constructor];
     repeat constructor; by eexists|].
  destruct (c =? 8);
    [exists [TEsc 98]; split_and!; [done| |by repeat constructor];
     repeat constructor; by eexists|].
  destruct (c =? 12);
    [exists [TEsc 102]; split_and!; [done| |by repeat constructor];
     repeat constructor; by eexists|].
  destruct ((32 <=? c) && (c <=? 126)) eqn:E3.
  { exists [TChar c]. split_and!; [done| |by repeat constructor].
    repeat constructor; [done..|].
    apply andb_true_iff in E3 as [H%N.leb_le _]. apply N.leb_gt. lia. }
  destruct (c <? 65536).
  { destruct (hex4_facts c) as (a & b & x & d & -> & Hh & Hp).
    exists [TUni a b x d]. split_and!; [done|by repeat constructor|].
    constructor; [done|]. by constructor. }
  cbv zeta.
  destruct (hex4_facts (N.lor 55296 (N.land (N.shiftr (c - 65536) 10) 1023)))
    as (a & b & x & d & -> & Hh & Hp).
  destruct (hex4_facts (N.lor 56320 (N.land (c - 65536) 1023)))
    as (a' & b' & x' & d' & -> & Hh' & Hp').
  exists [TUni a b x d; TUni a' b' x' d']. split_and!; [done|by repeat constructor|].
  cbn [app]. rewrite ?Forall_cons in Hp, Hp'. destruct_and!.
  repeat match goal with
         | |- Forall _ (_ :: _) => constructor; [done|]
         | |- Forall _ [] => constructor
         end.
Qed.

Lemma escape_tokens s :
  exists toks,
    flat_map escape_char s = flat_map render toks /\ Forall token_ok toks /\
    Forall (fun c => printable c = true) (flat_map escape_char s).
Proof.
  induction s as [|c s (toks & Heq & Hok & Hp)]; [by exists []|].
  destruct (escape_char_tokens c) as (toks1 & Heq1 & Hok1 & Hp1).
  exists (toks1 ++ toks). cbn [flat_map]. split_and!.
  - by rewrite flat_map_app, Heq, Heq1.
  - by apply Forall_app.
  - by apply Forall_app.
Qed.

Lemma scanstring_uni a b c d s3 u :
  hex4_value a b c d = Some u ->
  scanstring (92 :: 117 :: a :: b :: c :: d :: s3)
  = if is_high_surrogate u then after_high u s3 else scan_cons u (scanstring s3).
Proof.
  intros H.
  change (scanstring (92 :: 117 :: a :: b :: c :: d :: s3))
    with (match hex4_value a b c d with
          | None => None
          | Some u => if is_high_surrogate u then after_high u s3
                      else scan_cons u (scanstring s3)
          end).
  by rewrite H.
Qed.




Lemma after_high_uni u g1 g2 g3 g4 s4 :
  after_high u (92 :: 117 :: g1 :: g2 :: g3 :: g4 :: s4)
  = match hex4_value g1 g2 g3 g4 with
    | None => None
    | Some u2 =>
        if is_low_surrogate u2
        then scan_cons (join_surrogates u u2) (scanstring s4)
        else scan_cons u (scanstring (92 :: 117 :: g1 :: g2 :: g3 :: g4 :: s4))
    end.
Proof. reflexivity. Qed.




Lemma forallb_Forall_true (P : N -> bool) l :
  forallb P l = true -> Forall (fun c => P c = true) l.
Proof.
  induction l as [|c l IH]; cbn; [constructor|].
  intros [H1 H2]%andb_true_iff. constructor; auto.
Qed.

Lemma Forall_join (P : N -> Prop) sep parts :
  Forall P sep -> Forall (Forall P) parts -> Forall P (join sep parts).
Proof.
  intros Hsep. induction 1 as [|p ps Hp _ IH]; cbn [join]; [constructor|].
  destruct ps as [|q ps]; [done|]. rewrite !Forall_app. auto.
Qed.

Lemma encode_basestring_ascii_printable s :
  Forall (fun c => printable c = true) (encode_basestring_ascii s).
Proof.
  unfold encode_basestring_ascii. constructor; [done|].
  apply Forall_app. split; [|by repeat constructor].
  by destruct (escape_tokens s) as (toks & _ & _ & Hp).
Qed.

(** The encoder writes printable ASCII only: in particular no line
    feed. *)
Lemma json_dumps_printable v :
  Forall (fun c => printable c = true) (json_dumps v).
Proof.
  induction v as [| [|] | z | f | s | l IH | d IH] using pyval_nested_ind;
    try (by apply forallb_Forall_true).
  - cbn [json_dumps json_encode]. eapply Forall_impl; [|apply numchar_printable].
    destruct z as [|p|p]; cbn [int_repr].
    + by repeat constructor.
    + eapply Forall_impl; [apply uint_chars_digits|apply numchar_digit].
    + constructor; [done|].
      eapply Forall_impl; [apply uint_chars_digits|apply numchar_digit].
  - cbn [json_dumps json_encode].
    destruct (floatstr_finite_cases f) as [-> | [-> | [-> | [-> Hl]]]];
      try (by apply forallb_Forall_true).
    apply is_float_literal_scan, scan_number_spec in Hl as (_ & _ & Hl).
    eapply Forall_impl; [exact Hl|apply numchar_printable].
  - apply encode_basestring_ascii_printable.
  - unfold json_dumps. cbn [json_encode]. constructor; [done|].
    apply Forall_app. split; [|by repeat constructor].
    apply Forall_join; [by repeat constructor|]. by apply Forall_fmap.
  - unfold json_dumps. cbn [json_encode]. constructor; [done|].
    apply Forall_app. split; [|by repeat constructor].
    apply Forall_join; [by repeat constructor|]. apply Forall_fmap.
    eapply Forall_impl; [exact IH|]. intros [k x] Hx.
    unfold compose. cbn [fst snd] in *.
    rewrite !Forall_app. split_and!; [|by repeat constructor|done].
    apply encode_basestring_ascii_printable.
Qed.

Lemma list_sum_cons a l : list_sum (a :: l) = (a + list_sum l)%nat.
Proof. reflexivity. Qed.

Lemma skip_ws_head c t : is_json_ws c = false -> skip_ws (c :: t) = c :: t.
Proof. intros H. cbn [skip_ws]. by rewrite H. Qed.

Lemma skip_ws_dumps v rest : skip_ws (json_dumps v ++ rest) = json_dumps v ++ rest.
Proof.
  destruct (json_dumps_head v) as (c & t & -> & Hc).
  apply value_head_facts in Hc as (Hws & _). by apply skip_ws_head.
Qed.

Lemma head_is_dumps v rest : head_is 93 (json_dumps v ++ rest) = false.
Proof.
  destruct (json_dumps_head v) as (c & t & -> & Hc).
  by apply value_head_facts in Hc as (_ & H93 & _).
Qed.

Lemma join_cons sep p q ps :
  join sep (p :: q :: ps) = p ++ sep ++ join sep (q :: ps).
Proof. reflexivity. Qed.

Lemma join_head sep p ps : exists more, join sep (p :: ps) = p ++ more.
Proof.
  destruct ps as [|q ps]; [exists []; cbn; by rewrite app_nil_r|].
  eexists. apply join_cons.
Qed.

Lemma digit_not_letter c :
  c = 45 \/ isdigit c = true ->
  (c =? 34) = false /\ (c =? 123) = false /\ (c =? 91) = false /\
  (110 =? c) = false /\ (116 =? c) = false /\ (102 =? c) = false.
Proof.
  unfold isdigit. rewrite andb_true_iff, !N.leb_le, !N.eqb_neq. lia.
Qed.

(** A text that [NUMBER_RE] matches is scanned as a number. *)
Lemma scan_once_number fuel s t b r :
  scan_number s = Some (t, b, r) ->
  scan_once (S fuel) s
  = Scanned (if b then PFloat (float_of_literal t) else PInt (int_of_literal t)) r.
Proof.
  intros Hs. destruct (scan_number_head _ _ _ _ Hs) as (c & s' & -> & Hc).
  apply digit_not_letter in Hc as (H1 & H2 & H3 & H4 & H5 & H6).
  cbn [scan_once]. rewrite H1, H2, H3.
  change (lit "null") with [110; 117; 108; 108].
  change (lit "true") with [116; 114; 117; 101].
  change (lit "false") with [102; 97; 108; 115; 101].
  cbn [startswith]. rewrite H4, H5, H6. cbn [andb]. by rewrite Hs.
Qed.


Lemma member_text_eq (kv : pystr * pyval) rest :
  member_text kv ++ rest
  = 34 :: flat_map escape_char (fst kv) ++ 34 :: 58 :: 32 :: json_dumps (snd kv) ++ rest.
Proof.
  unfold member_text, encode_basestring_ascii. cbn [app].
  by rewrite <- !app_assoc.
Qed.



Lemma join_length_bound {A} (weight : A -> nat) (text : A -> pystr) sep l :
  Forall (fun x => (weight x <= length (text x))%nat) l ->
  (1 <= length sep)%nat ->
  (list_sum (map (fun x => S (weight x)) l) <= length (join sep (map text l)) + 1)%nat.
Proof.
  intros Hl Hsep. induction Hl as [|x l Hx _ IH]; [cbn; lia|].
  cbn [map]. rewrite list_sum_cons. destruct l as [|y l].
  - cbn. lia.
  - cbn [map] in *. rewrite join_cons, !length_app. lia.
Qed.

(** The budget [need v] is at most the length of the text of [v]. *)
Lemma need_le_length v : (need v <= length (json_dumps v))%nat.
Proof.
  induction v as [| b | z | f | s | l IH | d IH] using pyval_nested_ind;
    try (match goal with
         | |- (need ?v <= _)%nat =>
             destruct (json_dumps_head v) as (c & t & Heq & _);
             rewrite Heq; cbn [need length]; lia
         end).
  - unfold json_dumps. cbn [json_encode need length].
    change (map (json_encode [44; 32] [58; 32]) l) with (map json_dumps l).
    rewrite length_app.
    pose proof (join_length_bound need json_dumps [44; 32] l IH). cbn [length] in *. lia.
  - unfold json_dumps. cbn [json_encode need length].
    change (map _ d) with (map member_text d) at 2.
    rewrite length_app.
    pose proof (join_length_bound (fun kv => need (snd kv)) member_text [44; 32] d) as H.
    cbn [length] in *. apply Nat.lt_succ_r. apply Nat.lt_succ_r in H; [lia| |lia].
    eapply Forall_impl; [exact IH|]. intros kv Hkv. cbn beta in *.
    unfold member_text. rewrite !length_app. lia.
Qed.


End EncoderFacts.

(* ===================================================================== *)
(** ** The text [json.dump] writes is not the most compact one *)
(* ===================================================================== *)

Section Separators.
Context {F : PyFloat}.

Lemma join_length_le {A} sep1 sep2 (f g : A -> pystr) l :
  (length sep1 <= length sep2)%nat ->
  Forall (fun x => (length (f x) <= length (g x))%nat) l ->
  (length (join sep1 (map f l)) <= length (join sep2 (map g l)))%nat.
Proof.
  intros Hsep. induction 1 as [|x l Hx Hl IH]; [done|].
  destruct l as [|y l]; [done|].
  cbn [map] in *. rewrite !join_cons, !length_app. lia.
Qed.

Lemma join_length_lt {A} sep1 sep2 (f g : A -> pystr) l :
  (length sep1 <= length sep2)%nat -> l <> [] ->
  Forall (fun x => (length (f x) < length (g x))%nat) l ->
  (length (join sep1 (map f l)) < length (join sep2 (map g l)))%nat.
Proof.
  intros Hsep Hne Hl. induction Hl as [|x l Hx Hl IH]; [done|].
  destruct l as [|y l]; [done|].
  cbn [map] in *. rewrite !join_cons, !length_app.
  specialize (IH ltac:(done)). lia.
Qed.

(** The compact form is never longer than the default form. *)
Lemma json_dumps_compact_le v :
  (length (json_dumps_compact v) <= length (json_dumps v))%nat.
Proof.
  unfold json_dumps_compact, json_dumps.
  induction v as [| b | z | f | s | l IH | d IH] using pyval_nested_ind;
    try done; cbn [json_encode length]; rewrite !length_app; cbn [length].
  - pose proof (join_length_le [44] [44; 32] _ _ l ltac:(cbn; lia) IH). lia.
  - pose proof (join_length_le [44] [44; 32]
                  (fun kv : pystr * pyval =>
                     encode_basestring_ascii (fst kv) ++ [58]
                     ++ json_encode [44] [58] (snd kv))
                  (fun kv : pystr * pyval =>
                     encode_basestring_ascii (fst kv) ++ [58; 32]
                     ++ json_encode [44; 32] [58; 32] (snd kv))
                  d ltac:(cbn; lia)) as H.
    lapply H; [lia|].
    eapply Forall_impl; [exact IH|]. intros kv Hkv. cbn beta in *.
    rewrite !length_app. cbn [length]. lia.
Qed.

(** For a dictionary with a member, it is shorter: the default form has a
    space after each colon. *)
Lemma json_dumps_compact_lt d :
  d <> [] ->
  (length (json_dumps_compact (PDict d)) < length (json_dumps (PDict d)))%nat.
Proof.
  intros Hne. unfold json_dumps_compact, json_dumps.
  cbn [json_encode length]. rewrite !length_app. cbn [length].
  pose proof (join_length_lt [44] [44; 32]
                (fun kv : pystr * pyval =>
                   encode_basestring_ascii (fst kv) ++ [58]
                   ++ json_encode [44] [58] (snd kv))
                (fun kv : pystr * pyval =>
                   encode_basestring_ascii (fst kv) ++ [58; 32]
                   ++ json_encode [44; 32] [58; 32] (snd kv))
                d ltac:(cbn; lia) Hne) as H.
  lapply H; [lia|].
  apply Forall_forall. intros kv _.
  pose proof (json_dumps_compact_le (snd kv)) as Hkv.
  unfold json_dumps_compact, json_dumps in Hkv.
  rewrite !length_app. cbn [length]. lia.
Qed.

(** Whatever the record, the line [save_logs] writes is longer than its
    most compact form. *)
Lemma save_logs_line_not_compact self ts status events w :
  appendable w (log_file self) = true ->
  content (snd (save_logs self (collection_record ts status events) w)) (log_file self)
  = content w (log_file self)
    ++ json_dumps (collection_record ts status events) ++ [10] /\
  (length (json_dumps_compact (collection_record ts status events))
   < length (json_dumps (collection_record ts status events)))%nat.
Proof.
  intros Hok. split; [|by apply json_dumps_compact_lt].
  destruct (save_logs_appendable self (collection_record ts status events) w Hok)
    as (w' & -> & Hf & _).
  cbn [snd]. unfold content at 1. by rewrite Hf, lookup_insert_eq.
Qed.

End Separators.

(* ===================================================================== *)
(** ** Lines of the log file *)
(* ===================================================================== *)

Section Lines.
Context {F : PyFloat} {L : PyFloatLaws F}.


Lemma printable_not_lf t :
  Forall (fun c => printable c = true) t -> Forall (fun c => (c =? 10) = false) t.
Proof.
  intros H. eapply Forall_impl; [exact H|]. intros c. unfold printable.
  rewrite andb_true_iff, !N.leb_le, N.eqb_neq. lia.
Qed.

(** The text of a value holds no line feed. *)
Lemma json_dumps_one_line v : Forall (fun c => (c =? 10) = false) (json_dumps v).
Proof. apply printable_not_lf, json_dumps_printable. Qed.




End Lines.

(* ===================================================================== *)
(** ** Directory creation and the order of a run *)
(* ===================================================================== *)

Section Mkdir.
Context {F : PyFloat}.

Lemma bind_eq {A B} (m : M A) (k : A -> M B) w :
  bind m k w = match m w with
               | (Ret a, w') => k a w'
               | (Raise e, w') => (Raise e, w')
               end.
Proof. reflexivity. Qed.

Lemma extends_refl P w : extends P w w.
Proof. exists []. by rewrite app_nil_r. Qed.

Lemma extends_same_trace P w w' : w_trace w' = w_trace w -> extends P w w'.
Proof. intros H. exists []. by rewrite app_nil_r. Qed.

Lemma extends_trans P w1 w2 w3 :
  extends P w1 w2 -> extends P w2 w3 -> extends P w1 w3.
Proof.
  intros (s1 & H1 & F1) (s2 & H2 & F2). exists (s1 ++ s2).
  split; [by rewrite H2, H1, app_assoc|]. by apply Forall_app.
Qed.

Lemma extends_event (P : event -> Prop) ev w :
  P ev -> extends P w (record_event ev w).
Proof. intros H. exists [ev]. split; [done|]. by constructor. Qed.

Lemma grows_refl w : grows w w.
Proof. unfold grows. split_and!; try done. apply extends_refl. Qed.

Lemma grows_trans w1 w2 w3 : grows w1 w2 -> grows w2 w3 -> grows w1 w3.
Proof.
  intros (A1 & B1 & C1 & D1 & E1) (A2 & B2 & C2 & D2 & E2).
  unfold grows. split_and!; try congruence.
  - set_solver.
  - by eapply extends_trans.
Qed.

Lemma grows_is_dir w w' q : grows w w' -> is_dir w q = true -> is_dir w' q = true.
Proof.
  intros (_ & _ & _ & Hd & _). unfold is_dir.
  rewrite !orb_true_iff, !bool_decide_eq_true.
  intros [[H|H]|H]; [left; left; by apply Hd|auto..].
Qed.

Lemma grows_is_file w w' q : grows w w' -> is_file w' q = is_file w q.
Proof. intros (Hf & _). unfold is_file. by rewrite Hf. Qed.

Lemma grows_writable w w' q : grows w w' -> w_writable w' q = w_writable w q.
Proof. intros (_ & _ & Hw & _). by rewrite Hw. Qed.

(** [os.mkdir], case by case. *)
Lemma os_mkdir_eq p w :
  os_mkdir p w =
  let w1 := record_event (EvMkdir p) w in
  if is_dir w (parent p) then
    if is_dir w p || is_file w p then (Raise FileExistsError, w1)
    else if w_writable w (parent p)
         then (Ret tt, set_dirs w1 ({[ p ]} ∪ w_dirs w))
         else (Raise PermissionError, w1)
  else if is_file w (parent p) then (Raise NotADirectoryError, w1)
  else (Raise FileNotFoundError, w1).
Proof. reflexivity. Qed.

Lemma os_mkdir_grows p w :
  grows w (snd (os_mkdir p w)) /\
  w_trace (snd (os_mkdir p w)) = w_trace w ++ [EvMkdir p].
Proof.
  rewrite os_mkdir_eq. cbv zeta.
  assert (grows w (record_event (EvMkdir p) w)) as Hg.
  { unfold grows. split_and!; try done. by apply extends_event. }
  repeat case_match; cbn [snd]; (split; [|done]); try exact Hg.
  unfold grows. split_and!; try done; [cbn; set_solver|].
  by apply (extends_event is_mkdir (EvMkdir p)).
Qed.

Lemma mkdir_exist_ok_grows p w :
  grows w (snd (mkdir_exist_ok p w)) /\
  w_trace (snd (mkdir_exist_ok p w)) = w_trace w ++ [EvMkdir p].
Proof.
  destruct (os_mkdir_grows p w) as [Hg Ht].
  unfold mkdir_exist_ok, try_except.
  destruct (os_mkdir p w) as [[[]|e] w1]; cbn [snd] in *; [done|].
  destruct e; try done; unfold bind, path_is_dir; by case_match.
Qed.

(** [Path.mkdir] takes only [mkdir] steps, the first one for the path
    itself, and leaves files as they are. *)
Lemma mkdir_parents_grows fuel :
  forall p w,
    grows w (snd (mkdir_parents fuel p w)) /\
    exists mk, w_trace (snd (mkdir_parents fuel p w)) = w_trace w ++ EvMkdir p :: mk /\
               Forall is_mkdir mk.
Proof.
  induction fuel as [|fuel IH]; intros p w;
    destruct (os_mkdir_grows p w) as [Hg Ht];
    cbn [mkdir_parents]; unfold try_except;
    destruct (os_mkdir p w) as [[[]|e] w1]; cbn [snd] in *;
    try (split; [done|]; exists []; by split).
  - destruct e; unfold bind, path_is_dir; repeat case_match; cbn [snd];
      (split; [done|]); exists []; by split.
  - destruct e; try (unfold bind, path_is_dir; repeat case_match; cbn [snd];
                     (split; [done|]); exists []; by split).
    case_bool_decide; [split; [done|]; exists []; by split|].
    rewrite bind_eq.
    destruct (IH (parent p) w1) as (Hg1 & mk1 & Ht1 & Hm1).
    destruct (mkdir_parents fuel (parent p) w1) as [[[]|e] w2]; cbn [snd] in *.
    + destruct (mkdir_exist_ok_grows p w2) as [Hg2 Ht2].
      split; [eauto using grows_trans|].
      exists (EvMkdir (parent p) :: mk1 ++ [EvMkdir p]).
      split.
      * rewrite Ht2, Ht1, Ht, <- !app_assoc. reflexivity.
      * constructor; [done|]. apply Forall_app. split; [done|]. by repeat constructor.
    + split; [eauto using grows_trans|].
      exists (EvMkdir (parent p) :: mk1).
      split; [by rewrite Ht1, Ht, <- app_assoc|]. by constructor.
Qed.

Lemma prefixes_snoc q c : prefixes (q ++ [c]) = prefixes q ++ [q ++ [c]].
Proof.
  induction q as [|a q IH]; [done|].
  cbn [app prefixes]. by rewrite IH, map_app.
Qed.

Lemma snoc_case {A} (p : list A) : p = [] \/ exists q c, p = q ++ [c].
Proof. destruct p as [|c q _] using rev_ind; eauto. Qed.

Lemma is_root_snoc q c : is_root (q ++ [c]) = true -> q = [].
Proof. by destruct q as [|a [|b q]]. Qed.

Lemma parent_snoc q c : is_root (q ++ [c]) = false -> parent (q ++ [c]) = q.
Proof. intros H. unfold parent. rewrite H. apply removelast_last. Qed.

Lemma is_dir_nil w : is_dir w [] = true.
Proof. unfold is_dir. by rewrite (bool_decide_true ([] = [])), orb_true_r. Qed.

Lemma is_dir_root w p : is_root p = true -> is_dir w p = true.
Proof. intros H. unfold is_dir. by rewrite H, orb_true_r. Qed.

Lemma self_in_prefixes q : q <> [] -> q ∈ prefixes q.
Proof.
  destruct (snoc_case q) as [->|(q' & c & ->)]; [done|]. intros _.
  rewrite prefixes_snoc. set_solver.
Qed.

(** In a world where every directory lies in a directory, the ancestors
    of a directory are directories. *)
Lemma closed_prefixes w q :
  dirs_closed w -> is_dir w q = true ->
  Forall (fun r => is_dir w r = true) (prefixes q).
Proof.
  intros Hcl. induction q as [|c q IH] using rev_ind; [constructor|].
  intros Hd. rewrite prefixes_snoc. apply Forall_app. split; [|by repeat constructor].
  destruct (is_root (q ++ [c])) eqn:Hr.
  { apply is_root_snoc in Hr as ->. constructor. }
  apply IH. rewrite <- (parent_snoc q c Hr).
  unfold is_dir in Hd. rewrite Hr, orb_false_r in Hd.
  apply orb_true_iff in Hd as [Hd|Hd].
  - apply bool_decide_eq_true in Hd. by apply Hcl.
  - apply bool_decide_eq_true in Hd. by destruct q.
Qed.

(** Unless [os.mkdir] reports a missing parent, [parents=True] changes
    nothing. *)
Lemma mkdir_parents_no_fnf fuel p w :
  fst (os_mkdir p w) <> Raise FileNotFoundError ->
  mkdir_parents fuel p w = mkdir_exist_ok p w.
Proof.
  intros H. destruct fuel; cbn [mkdir_parents]; unfold mkdir_exist_ok, try_except;
    destruct (os_mkdir p w) as [[[]|e] w1]; try done; destruct e; done.
Qed.

Lemma mkdir_parents_fnf fuel p w :
  fst (os_mkdir p w) = Raise FileNotFoundError ->
  parent p <> p ->
  mkdir_parents (S fuel) p w
  = (mkdir_parents fuel (parent p) ;; mkdir_exist_ok p) (snd (os_mkdir p w)).
Proof.
  intros H Hp. cbn [mkdir_parents]. unfold try_except.
  destruct (os_mkdir p w) as [[[]|e] w1]; cbn [fst snd] in *; [done|].
  injection H as ->. by rewrite bool_decide_false.
Qed.

(** [p.mkdir(exist_ok=True)] in an existing parent. *)
Lemma mkdir_exist_ok_ok p w :
  is_dir w (parent p) = true ->
  is_dir w p = true \/ (is_file w p = false /\ w_writable w (parent p) = true) ->
  fst (os_mkdir p w) <> Raise FileNotFoundError /\
  fst (mkdir_exist_ok p w) = Ret tt /\
  is_dir (snd (mkdir_exist_ok p w)) p = true.
Proof.
  intros Hpar Hor. unfold mkdir_exist_ok, try_except.
  rewrite os_mkdir_eq. cbv zeta. rewrite Hpar.
  destruct (is_dir w p) eqn:Hd.
  - split; [done|]. unfold bind, path_is_dir. cbn [orb].
    change (is_dir (record_event ?e w) p) with (is_dir w p). by rewrite Hd.
  - destruct Hor as [|[Hfile Hw]]; [done|]. rewrite Hfile, Hw. cbn [orb].
    split; [done|]. split; [done|].
    cbn [snd]. unfold is_dir. cbn.
    rewrite bool_decide_true; [done|set_solver].
Qed.

(** When nothing stands in the way, [Path.mkdir] succeeds and leaves the
    path and all its ancestors as directories. *)
Lemma mkdir_parents_ok fuel :
  forall p w,
    (length p <= fuel)%nat -> dirs_closed w -> mkdir_allowed w p = true ->
    fst (mkdir_parents fuel p w) = Ret tt /\
    Forall (fun q => is_dir (snd (mkdir_parents fuel p w)) q = true) (prefixes p).
Proof.
  induction fuel as [|fuel IH]; intros p w Hlen Hcl Hal.
  { destruct p; [|cbn in Hlen; lia]. split; [|constructor].
    rewrite mkdir_parents_no_fnf.
    - apply (mkdir_exist_ok_ok [] w); [apply is_dir_nil|left; apply is_dir_nil].
    - rewrite os_mkdir_eq. cbv zeta. change (parent []) with (@nil pystr).
      by rewrite is_dir_nil. }
  destruct (snoc_case p) as [->|(q & c & ->)].
  { split; [|constructor].
    rewrite mkdir_parents_no_fnf.
    - apply (mkdir_exist_ok_ok [] w); [apply is_dir_nil|left; apply is_dir_nil].
    - rewrite os_mkdir_eq. cbv zeta. change (parent []) with (@nil pystr).
      by rewrite is_dir_nil. }
  unfold mkdir_allowed in Hal. rewrite prefixes_snoc, forallb_app in Hal.
  apply andb_true_iff in Hal as [Halq Hp]. cbn [forallb] in Hp.
  rewrite andb_true_r in Hp. apply andb_true_iff in Hp as [Hf Hor].
  apply negb_true_iff in Hf. fold (mkdir_allowed w q) in Halq.
  rewrite prefixes_snoc.
  destruct (is_root (q ++ [c])) eqn:Hr.
  { pose proof (is_dir_root w _ Hr) as Hd.
    assert (parent (q ++ [c]) = q ++ [c]) as Hpar by (unfold parent; by rewrite Hr).
    destruct (mkdir_exist_ok_ok (q ++ [c]) w) as (Hn & Hok & Hd');
      [by rewrite Hpar|by left|].
    rewrite mkdir_parents_no_fnf by done. split; [done|].
    apply is_root_snoc in Hr as ->. by repeat constructor. }
  pose proof (parent_snoc q c Hr) as Hpar. rewrite Hpar in Hor.
  destruct (is_dir w q) eqn:Hq.
  - destruct (mkdir_exist_ok_ok (q ++ [c]) w) as (Hn & Hok & Hd').
    { by rewrite Hpar. }
    { rewrite Hpar. apply orb_true_iff in Hor as [Hd|Hw]; auto. }
    rewrite mkdir_parents_no_fnf by done. split; [done|].
    apply Forall_app. split; [|by repeat constructor].
    eapply Forall_impl; [apply (closed_prefixes w q Hcl Hq)|].
    intros r. apply grows_is_dir, mkdir_exist_ok_grows.
  - assert (q <> []) as Hne by (intros ->; by rewrite is_dir_nil in Hq).
    assert (is_file w q = false) as Hfq.
    { unfold mkdir_allowed in Halq. rewrite forallb_forall in Halq.
      specialize (Halq q). rewrite <- list_elem_of_In in Halq.
      specialize (Halq (self_in_prefixes q Hne)).
      apply andb_true_iff in Halq as [H _]. by apply negb_true_iff in H. }
    assert (os_mkdir (q ++ [c]) w
            = (Raise FileNotFoundError, record_event (EvMkdir (q ++ [c])) w)) as Hos.
    { rewrite os_mkdir_eq. cbv zeta. by rewrite Hpar, Hq, Hfq. }
    rewrite mkdir_parents_fnf;
      [|by rewrite Hos|rewrite Hpar; intros E; apply (f_equal length) in E;
                       rewrite length_app in E; cbn in E; lia].
    rewrite Hos, Hpar. cbn [snd]. set (w1 := record_event _ w).
    rewrite bind_eq.
    destruct (IH q w1) as (Hret & Hdirs); [rewrite length_app in Hlen; cbn in Hlen; lia|done|done|].
    pose proof (proj1 (mkdir_parents_grows fuel q w1)) as Hg1.
    destruct (mkdir_parents fuel q w1) as [[[]|e] w2]; cbn [fst snd] in *; [|done].
    assert (is_dir w2 q = true) as Hq2.
    { rewrite Forall_forall in Hdirs. apply Hdirs, self_in_prefixes, Hne. }
    destruct (mkdir_exist_ok_ok (q ++ [c]) w2) as (Hn & Hok & Hd').
    + by rewrite Hpar.
    + rewrite Hpar, (grows_writable w1 w2), (grows_is_file w1 w2) by done.
      change (w_writable w1 q) with (w_writable w q).
      change (is_file w1 (q ++ [c])) with (is_file w (q ++ [c])).
      apply orb_true_iff in Hor as [Hd|Hw]; [|by right].
      left. by apply (grows_is_dir w1 w2 _ Hg1).
    + split; [done|]. apply Forall_app. split; [|by repeat constructor].
      eapply Forall_impl; [exact Hdirs|].
      intros r. apply grows_is_dir, mkdir_exist_ok_grows.
Qed.

Lemma quiet_refl w : quiet w w.
Proof. split; [done|apply extends_refl]. Qed.

Lemma quiet_trans w1 w2 w3 : quiet w1 w2 -> quiet w2 w3 -> quiet w1 w3.
Proof.
  intros [D1 E1] [D2 E2]. split; [congruence|by eapply extends_trans].
Qed.

Lemma ret_quiet {A} (a : A) : quiet_comp (ret a).
Proof. intros w. apply quiet_refl. Qed.

Lemma raise_quiet {A} e : quiet_comp (@raise A e).
Proof. intros w. apply quiet_refl. Qed.

Lemma bind_quiet {A B} (m : M A) (k : A -> M B) :
  quiet_comp m -> (forall a, quiet_comp (k a)) -> quiet_comp (bind m k).
Proof.
  intros Hm Hk w. rewrite bind_eq. specialize (Hm w).
  destruct (m w) as [[a|e] w1]; cbn [snd] in *; [|done].
  eapply quiet_trans; [exact Hm|apply Hk].
Qed.

Lemma try_except_quiet {A} (m : M A) handler :
  quiet_comp m ->
  (forall e k, handler e = Some k -> quiet_comp k) ->
  quiet_comp (try_except m handler).
Proof.
  intros Hm Hh w. unfold try_except. specialize (Hm w).
  destruct (m w) as [[a|e] w1]; cbn [snd] in *; [done|].
  destruct (handler e) as [k|] eqn:E; [|done].
  eapply quiet_trans; [exact Hm|by eapply Hh].
Qed.

Lemma emit_quiet ev : collect_step ev -> quiet_comp (emit ev).
Proof. intros H w. split; [done|by apply extends_event]. Qed.

Lemma print_quiet text : quiet_comp (print text).
Proof. apply emit_quiet. by intros []. Qed.

Lemma subprocess_run_quiet argv : quiet_comp (subprocess_run argv).
Proof.
  apply bind_quiet; [apply emit_quiet; by intros []|].
  intros _ w. repeat case_match; apply quiet_refl.
Qed.

Lemma exn_str_quiet e : quiet_comp (exn_str e).
Proof. intros w. unfold exn_str. case_match; apply quiet_refl. Qed.

Lemma now_isoformat_quiet : quiet_comp now_isoformat.
Proof.
  apply bind_quiet; [apply emit_quiet; by intros []|].
  intros _ w. apply quiet_refl.
Qed.

Lemma open_append_quiet p : quiet_comp (open_append p).
Proof.
  apply bind_quiet; [apply emit_quiet; by intros []|].
  intros _ w. repeat case_match; try apply quiet_refl.
  split; [done|]. by apply extends_same_trace.
Qed.

Lemma file_write_quiet f data : quiet_comp (file_write f data).
Proof.
  apply bind_quiet; [apply emit_quiet; by intros []|].
  intros _ w. split; [done|]. by apply extends_same_trace.
Qed.

Lemma get_quiet log key default : quiet_comp (get log key default).
Proof. destruct log; first [apply raise_quiet | apply ret_quiet]. Qed.

Lemma process_logs_quiet ts logs : forall r, quiet_comp (process_logs ts logs r).
Proof.
  induction logs as [|log logs IH]; intros r; cbn [process_logs];
    [apply ret_quiet|].
  repeat (apply bind_quiet; [apply get_quiet|intros ?]). apply IH.
Qed.

Lemma format_for_wazuh_quiet self status logs :
  quiet_comp (format_for_wazuh self status logs).
Proof.
  apply bind_quiet; [apply now_isoformat_quiet|].
  intros now. apply process_logs_quiet.
Qed.

Lemma get_tailscale_status_quiet self : quiet_comp (get_tailscale_status self).
Proof.
  apply try_except_quiet.
  - apply bind_quiet; [apply subprocess_run_quiet|].
    intros out. unfold loads. case_match; [apply ret_quiet|apply raise_quiet].
  - intros e k Hk. destruct e; simplify_eq.
    + apply bind_quiet; [apply exn_str_quiet|]. intros text.
      apply bind_quiet; [apply print_quiet|]. intros _. apply ret_quiet.
    + apply bind_quiet; [apply print_quiet|]. intros _. apply ret_quiet.
Qed.

Lemma get_system_logs_quiet self n : quiet_comp (get_system_logs self n).
Proof.
  apply try_except_quiet.
  - apply bind_quiet; [apply subprocess_run_quiet|]. intros out. apply ret_quiet.
  - intros e k Hk. destruct e; simplify_eq;
      (apply bind_quiet; [apply print_quiet|]; intros _; apply ret_quiet).
Qed.

Lemma save_logs_quiet self logs : quiet_comp (save_logs self logs).
Proof.
  apply try_except_quiet.
  - apply bind_quiet; [apply open_append_quiet|]. intros f.
    apply bind_quiet; [apply file_write_quiet|]. intros _.
    apply bind_quiet; [apply file_write_quiet|]. intros _.
    apply bind_quiet; [apply print_quiet|]. intros _. apply ret_quiet.
  - intros e k Hk. destruct e; simplify_eq.
    apply bind_quiet; [apply print_quiet|]. intros _. apply ret_quiet.
Qed.

(** [collect] makes no directory and takes no [mkdir] step. *)
Lemma collect_quiet self : quiet_comp (collect self).
Proof.
  apply bind_quiet; [apply print_quiet|]. intros _.
  apply bind_quiet; [apply get_tailscale_status_quiet|]. intros status.
  case_match; [|apply print_quiet].
  apply bind_quiet; [apply get_system_logs_quiet|]. intros logs.
  apply bind_quiet; [apply format_for_wazuh_quiet|]. intros record.
  apply bind_quiet; [apply save_logs_quiet|]. intros _. apply ret_quiet.
Qed.

Lemma status_unavailable_exec self self' w w' :
  w_exec w' = w_exec w ->
  status_unavailable self w -> status_unavailable self' w'.
Proof.
  unfold status_unavailable. rewrite !get_tailscale_status_eq. cbv zeta.
  intros ->. destruct (w_exec w status_argv) as [|rc out]; [done|].
  destruct (rc =? 0)%Z; [|done]. by destruct (json_loads out).
Qed.

(** C10. [main] makes the output directory when the collector is built,
    before any step of [collect]: the run starts with the [mkdir] of the
    directory, all [mkdir] steps come first, and, when nothing stands in
    the way of the creation, the directory and its ancestors exist at the
    end of every run, also of a run where status retrieval fails and no
    file is written. *)
Theorem main_creates_output_dir_first argv w :
  let d := Path (chosen_dir argv) in
  let w' := snd (main argv w) in
  (exists mk steps,
     w_trace w' = w_trace w ++ EvMkdir d :: mk ++ steps /\
     Forall is_mkdir mk /\ Forall collect_step steps) /\
  (dirs_closed w -> mkdir_allowed w d = true ->
   is_dir w' d = true /\
   Forall (fun q => is_dir w' q = true) (prefixes d) /\
   (forall self, status_unavailable self w -> w_files w' = w_files w)).
Proof.
  intros d w'. subst w'. unfold main. fold (chosen_dir argv). fold d.
  rewrite bind_eq. unfold init. fold d. rewrite bind_eq. unfold path_mkdir.
  pose proof (mkdir_parents_grows (length d) d w) as (Hg & mk & Ht & Hmk).
  pose proof (mkdir_parents_ok (length d) d w (le_n _)) as Hok.
  destruct (mkdir_parents (length d) d w) as [[[]|e] w0]; cbn [fst snd] in *.
  - unfold ret.
    set (c := {| output_dir := d; log_file := joinpath d (lit "tailscale.log") |}).
    destruct (collect_quiet c w0) as [Hd (steps & Hts & Hsteps)].
    split.
    + exists mk, steps. split; [|done].
      rewrite Hts, Ht, <- app_assoc. reflexivity.
    + intros Hcl Hal. destruct (Hok Hcl Hal) as [_ Hdirs].
      assert (forall q, is_dir (snd (collect c w0)) q = is_dir w0 q) as Hsame
        by (intros q; unfold is_dir; by rewrite Hd).
      split_and!.
      * rewrite Hsame. destruct (decide (d = [])) as [->|Hne]; [apply is_dir_nil|].
        rewrite Forall_forall in Hdirs. by apply Hdirs, self_in_prefixes.
      * eapply Forall_impl; [exact Hdirs|]. intros q Hq. by rewrite Hsame.
      * intros self Hun.
        apply (status_unavailable_exec self c w w0) in Hun; [|apply Hg].
        rewrite (collect_files_without_status c w0 Hun). apply Hg.
  - split.
    + exists mk, []. by rewrite app_nil_r.
    + intros Hcl Hal. by destruct (Hok Hcl Hal).
Qed.

End Mkdir.

(* ===================================================================== *)
(** ** Further properties: the Log Source and the Normalizer *)
(* ===================================================================== *)

Section SourcesMore.
Context {F : PyFloat}.

Lemma lstrip_spaces s : Forall (fun c => isspace c = true) s -> lstrip s = [].
Proof. induction 1 as [|c s Hc _ IH]; cbn [lstrip]; [done|]. by rewrite Hc. Qed.

Lemma strip_spaces s : Forall (fun c => isspace c = true) s -> strip s = [].
Proof. intros H. unfold strip, rstrip. by rewrite (lstrip_spaces s H). Qed.



(** X2. When the log query succeeds and prints nothing, or only white
    space, [get_system_logs] returns the empty list and prints no
    diagnostic: the one empty line that is left is passed over. *)
Theorem get_system_logs_blank_output self n w stdout :
  w_exec w (journal_argv n) = Exited 0 stdout ->
  Forall (fun c => isspace c = true) stdout ->
  get_system_logs self n w = (Ret [], record_event (EvRun (journal_argv n)) w).
Proof.
  intros Hexec Hsp. rewrite get_system_logs_eq. cbv zeta. rewrite Hexec.
  change (0 =? 0)%Z with true. cbv iota.
  rewrite (strip_spaces stdout Hsp). reflexivity.
Qed.

(** X3. In the entry made of a log document, each of the five fields
    whose journal key is present holds the value found there, unchanged
    and of any JSON type ([null] too: the default is only for a missing
    key); the entry has the five fields, in their fixed order, and no
    other key of the document. *)
Theorem format_for_wazuh_copies_present_fields self status (logs : list pyval) w i d :
  Forall is_dict logs ->
  logs !! i = Some (PDict d) ->
  exists record events entry,
    fst (format_for_wazuh self status logs w) = Ret record /\
    item record (lit "events") = Some (PList events) /\
    events !! i = Some (PDict entry) /\
    map fst entry = map fst recognized_keys /\
    Forall (fun '(field, key) =>
              forall v, dict_lookup key d = Some v -> dict_lookup field entry = Some v)
           recognized_keys.
Proof.
  intros Hlogs Hi. rewrite format_for_wazuh_record by done.
  eexists _, _, _. split; [reflexivity|]. split; [reflexivity|].
  split.
  - rewrite list_lookup_fmap, Hi. reflexivity.
  - split; [reflexivity|].
    unfold recognized_keys, get_default.
    repeat constructor; intros v Hv; rewrite Hv; reflexivity.
Qed.

Lemma events_append_dict r e : is_dict r -> is_dict (events_append r e).
Proof.
  destruct r as [| | | | | |d]; try done. intros _. cbn [events_append].
  by repeat case_match.
Qed.

Lemma process_logs_cons_dict ts d (logs : list pyval) r w :
  process_logs ts (PDict d :: logs) r w
  = process_logs ts logs (events_append r (log_entry ts (PDict d))) w.
Proof. reflexivity. Qed.

(** The loop of [format_for_wazuh] changes nothing of the world, and can
    only fail on a log document without [get]. *)
Lemma process_logs_pure ts (logs : list pyval) :
  forall r w,
    snd (process_logs ts logs r w) = w /\
    match fst (process_logs ts logs r w) with
    | Ret r' => is_dict r -> is_dict r'
    | Raise e => e = AttributeError
    end.
Proof.
  induction logs as [|log logs IH]; intros r w; [split; [done|]; cbn; auto|].
  destruct log as [| | | | | |d]; try (split; reflexivity).
  rewrite process_logs_cons_dict.
  destruct (IH (events_append r (log_entry ts (PDict d))) w) as [Hw Hr].
  split; [exact Hw|].
  destruct (fst (process_logs ts logs _ w)); [|exact Hr].
  intros Hd. apply Hr. by apply events_append_dict.
Qed.

(** [format_for_wazuh] on any logs: it reads the clock and does nothing
    else to the world; it returns a dictionary or raises
    [AttributeError]. *)
Lemma format_for_wazuh_cases self status (logs : list pyval) w :
  snd (format_for_wazuh self status logs w) = record_event EvClock w /\
  ((exists record, fst (format_for_wazuh self status logs w) = Ret record /\
                   is_dict record) \/
   fst (format_for_wazuh self status logs w) = Raise AttributeError).
Proof.
  unfold format_for_wazuh, now_isoformat, bind, emit.
  match goal with
  | |- context [process_logs ?ts logs ?r ?w1] =>
      destruct (process_logs_pure ts logs r w1) as [Hw Hr];
      destruct (process_logs ts logs r w1) as [[r'|e] w2]
  end; cbn [fst snd] in *; subst; (split; [done|]).
  - left. exists r'. split; [done|]. by apply Hr.
  - by right.
Qed.

(** Replacing the UTC offset at the end of a text with no plus sign
    before it. *)
Lemma replace_utc_suffix t :
  Forall (fun c => c <> 43) t ->
  replace (lit "+00:00") (lit "Z") (t ++ lit "+00:00") = t ++ lit "Z".
Proof.
  unfold replace. induction 1 as [|c t Hc _ IH].
  - reflexivity.
  - cbn [app replace_from].
    change (lit "+00:00") with [43; 48; 48; 58; 48; 48] at 1.
    cbn [startswith]. apply N.eqb_neq in Hc. rewrite N.eqb_sym, Hc.
    cbn [andb]. by rewrite IH.
Qed.

(** X4. When the clock gives a time in UTC, a text that ends with the
    offset [+00:00] and has no other plus sign, the timestamp of the
    record is that text with [Z] in place of the offset. *)
Theorem format_for_wazuh_utc_suffix self status (logs : list pyval) w t :
  w_now w = t ++ lit "+00:00" ->
  Forall (fun c => c <> 43) t ->
  Forall is_dict logs ->
  exists record,
    fst (format_for_wazuh self status logs w) = Ret record /\
    item record (lit "timestamp") = Some (PStr (t ++ lit "Z")).
Proof.
  intros Hnow Ht Hlogs. rewrite format_for_wazuh_record by done.
  eexists. split; [reflexivity|].
  unfold collection_timestamp. rewrite Hnow, (replace_utc_suffix t Ht).
  reflexivity.
Qed.

End SourcesMore.

(* ===================================================================== *)
(** ** Further properties: a run of [collect] *)
(* ===================================================================== *)

Section RunMore.
Context {F : PyFloat}.

Lemma same_disk_trans w1 w2 w3 : same_disk w1 w2 -> same_disk w2 w3 -> same_disk w1 w3.
Proof. intros (A1 & B1 & C1) (A2 & B2 & C2). split_and!; congruence. Qed.

Lemma same_disk_appendable w w' p : same_disk w w' -> appendable w' p = appendable w p.
Proof.
  intros (Hf & Hd & Hw). unfold appendable, is_dir, is_file. by rewrite Hf, Hd, Hw.
Qed.

Lemma same_disk_content w w' p : same_disk w w' -> content w' p = content w p.
Proof. intros (Hf & _). unfold content. by rewrite Hf. Qed.


Lemma get_tailscale_status_same_disk self w :
  same_disk w (snd (get_tailscale_status self w)).
Proof.
  rewrite get_tailscale_status_eq. cbv zeta.
  destruct (w_exec w status_argv) as [|rc out]; [by split_and!|].
  destruct (rc =? 0)%Z; [|by split_and!]. by destruct (json_loads out).
Qed.

(** [get_system_logs] returns a list whatever the log query does, and
    leaves the file system as it is. *)
Lemma get_system_logs_returns self n w :
  exists logs, fst (get_system_logs self n w) = Ret logs /\
               same_disk w (snd (get_system_logs self n w)).
Proof.
  rewrite get_system_logs_eq. cbv zeta.
  destruct (w_exec w (journal_argv n)) as [|rc out]; [by eexists|].
  destruct (rc =? 0)%Z; by eexists.
Qed.

Lemma format_for_wazuh_same_disk self status (logs : list pyval) w :
  same_disk w (snd (format_for_wazuh self status logs w)).
Proof. destruct (format_for_wazuh_cases self status logs w) as [-> _]. by split_and!. Qed.

(** [open(p, 'a')], case by case. *)
Lemma open_append_eq p w :
  open_append p w =
  let w1 := record_event (EvOpenAppend p) w in
  if is_dir w p then (Raise IsADirectoryError, w1)
  else if is_file w p then
    if w_writable w p then (Ret p, w1) else (Raise PermissionError, w1)
  else if is_dir w (parent p) then
    if w_writable w (parent p) then (Ret p, create_file p w1)
    else (Raise PermissionError, w1)
  else if is_file w (parent p) then (Raise NotADirectoryError, w1)
  else (Raise FileNotFoundError, w1).
Proof. reflexivity. Qed.

(** [save_logs] when the open fails: nothing is written; a refusal is
    reported and [None] returned, any other failure is raised. *)
Lemma save_logs_not_appendable self logs w :
  appendable w (log_file self) = false ->
  exists e,
    fst (open_append (log_file self) w) = Raise e /\
    save_logs self logs w =
    match e with
    | PermissionError =>
        (Ret None,
         record_event (EvPrint (lit "Error: Permission denied writing to "
                                ++ path_str (log_file self) ++ lit ". Try sudo?"))
           (record_event (EvOpenAppend (log_file self)) w))
    | _ => (Raise e, record_event (EvOpenAppend (log_file self)) w)
    end /\
    (e = PermissionError \/
     (e = IsADirectoryError /\ is_dir w (log_file self) = true) \/
     (is_dir w (parent (log_file self)) = false /\
      (e = NotADirectoryError \/ e = FileNotFoundError))).
Proof.
  set (f := log_file self). unfold appendable. intros Hno.
  unfold save_logs, try_except. fold f. rewrite bind_eq, open_append_eq. cbv zeta.
  destruct (is_dir w f) eqn:Hd; [eexists; split_and!; [reflexivity..|auto]|].
  cbn [negb andb] in Hno.
  destruct (is_file w f).
  { rewrite Hno. eexists; split_and!; [reflexivity..|auto]. }
  destruct (is_dir w (parent f)) eqn:Hp.
  { cbn [andb] in Hno. rewrite Hno. eexists; split_and!; [reflexivity..|auto]. }
  destruct (is_file w (parent f));
    (eexists; split_and!; [reflexivity..|auto]).
Qed.

(** What [save_logs] does to the files: the line is appended when the
    file can be opened, and nothing changes otherwise. *)
Lemma save_logs_files self logs w :
  w_files (snd (save_logs self logs w)) =
  (if appendable w (log_file self)
   then <[ log_file self := content w (log_file self) ++ json_dumps logs ++ [10] ]> (w_files w)
   else w_files w) /\
  w_dirs (snd (save_logs self logs w)) = w_dirs w.
Proof.
  destruct (appendable w (log_file self)) eqn:Hok.
  - by destruct (save_logs_appendable self logs w Hok) as (w' & -> & Hf & Hd & _).
  - destruct (save_logs_not_appendable self logs w Hok) as (e & _ & -> & _).
    by destruct e.
Qed.

(** The files after [collect]: as before, or with one line more in the
    log file, the text of a dictionary. *)
Lemma collect_files self w :
  (w_files (snd (collect self w)) = w_files w \/
   exists record,
     is_dict record /\
     w_files (snd (collect self w)) =
       <[ log_file self := content w (log_file self) ++ json_dumps record ++ [10] ]>
         (w_files w)) /\
  w_dirs (snd (collect self w)) = w_dirs w.
Proof.
  rewrite collect_unfold.
  set (w0 := record_event (EvPrint (lit "Collecting Tailscale logs...")) w).
  pose proof (get_tailscale_status_same_disk self w0) as H1.
  destruct (get_tailscale_status self w0) as [[status|e] w1]; cbn [snd] in H1;
    [|split; [left|]; apply H1].
  destruct (truthy status); [|split; [left|]; apply H1].
  destruct (get_system_logs_returns self 50 w1) as (logs & Hl & H2).
  destruct (get_system_logs self 50 w1) as [[logs'|e] w2]; cbn [fst snd] in *;
    [|discriminate].
  pose proof (format_for_wazuh_same_disk self status logs' w2) as H3.
  destruct (format_for_wazuh_cases self status logs' w2) as [_ Hc].
  destruct (format_for_wazuh self status logs' w2) as [[record|e] w3];
    cbn [fst snd] in *.
  - assert (same_disk w w3) as H03.
    { eapply same_disk_trans; [|exact H3]. eapply same_disk_trans; [|exact H2].
      exact H1. }
    destruct (save_logs_files self record w3) as [Hf Hd].
    assert (is_dict record) as Hrec.
    { destruct Hc as [(r & [= <-] & Hr)|[=]]. exact Hr. }
    rewrite (same_disk_appendable w w3), (same_disk_content w w3) in Hf by done.
    destruct H03 as (F03 & D03 & _). rewrite F03 in Hf. rewrite D03 in Hd.
    destruct (save_logs self record w3) as [[r|e] w4]; cbn [snd] in *;
      (split; [|exact Hd]);
      (destruct (appendable w (log_file self)); [right; by exists record|by left]).
  - split; [left|].
    + destruct H3 as (-> & _). destruct H2 as (-> & _). apply H1.
    + destruct H3 as (_ & -> & _). destruct H2 as (_ & -> & _). apply H1.
Qed.



(** X7. When the status command is missing or ends with a non-zero
    return code, [collect] returns normally: after the announcement and
    the command it prints the diagnostic of that failure and then
    [Failed to collect status.], and changes no file or directory. *)
Theorem collect_status_command_failure self w :
  status_command_fails w ->
  exists diag,
    fst (collect self w) = Ret tt /\
    w_trace (snd (collect self w)) =
      w_trace w ++ [ EvPrint (lit "Collecting Tailscale logs...");
                     EvRun status_argv;
                     EvPrint diag;
                     EvPrint (lit "Failed to collect status.") ] /\
    diag = match w_exec w status_argv with
           | NotInstalled => lit "Tailscale CLI not found. Please install Tailscale."
           | Exited rc _ =>
               lit "Error getting Tailscale status: " ++ w_errtext w status_argv rc
           end /\
    w_files (snd (collect self w)) = w_files w /\
    w_dirs (snd (collect self w)) = w_dirs w.
Proof.
  unfold status_command_fails. intros Hfail.
  rewrite collect_unfold, get_tailscale_status_eq. cbv zeta.
  change (w_exec (record_event ?a w)) with (w_exec w).
  change (w_errtext (record_event ?a w)) with (w_errtext w).
  destruct (w_exec w status_argv) as [|rc out].
  - eexists. cbn [truthy fst snd]. split; [reflexivity|].
    split; [|done]. cbn [w_trace record_event]. by rewrite <- !app_assoc.
  - destruct (Z.eqb_spec rc 0) as [->|_]; [done|].
    eexists. cbn [truthy fst snd]. split; [reflexivity|].
    split; [|done]. cbn [w_trace record_event]. by rewrite <- !app_assoc.
Qed.



(** X9. When the open of the log file is refused (the file exists and
    may not be written, or is missing from a directory where nothing may
    be created), [save_logs] makes one attempt to open, writes nothing,
    prints the diagnostic that names the file and returns [None]
    instead of raising. *)
Theorem save_logs_permission_denied self logs w :
  write_refused w (log_file self) = true ->
  save_logs self logs w =
  (Ret None,
   record_event (EvPrint (lit "Error: Permission denied writing to "
                          ++ path_str (log_file self) ++ lit ". Try sudo?"))
     (record_event (EvOpenAppend (log_file self)) w)).
Proof.
  set (f := log_file self). unfold write_refused. intros Href.
  unfold save_logs, try_except. fold f. rewrite bind_eq, open_append_eq. cbv zeta.
  apply andb_true_iff in Href as [Hd Href]. apply negb_true_iff in Hd. rewrite Hd.
  destruct (is_file w f).
  - apply negb_true_iff in Href. by rewrite Href.
  - apply andb_true_iff in Href as [-> Hw]. apply negb_true_iff in Hw. by rewrite Hw.
Qed.

(** X10. A run of [main], whatever the arguments, the tools and the
    file system: directories are only added, and the files are left as
    they were or the log file ([tailscale.log] in the chosen directory)
    gets exactly one line more after its present content, the text of a
    JSON object. No other file changes, nothing is truncated or
    removed. *)
Theorem main_only_appends argv w :
  let f := joinpath (Path (chosen_dir argv)) (lit "tailscale.log") in
  let w' := snd (main argv w) in
  (w_files w' = w_files w \/
   exists record,
     is_dict record /\
     w_files w' = <[ f := content w f ++ json_dumps record ++ [10] ]> (w_files w)) /\
  w_dirs w ⊆ w_dirs w'.
Proof.
  intros f w'. subst w'. unfold main. fold (chosen_dir argv).
  rewrite bind_eq. unfold init. rewrite bind_eq. unfold path_mkdir.
  set (d := Path (chosen_dir argv)) in *.
  pose proof (proj1 (mkdir_parents_grows (length d) d w)) as (Hf & _ & _ & Hd & _).
  destruct (mkdir_parents (length d) d w) as [[[]|e] w0]; cbn [snd] in *.
  - unfold ret.
    set (c := {| output_dir := d; log_file := joinpath d (lit "tailscale.log") |}).
    destruct (collect_files c w0) as [Hc Hdc].
    split; [|by rewrite Hdc].
    destruct Hc as [->|(record & Hr & ->)]; [by left|right].
    exists record. split; [done|].
    change (log_file c) with f. unfold content. by rewrite Hf.
  - split; [by left|done].
Qed.

End RunMore.

(* ===================================================================== *)
(** ** Further properties: the output directory *)
(* ===================================================================== *)

Section MkdirMore.
Context {F : PyFloat}.

(** When [p.mkdir(exist_ok=True)] returns, [p] is a directory. *)
Lemma mkdir_exist_ok_returns p w :
  fst (mkdir_exist_ok p w) = Ret tt ->
  is_dir (snd (mkdir_exist_ok p w)) p = true.
Proof.
  unfold mkdir_exist_ok, try_except. rewrite os_mkdir_eq. cbv zeta.
  unfold bind, path_is_dir.
  assert (is_dir (record_event (EvMkdir p) w) p = is_dir w p) as Hev by reflexivity.
  destruct (is_dir w (parent p)).
  - destruct (is_dir w p) eqn:Hd; [cbn [orb]; by rewrite Hev|].
    destruct (is_file w p); [cbn [orb]; by rewrite Hev|]. cbn [orb].
    destruct (w_writable w (parent p)); [|by rewrite Hev].
    intros _. cbn [snd]. unfold is_dir. cbn.
    rewrite bool_decide_true; [done|set_solver].
  - destruct (is_file w (parent p)); [|done].
    rewrite Hev. by destruct (is_dir w p) eqn:Hd.
Qed.

(** When it returns, the parent of [p] is there, as a directory or, if
    [p] was a directory in a broken tree, as a file. *)
Lemma mkdir_exist_ok_returns_parent p w :
  fst (mkdir_exist_ok p w) = Ret tt ->
  is_dir (snd (mkdir_exist_ok p w)) (parent p) = true \/
  is_file (snd (mkdir_exist_ok p w)) (parent p) = true.
Proof.
  intros Hret.
  pose proof (proj1 (mkdir_exist_ok_grows p w)) as Hg.
  assert (is_dir w (parent p) = true \/ is_file w (parent p) = true) as [H|H].
  { revert Hret. unfold mkdir_exist_ok, try_except. rewrite os_mkdir_eq. cbv zeta.
    destruct (is_dir w (parent p)); [auto|].
    destruct (is_file w (parent p)); [auto|done]. }
  - left. by apply (grows_is_dir w _ _ Hg).
  - right. by rewrite (grows_is_file w _ _ Hg).
Qed.

Lemma os_mkdir_fnf_cases p w :
  fst (os_mkdir p w) = Raise FileNotFoundError \/
  fst (os_mkdir p w) <> Raise FileNotFoundError.
Proof. destruct (os_mkdir p w) as [[[]|[]] w1]; cbn; first [by left | by right]. Qed.

(** When [p.mkdir(parents=True, exist_ok=True)] returns, [p] is a
    directory. *)
Lemma mkdir_parents_returns fuel p w :
  fst (mkdir_parents fuel p w) = Ret tt ->
  is_dir (snd (mkdir_parents fuel p w)) p = true.
Proof.
  destruct (os_mkdir_fnf_cases p w) as [Hfnf|Hno].
  - destruct fuel as [|fuel].
    + cbn [mkdir_parents]. unfold try_except.
      destruct (os_mkdir p w) as [[[]|e] w1]; cbn [fst] in *; [done|].
      by injection Hfnf as ->.
    + destruct (decide (parent p = p)) as [Hp|Hp].
      * cbn [mkdir_parents]. unfold try_except.
        destruct (os_mkdir p w) as [[[]|e] w1]; cbn [fst] in *; [done|].
        injection Hfnf as ->. by rewrite bool_decide_true.
      * rewrite mkdir_parents_fnf by done. rewrite bind_eq.
        destruct (mkdir_parents fuel (parent p) _) as [[[]|e] w2]; [|done].
        apply mkdir_exist_ok_returns.
  - rewrite mkdir_parents_no_fnf by done. apply mkdir_exist_ok_returns.
Qed.

Lemma mkdir_parents_returns_parent fuel p w :
  fst (mkdir_parents fuel p w) = Ret tt ->
  is_dir (snd (mkdir_parents fuel p w)) (parent p) = true \/
  is_file (snd (mkdir_parents fuel p w)) (parent p) = true.
Proof.
  destruct (os_mkdir_fnf_cases p w) as [Hfnf|Hno].
  - destruct fuel as [|fuel].
    + cbn [mkdir_parents]. unfold try_except.
      destruct (os_mkdir p w) as [[[]|e] w1]; cbn [fst] in *; [done|].
      by injection Hfnf as ->.
    + destruct (decide (parent p = p)) as [Hp|Hp].
      * cbn [mkdir_parents]. unfold try_except.
        destruct (os_mkdir p w) as [[[]|e] w1]; cbn [fst] in *; [done|].
        injection Hfnf as ->. by rewrite bool_decide_true.
      * rewrite mkdir_parents_fnf by done. rewrite bind_eq.
        pose proof (mkdir_parents_returns fuel (parent p) (snd (os_mkdir p w))) as Hd.
        destruct (mkdir_parents fuel (parent p) _) as [[[]|e] w2]; [|done].
        cbn [fst snd] in Hd. intros _. left.
        apply (grows_is_dir w2); [apply mkdir_exist_ok_grows|by apply Hd].
  - rewrite mkdir_parents_no_fnf by done. apply mkdir_exist_ok_returns_parent.
Qed.

(** [p.mkdir(exist_ok=True)] on a directory that is there. *)
Lemma mkdir_exist_ok_existing p w :
  is_dir w p = true ->
  is_dir w (parent p) = true \/ is_file w (parent p) = true ->
  fst (os_mkdir p w) <> Raise FileNotFoundError /\
  mkdir_exist_ok p w = (Ret tt, record_event (EvMkdir p) w).
Proof.
  intros Hd Hp. unfold mkdir_exist_ok, try_except. rewrite os_mkdir_eq. cbv zeta.
  unfold bind, path_is_dir.
  assert (is_dir (record_event (EvMkdir p) w) p = true) as Hev by exact Hd.
  rewrite Hd. cbn [orb].
  destruct (is_dir w (parent p)); [by rewrite Hev|].
  destruct Hp as [|Hp]; [done|]. rewrite Hp. by rewrite Hev.
Qed.

Lemma joinpath_parent d name :
  head_is 47 name = false -> parent (joinpath d name) = d.
Proof.
  intros Hn. unfold joinpath. apply parent_snoc.
  destruct d as [|a [|b d]]; [exact Hn|done..].
Qed.

(** X11. When the construction of the collector returns, the output
    directory is the given path and is a directory, the log file is
    [tailscale.log] directly inside it, no file has changed and no
    directory has gone. *)
Theorem init_returns_existing_dir dir w self w' :
  init dir w = (Ret self, w') ->
  output_dir self = Path dir /\
  log_file self = Path dir ++ [lit "tailscale.log"] /\
  parent (log_file self) = output_dir self /\
  is_dir w' (output_dir self) = true /\
  w_files w' = w_files w /\
  w_dirs w ⊆ w_dirs w'.
Proof.
  unfold init. rewrite bind_eq. unfold path_mkdir.
  set (d := Path dir).
  pose proof (mkdir_parents_returns (length d) d w) as Hret.
  pose proof (proj1 (mkdir_parents_grows (length d) d w)) as (Hf & _ & _ & Hd & _).
  destruct (mkdir_parents (length d) d w) as [[[]|e] w0]; cbn [fst snd] in *;
    [|done].
  unfold ret. intros [= <- <-]. cbn [output_dir log_file].
  split_and!; try done.
  - by apply joinpath_parent.
  - by apply Hret.
Qed.

(** X12. Building the collector again for the same directory, as the
    next run of the script does, creates nothing and fails on nothing:
    [mkdir] is tried once, the directory is found, and the same collector
    is returned. *)
Theorem init_again_creates_nothing dir w self w1 :
  init dir w = (Ret self, w1) ->
  init dir w1 = (Ret self, record_event (EvMkdir (Path dir)) w1).
Proof.
  unfold init. rewrite !bind_eq. unfold path_mkdir.
  set (d := Path dir).
  pose proof (mkdir_parents_returns (length d) d w) as Hd.
  pose proof (mkdir_parents_returns_parent (length d) d w) as Hp.
  destruct (mkdir_parents (length d) d w) as [[[]|e] w0]; cbn [fst snd] in *;
    [|done].
  unfold ret. intros [= <- <-].
  destruct (mkdir_exist_ok_existing d w0 (Hd eq_refl) (Hp eq_refl)) as [Hno Heq].
  by rewrite mkdir_parents_no_fnf, Heq by done.
Qed.

(** X13. When the output directory cannot be made, [main] raises what
    [mkdir] raised and stops there: it has taken only [mkdir] steps (no
    command is run, nothing is printed) and no file has changed. *)
Theorem main_mkdir_failure_propagates argv w e :
  fst (path_mkdir (Path (chosen_dir argv)) w) = Raise e ->
  fst (main argv w) = Raise e /\
  w_files (snd (main argv w)) = w_files w /\
  exists mk,
    w_trace (snd (main argv w)) = w_trace w ++ EvMkdir (Path (chosen_dir argv)) :: mk /\
    Forall is_mkdir mk.
Proof.
  unfold main. fold (chosen_dir argv). rewrite bind_eq. unfold init.
  rewrite bind_eq. unfold path_mkdir.
  set (d := Path (chosen_dir argv)).
  pose proof (mkdir_parents_grows (length d) d w) as ((Hf & _) & mk & Ht & Hmk).
  destruct (mkdir_parents (length d) d w) as [[[]|e'] w0]; cbn [fst snd] in *;
    [done|].
  intros [= ->]. split; [done|]. split; [done|]. by exists mk.
Qed.

End MkdirMore.

(* ===================================================================== *)
(** ** Further properties: the lines of the log file *)
(* ===================================================================== *)

Section LinesMore.
Context {F : PyFloat} {L : PyFloatLaws F}.

Lemma split_cons_exists sep s : exists l ls, split sep s = l :: ls.
Proof.
  induction s as [|c s (l & ls & IH)]; cbn [split]; [by eexists _, _|].
  destruct (c =? sep); [by eexists _, _|]. rewrite IH. by eexists _, _.
Qed.

(** Splitting at a separator splits the text before it and the text
    after it. *)
Lemma split_app sep a b :
  split sep (a ++ sep :: b) = split sep a ++ split sep b.
Proof.
  induction a as [|c a IH]; cbn [app split].
  - by rewrite N.eqb_refl.
  - destruct (c =? sep); [by rewrite IH|].
    rewrite IH. by destruct (split_cons_exists sep a) as (l & ls & ->).
Qed.

Lemma split_no_sep sep a :
  Forall (fun c => (c =? sep) = false) a -> split sep a = [a].
Proof.
  induction 1 as [|c a Hc _ IH]; cbn [split]; [done|]. by rewrite Hc, IH.
Qed.

Lemma file_lines_terminated t : file_lines (t ++ [10]) = split 10 t.
Proof.
  unfold file_lines. rewrite split_app. change (split 10 []) with [@nil N].
  by rewrite last_snoc, removelast_last.
Qed.

Lemma terminated_cases text :
  terminated text = true -> text = [] \/ exists t, text = t ++ [10].
Proof.
  unfold terminated. destruct text as [|c t _] using rev_ind; [by left|].
  rewrite last_snoc. intros ->%N.eqb_eq. right. by exists t.
Qed.

(** A complete line put after complete lines is one line more. *)
Lemma file_lines_append text line :
  terminated text = true ->
  Forall (fun c => (c =? 10) = false) line ->
  file_lines (text ++ line ++ [10]) = file_lines text ++ [line] /\
  terminated (text ++ line ++ [10]) = true.
Proof.
  intros Ht Hline. split.
  - destruct (terminated_cases text Ht) as [->|(t & ->)].
    + cbn [app]. by rewrite file_lines_terminated, split_no_sep.
    + rewrite file_lines_terminated.
      replace ((t ++ [10]) ++ line ++ [10]) with ((t ++ 10 :: line) ++ [10])
        by (by rewrite <- !app_assoc).
      by rewrite file_lines_terminated, split_app, (split_no_sep 10 line).
  - unfold terminated. by rewrite !app_assoc, last_snoc.
Qed.

(** X14. Any number of calls of [save_logs], on a log file that can be
    opened and written and whose last line is complete (or that is
    empty or missing): every call returns, the lines that were there stay
    as they are, and after them comes one line per record, in the order
    of the calls, each the text of its record. *)
Theorem save_each_appends_lines self records w :
  appendable w (log_file self) = true ->
  w_writable w (log_file self) = true ->
  terminated (content w (log_file self)) = true ->
  fst (save_each self records w) = Ret tt /\
  file_lines (content (snd (save_each self records w)) (log_file self))
  = file_lines (content w (log_file self)) ++ map json_dumps records.
Proof.
  set (f := log_file self).
  revert w. induction records as [|r records IH]; intros w Hok Hwr Hterm.
  { split; [done|]. cbn [map]. by rewrite app_nil_r. }
  cbn [save_each map]. rewrite bind_eq.
  destruct (save_logs_appendable self r w Hok)
    as (w1 & -> & Hf1 & Hd1 & _ & Hw1 & _). fold f in Hf1.
  assert (content w1 f = content w f ++ json_dumps r ++ [10]) as Hc1
    by (unfold content at 1; by rewrite Hf1, lookup_insert_eq).
  destruct (file_lines_append (content w f) (json_dumps r) Hterm
              (json_dumps_one_line r)) as [Hlines Hterm1].
  assert (appendable w1 f = true) as Hok1.
  { unfold appendable in *. unfold is_dir in *. rewrite Hd1, Hw1.
    apply andb_true_iff in Hok as [-> _]. cbn [andb].
    unfold is_file. rewrite Hf1, lookup_insert_eq.
    by rewrite bool_decide_true by eauto. }
  destruct (IH w1) as [Hret Hl]; [done|by rewrite Hw1|by rewrite Hc1|].
  split; [exact Hret|].
  rewrite Hl, Hc1, Hlines, <- app_assoc. reflexivity.
Qed.

End LinesMore.

(* ===================================================================== *)
(** ** Further properties: what is written reads back *)
(* ===================================================================== *)

Section RoundTrip.
Context {F : PyFloat} {L : PyFloatLaws F}.

Ltac nlia := zify; Z.to_euclidean_division_equations; lia.

Lemma str_eqb_eq a b : str_eqb a b = true <-> a = b.
Proof.
  revert b. induction a as [|x a IH]; intros [|y b]; cbn [str_eqb]; try done.
  rewrite andb_true_iff, N.eqb_eq, IH. split; [by intros [-> ->]|by intros [= -> ->]].
Qed.

Lemma dict_set_fresh k (v : pyval) d :
  k ∉ map fst d -> dict_set k v d = d ++ [(k, v)].
Proof.
  induction d as [|[k' v'] d IH]; cbn [dict_set map fst app]; [done|].
  intros Hk. apply not_elem_of_cons in Hk as [Hne Hk].
  destruct (str_eqb k k') eqn:E; [by apply str_eqb_eq in E|].
  by rewrite IH.
Qed.

Lemma dict_of_pairs_app (pairs acc : list (pystr * pyval)) :
  NoDup (map fst (acc ++ pairs)) ->
  fold_left (fun d kv => dict_set (fst kv) (snd kv) d) pairs acc = acc ++ pairs.
Proof.
  revert acc. induction pairs as [|[k v] pairs IH]; intros acc Hnd; cbn [fold_left].
  - by rewrite app_nil_r.
  - cbn [fst snd]. rewrite dict_set_fresh.
    + rewrite IH; rewrite <- app_assoc; [done|exact Hnd].
    + rewrite map_app in Hnd. apply NoDup_app in Hnd as (_ & Hd & _).
      intros Hin. apply (Hd k Hin). cbn. left.
Qed.

(** [dict(pairs)] keeps pairs with distinct keys as they are. *)
Lemma dict_of_pairs_nodup (d : list (pystr * pyval)) :
  NoDup (map fst d) -> dict_of_pairs d = d.
Proof. intros H. unfold dict_of_pairs. by rewrite dict_of_pairs_app. Qed.

Lemma hexval_hexdigit d : d < 16 -> hexval (hexdigit d) = Some d.
Proof.
  intros Hd. unfold hexdigit, hexval, isdigit.
  destruct (N.ltb_spec d 10).
  - replace ((48 <=? 48 + d) && (48 + d <=? 57)) with true
      by (symmetry; apply andb_true_iff; split; apply N.leb_le; lia).
    f_equal. lia.
  - replace ((48 <=? 87 + d) && (87 + d <=? 57)) with false
      by (symmetry; apply andb_false_iff; right; apply N.leb_gt; lia).
    replace ((97 <=? 87 + d) && (87 + d <=? 102)) with true
      by (symmetry; apply andb_true_iff; split; apply N.leb_le; lia).
    f_equal. lia.
Qed.

(** The four digits written for a code unit are read back as it. *)
Lemma hex4_value_hex4 n :
  n < 65536 ->
  exists a b c d, hex4 n = [a; b; c; d] /\ hex4_value a b c d = Some n.
Proof.
  intros Hn. unfold hex4. eexists _, _, _, _. split; [reflexivity|].
  unfold hex4_value. rewrite !hexval_hexdigit by apply land_15.
  f_equal. change 15 with (N.ones 4). rewrite !N.land_ones, !N.shiftr_div_pow2.
  change (2 ^ 4) with 16. change (2 ^ 8) with 256. change (2 ^ 12) with 4096.
  nlia.
Qed.

Lemma lor_shiftl_low a b k :
  b < 2 ^ k -> N.lor (N.shiftl a k) b = a * 2 ^ k + b.
Proof.
  intros Hb.
  assert (N.land (N.shiftl a k) b = 0) as Hland.
  { apply N.bits_inj. intros i. rewrite N.land_spec, N.bits_0.
    destruct (N.ltb_spec i k).
    - by rewrite N.shiftl_spec_low.
    - destruct (N.eq_dec b 0) as [->|Hz]; [by rewrite N.bits_0, andb_false_r|].
      rewrite (N.bits_above_log2 b i), andb_false_r; [done|].
      apply N.log2_lt_pow2; [lia|]. eapply N.lt_le_trans; [exact Hb|].
      apply N.pow_le_mono_r; lia. }
  by rewrite <- N.lxor_lor, <- N.add_nocarry_lxor, N.shiftl_mul_pow2.
Qed.

Lemma lor_high_bits base x :
  N.land base 1023 = 0 -> x < 1024 -> N.lor base x = base + x.
Proof.
  intros Hbase Hx.
  assert (base = N.shiftl (N.shiftr base 10) 10) as Hb.
  { rewrite N.shiftl_mul_pow2, N.shiftr_div_pow2.
    change 1023 with (N.ones 10) in Hbase. rewrite N.land_ones in Hbase.
    change (2 ^ 10) with 1024 in *. nlia. }
  rewrite Hb at 1. rewrite (lor_shiftl_low _ x 10) by exact Hx.
  rewrite <- N.shiftl_mul_pow2, <- Hb. reflexivity.
Qed.

(** The surrogate pair written for a code point above the BMP. *)
Lemma surrogate_pair c :
  65536 <= c < 1114112 ->
  let hi := N.lor 55296 (N.land (N.shiftr (c - 65536) 10) 1023) in
  let lo := N.lor 56320 (N.land (c - 65536) 1023) in
  hi < 65536 /\ lo < 65536 /\
  is_high_surrogate hi = true /\ is_low_surrogate lo = true /\
  join_surrogates hi lo = c.
Proof.
  intros Hc hi lo.
  assert (N.land (N.shiftr (c - 65536) 10) 1023 = (c - 65536) / 1024) as Hx.
  { change 1023 with (N.ones 10). rewrite N.land_ones, N.shiftr_div_pow2.
    change (2 ^ 10) with 1024. nlia. }
  assert (N.land (c - 65536) 1023 = (c - 65536) mod 1024) as Hy.
  { change 1023 with (N.ones 10). by rewrite N.land_ones. }
  assert (hi = 55296 + (c - 65536) / 1024) as Hhi.
  { subst hi. rewrite Hx. apply lor_high_bits; [reflexivity|nlia]. }
  assert (lo = 56320 + (c - 65536) mod 1024) as Hlo.
  { subst lo. rewrite Hy. apply lor_high_bits; [reflexivity|nlia]. }
  split_and!.
  - nlia.
  - nlia.
  - unfold is_high_surrogate. apply andb_true_iff. split; apply N.leb_le; nlia.
  - unfold is_low_surrogate. apply andb_true_iff. split; apply N.leb_le; nlia.
  - unfold join_surrogates. rewrite (lor_shiftl_low _ _ 10).
    + change (2 ^ 10) with 1024. nlia.
    + change (2 ^ 10) with 1024. nlia.
Qed.

(** The string scanner reads the text written for one scalar value back
    as that character. *)
Lemma scanstring_escape_char c tail :
  is_scalar c = true ->
  scanstring (escape_char c ++ tail) = scan_cons c (scanstring tail).
Proof.
  intros Hsc. unfold escape_char.
  destruct (N.eqb_spec c 34) as [->|H34]; [reflexivity|].
  destruct (N.eqb_spec c 92) as [->|H92]; [reflexivity|].
  destruct (N.eqb_spec c 10) as [->|H10]; [reflexivity|].
  destruct (N.eqb_spec c 13) as [->|H13]; [reflexivity|].
  destruct (N.eqb_spec c 9) as [->|H9]; [reflexivity|].
  destruct (N.eqb_spec c 8) as [->|H8]; [reflexivity|].
  destruct (N.eqb_spec c 12) as [->|H12]; [reflexivity|].
  destruct ((32 <=? c) && (c <=? 126)) eqn:Hp.
  { apply andb_true_iff in Hp as [Hlo%N.leb_le Hhi%N.leb_le].
    cbn [app scanstring].
    rewrite (proj2 (N.eqb_neq c 34)), (proj2 (N.eqb_neq c 92)) by done.
    by rewrite (proj2 (N.leb_gt c 31)) by lia. }
  unfold is_scalar in Hsc.
  destruct (N.ltb_spec c 65536) as [Hlt|Hge].
  { destruct (hex4_value_hex4 c Hlt) as (a & b & x & d & -> & Hv).
    cbn [app]. rewrite (scanstring_uni a b x d tail c Hv).
    replace (is_high_surrogate c) with false; [done|].
    symmetry. unfold is_high_surrogate.
    apply orb_true_iff in Hsc as [Hs%N.ltb_lt|[Hs%N.leb_le _]%andb_true_iff].
    - apply andb_false_iff. left. apply N.leb_gt. lia.
    - apply andb_false_iff. right. apply N.leb_gt. lia. }
  cbv zeta.
  assert (65536 <= c < 1114112) as Hc.
  { apply orb_true_iff in Hsc as [Hs%N.ltb_lt|[_ Hs%N.ltb_lt]%andb_true_iff]; lia. }
  destruct (surrogate_pair c Hc) as (Hhi & Hlo & Hh & Hl & Hj).
  destruct (hex4_value_hex4 _ Hhi) as (a & b & x & d & -> & Hv).
  destruct (hex4_value_hex4 _ Hlo) as (a' & b' & x' & d' & -> & Hv').
  cbn [app]. rewrite (scanstring_uni a b x d _ _ Hv), Hh.
  by rewrite after_high_uni, Hv', Hl, Hj.
Qed.

(** The string scanner reads back the text written for a string of
    scalar values as that string. *)
Lemma scanstring_encoded_same s rest :
  scalar_text s = true ->
  scanstring (flat_map escape_char s ++ 34 :: rest) = Some (s, rest).
Proof.
  unfold scalar_text. induction s as [|c s IH]; cbn [forallb flat_map]; [done|].
  intros [Hc Hs]%andb_true_iff.
  by rewrite <- app_assoc, scanstring_escape_char, IH.
Qed.

Lemma digits_value_acc d acc :
  fold_left (fun a c => (a * 10 + Z.of_N (c - 48))%Z) (uint_chars d) (Zpos acc)
  = Zpos (Pos.of_uint_acc d acc).
Proof.
  revert acc. induction d; intros acc; cbn [uint_chars fold_left Pos.of_uint_acc];
    [done|..];
    match goal with
    | |- context [fold_left _ _ ?z] =>
        match goal with
        | |- _ = Zpos (Pos.of_uint_acc _ ?p) =>
            replace z with (Zpos p) by lia; apply IHd
        end
    end.
Qed.

Lemma digits_value_uint d :
  digits_value (uint_chars d) = Z.of_N (Pos.of_uint d).
Proof.
  unfold digits_value.
  induction d; cbn [uint_chars fold_left Pos.of_uint]; [done|exact IHd|..];
    match goal with
    | |- context [fold_left _ _ ?z] =>
        match goal with
        | |- _ = Z.of_N (Npos (Pos.of_uint_acc _ ?p)) =>
            replace z with (Zpos p) by lia; apply digits_value_acc
        end
    end.
Qed.

(** [int] reads back the text of an [int]. *)
Lemma int_of_literal_int_repr z : int_of_literal (int_repr z) = z.
Proof.
  unfold int_of_literal. destruct z as [|p|p]; [reflexivity| |]; cbn [int_repr].
  - destruct (uint_chars_pos p) as (c & cs & Heq & Hc & _).
    destruct (nonzero_digit c Hc) as (_ & _ & Hm).
    rewrite Heq at 1. cbn [head_is]. rewrite Hm.
    by rewrite digits_value_uint, DecimalPos.Unsigned.of_to.
  - cbn [head_is tail]. change (45 =? 45) with true. cbv iota.
    by rewrite digits_value_uint, DecimalPos.Unsigned.of_to.
Qed.

Lemma canonical_list (l : list pyval) :
  canonical (PList l) <-> Forall canonical l.
Proof.
  cbn [canonical]. induction l as [|x l IH]; [by split|].
  rewrite Forall_cons, <- IH. reflexivity.
Qed.

Lemma canonical_dict (d : list (pystr * pyval)) :
  canonical (PDict d) <->
  NoDup (map fst d) /\
  Forall (fun kv => scalar_text (fst kv) = true /\ canonical (snd kv)) d.
Proof.
  cbn [canonical]. apply and_iff_compat_l.
  induction d as [|[k x] d IH]; [by split|].
  rewrite Forall_cons, <- IH. cbn [fst snd]. tauto.
Qed.

(** The loop of [JSONArray] reads back the items themselves. *)
Lemma scan_items_same (l : list pyval) :
  Forall reads_back_same l -> l <> [] ->
  forall fuel rest,
    (list_sum (map (fun x => S (need x)) l) <= fuel)%nat ->
    scan_items fuel (join [44; 32] (map json_dumps l) ++ 93 :: rest)
    = Scanned l rest.
Proof.
  induction 1 as [|x l Hx Hl IH]; [done|]. intros _ fuel rest Hfuel.
  cbn [map] in Hfuel. rewrite list_sum_cons in Hfuel.
  destruct fuel as [|fuel]; [lia|].
  cbn [scan_items]. destruct l as [|y l].
  - cbn [map join]. by rewrite (Hx fuel (93 :: rest)) by (lia || done).
  - cbn [map]. rewrite join_cons, <- !app_assoc.
    match goal with
    | |- context [scan_once fuel (json_dumps x ++ ?more)] =>
        rewrite (Hx fuel more) by (lia || done)
    end.
    change (skip_ws ([44; 32] ++ ?z)) with (44 :: 32 :: z).
    change (44 =? 93) with false. change (44 =? 44) with true. cbv iota.
    change (skip_ws (32 :: ?z)) with (skip_ws z).
    pose proof (IH ltac:(done) fuel rest ltac:(lia)) as Hvs.
    cbn [map] in Hvs |- *.
    destruct (join_head [44; 32] (json_dumps y) (map json_dumps l)) as (more & Hj).
    by rewrite Hj, <- app_assoc, skip_ws_dumps, app_assoc, <- Hj, Hvs.
Qed.

(** The loop of [JSONObject] reads back the members themselves. *)
Lemma scan_members_same (d : list (pystr * pyval)) :
  Forall (fun kv => scalar_text (fst kv) = true /\ reads_back_same (snd kv)) d ->
  d <> [] ->
  forall fuel rest,
    (list_sum (map (fun kv => S (need (snd kv))) d) <= fuel)%nat ->
    scan_members fuel (join [44; 32] (map member_text d) ++ 125 :: rest)
    = Scanned d rest.
Proof.
  induction 1 as [|[k x] d [Hk Hx] Hd IH]; [done|]. intros _ fuel rest Hfuel.
  cbn [map] in Hfuel. rewrite list_sum_cons in Hfuel. cbn [fst snd] in *.
  destruct fuel as [|fuel]; [lia|].
  cbn [scan_members]. destruct d as [|kv2 d].
  - cbn [map join]. rewrite member_text_eq. cbn [head_is tail fst snd].
    change (34 =? 34) with true. cbv iota.
    rewrite (scanstring_encoded_same k) by done.
    cbv zeta.
    change (skip_ws (58 :: ?z)) with (58 :: z). cbn [head_is tail].
    change (58 =? 58) with true. cbv iota.
    change (skip_ws (32 :: ?z)) with (skip_ws z).
    rewrite skip_ws_dumps.
    by rewrite (Hx fuel (125 :: rest)) by (lia || done).
  - cbn [map]. rewrite join_cons, <- !app_assoc, member_text_eq.
    cbn [head_is tail fst snd]. change (34 =? 34) with true. cbv iota.
    rewrite (scanstring_encoded_same k) by done.
    cbv zeta.
    change (skip_ws (58 :: ?z)) with (58 :: z). cbn [head_is tail].
    change (58 =? 58) with true. cbv iota.
    change (skip_ws (32 :: ?z)) with (skip_ws z).
    rewrite skip_ws_dumps.
    match goal with
    | |- context [scan_once fuel (json_dumps x ++ ?more)] =>
        rewrite (Hx fuel more) by (lia || done)
    end.
    pose proof (IH ltac:(done) fuel rest ltac:(lia)) as Hkvs.
    change (skip_ws ([44; 32] ++ ?z)) with (44 :: 32 :: z).
    change (44 =? 125) with false. change (44 =? 44) with true. cbv iota.
    change (skip_ws (32 :: ?z)) with (skip_ws z).
    cbn [map] in Hkvs |- *.
    destruct (join_head [44; 32] (member_text kv2) (map member_text d)) as (more' & Hj).
    rewrite Hj, <- app_assoc, member_text_eq.
    rewrite skip_ws_head by done.
    by rewrite <- member_text_eq, app_assoc, <- Hj, Hkvs.
Qed.

(** [scan_once] reads the text [json.dump] writes for a canonical value
    back as that value. *)
Lemma scan_once_dumps_same v : canonical v -> reads_back_same v.
Proof.
  induction v as [| [|] | z | f | s | l IH | d IH] using pyval_nested_ind;
    intros Hcan fuel rest Hfuel Hrest;
    (destruct fuel as [|fuel]; [cbn in Hfuel; lia|]).
  - reflexivity.
  - reflexivity.
  - reflexivity.
  - rewrite (scan_once_number fuel _ _ _ _
               (scan_number_app _ rest _ _ [] (scan_number_int_repr z) Hrest)).
    by rewrite int_of_literal_int_repr.
  - cbn [canonical] in Hcan. unfold float_canonical in Hcan.
    cbn [json_dumps json_encode]. unfold floatstr.
    destruct (float_classify f) eqn:Hcl; try (by rewrite Hcan).
    pose proof (float_repr_literal f Hcl) as Hl.
    rewrite (scan_once_number fuel _ _ _ _
               (scan_number_app _ rest _ _ [] (is_float_literal_scan _ Hl) Hrest)).
    by rewrite Hcan.
  - cbn [canonical] in Hcan.
    unfold json_dumps. cbn [json_encode]. unfold encode_basestring_ascii.
    cbn [app]. rewrite <- app_assoc. cbn [app scan_once].
    change (34 =? 34) with true. cbv iota.
    by rewrite (scanstring_encoded_same s rest).
  - apply canonical_list in Hcan.
    assert (Forall reads_back_same l) as Hl.
    { rewrite Forall_forall in IH, Hcan |- *. intros x Hx. by apply IH, Hcan. }
    unfold json_dumps. cbn [json_encode].
    change (map (json_encode [44; 32] [58; 32]) l) with (map json_dumps l).
    cbn [app]. rewrite <- app_assoc. cbn [app scan_once].
    change (91 =? 34) with false. change (91 =? 123) with false.
    change (91 =? 91) with true. cbv iota zeta.
    destruct l as [|x l]; [reflexivity|].
    destruct (join_head [44; 32] (json_dumps x) (map json_dumps l)) as (more & Hj).
    cbn [map]. rewrite Hj, <- app_assoc, skip_ws_dumps.
    rewrite head_is_dumps, app_assoc, <- Hj.
    assert (list_sum (map (fun x => S (need x)) (x :: l)) <= fuel)%nat as Hsum
      by (cbn [need] in Hfuel; lia).
    pose proof (scan_items_same (x :: l) Hl ltac:(done) fuel rest Hsum) as Hvs.
    cbn [map] in Hvs. by rewrite Hvs.
  - apply canonical_dict in Hcan as [Hnd Hcan].
    assert (Forall (fun kv => scalar_text (fst kv) = true /\ reads_back_same (snd kv)) d)
      as Hd.
    { rewrite Forall_forall in IH, Hcan |- *. intros kv Hkv.
      destruct (Hcan kv Hkv) as [Hk Hx]. split; [done|]. by apply IH. }
    unfold json_dumps. cbn [json_encode].
    change (map _ d) with (map member_text d).
    cbn [app]. rewrite <- app_assoc. cbn [app scan_once].
    change (123 =? 34) with false. change (123 =? 123) with true. cbv iota zeta.
    destruct d as [|kv d]; [reflexivity|].
    destruct (join_head [44; 32] (member_text kv) (map member_text d)) as (more & Hj).
    cbn [map]. rewrite Hj, <- app_assoc, member_text_eq.
    rewrite skip_ws_head by done. cbn [head_is].
    change (34 =? 125) with false. cbv iota.
    rewrite <- member_text_eq, app_assoc, <- Hj.
    assert (list_sum (map (fun kv => S (need (snd kv))) (kv :: d)) <= fuel)%nat as Hsum
      by (cbn [need] in Hfuel; lia).
    pose proof (scan_members_same (kv :: d) Hd ltac:(done) fuel rest Hsum) as Hkvs.
    cbn [map] in Hkvs. rewrite Hkvs.
    by rewrite dict_of_pairs_nodup.
Qed.

(** [json.loads] gives back a canonical value from the text [json.dump]
    writes for it. *)
Lemma json_loads_dumps_same v :
  canonical v -> json_loads (json_dumps v) = Some v.
Proof.
  intros Hcan. pose proof (need_le_length v) as Hneed.
  destruct (json_dumps_head v) as (c & t & Hhead & Hc).
  apply value_head_facts in Hc as (_ & _ & _ & Hbom & _).
  unfold json_loads, decode.
  pose proof (skip_ws_dumps v []) as Hws. rewrite app_nil_r in Hws. rewrite Hws.
  pose proof (scan_once_dumps_same v Hcan
                (2 * length (json_dumps v) + 1)%nat [] ltac:(lia) eq_refl) as Hv.
  rewrite app_nil_r in Hv. rewrite Hv. rewrite Hhead.
  cbn [startswith skip_ws]. by rewrite N.eqb_sym, Hbom.
Qed.

(** X15. The line [save_logs] appends reads back as the record. For a
    record that is canonical (strings and keys without surrogate code
    points, floats that [repr] and [float] give back), on a log file
    that can be opened and whose last line is complete, the file has one
    line more after the call, and [json.loads] of that line is the record
    itself: every key in its place, every string, integer, float, list
    and nested object as it was. *)
Theorem save_logs_line_reads_back self logs w :
  canonical logs ->
  appendable w (log_file self) = true ->
  terminated (content w (log_file self)) = true ->
  exists line,
    file_lines (content (snd (save_logs self logs w)) (log_file self))
    = file_lines (content w (log_file self)) ++ [line] /\
    json_loads line = Some logs.
Proof.
  intros Hcan Hok Hterm. exists (json_dumps logs).
  destruct (save_logs_appendable self logs w Hok) as (w' & -> & Hf & _).
  cbn [snd]. split.
  - unfold content at 1. rewrite Hf, lookup_insert_eq. cbn [default].
    apply file_lines_append; [exact Hterm|apply json_dumps_one_line].
  - by apply json_loads_dumps_same.
Qed.

End RoundTrip.

(* ===================================================================== *)
(** ** Further properties: the text of the two commands *)
(* ===================================================================== *)

Section LinesIn.
Context {F : PyFloat}.








End LinesIn.

Section Blank.
Context {F : PyFloat}.

Lemma json_blank_cons c ws :
  json_blank (c :: ws) = true -> is_json_ws c = true /\ json_blank ws = true.
Proof. unfold json_blank. cbn [forallb]. by intros [? ?]%andb_true_iff. Qed.





















Lemma scan_once_blank fuel ws :
  json_blank ws = true -> scan_once (S fuel) ws = Malformed.
Proof.
  destruct ws as [|w ws]; [done|]. intros [Hw _]%json_blank_cons.
  revert Hw. unfold is_json_ws. rewrite !orb_true_iff, !N.eqb_eq.
  by intros [[[->| ->]| ->]| ->].
Qed.







End Blank.

(* ===================================================================== *)
(** ** Concrete runs *)
(* ===================================================================== *)

(** The literal floats satisfy what is assumed of [repr]. *)
#[export] Instance literal_float_laws : PyFloatLaws LiteralFloat.
Proof.
  constructor. intros f _. cbn [float_repr LiteralFloat]. unfold literal_repr.
  destruct (is_float_literal f) eqn:E; [exact E|reflexivity].
Qed.

(** The interleaved example of the specification: three lines parse, the
    garbage line is passed over, the order is kept. *)
Example get_system_logs_three_of_four :
  fst (get_system_logs example_collector 50
         (example_world (Exited 0 example_status_output) (Exited 0 example_journal) true))
  = Ret [ PDict [ (lit "MESSAGE", PStr (lit "a")) ];
          PDict [ (lit "MESSAGE", PStr (lit "b")) ];
          PDict [ (lit "MESSAGE", PStr (lit "c")) ] ].
Proof. vm_compute. reflexivity. Qed.

(** The end-to-end scenario of the specification, from [main]: one line
    is appended, with the status and one entry per log line. *)
Example main_end_to_end :
  w_files (snd (main [lit "collect_tailscale_logs.py"]
                  (bare_world (Exited 0 example_status_output)
                     (Exited 0 (jlit "{'MESSAGE':'a'}" ++ [10] ++ jlit "{'MESSAGE':'b'}" ++ [10])))))
    !! log_file example_collector
  = Some (json_dumps
            (collection_record (lit "2026-11-04T12:28:00.123456Z") example_status
               [ log_entry (lit "2026-11-04T12:28:00.123456Z")
                   (PDict [ (lit "MESSAGE", PStr (lit "a")) ]);
                 log_entry (lit "2026-11-04T12:28:00.123456Z")
                   (PDict [ (lit "MESSAGE", PStr (lit "b")) ]) ])
          ++ [10]).
Proof. vm_compute. reflexivity. Qed.

(** C3 (at a concrete record). [save_logs] writes the record with a space
    after every colon and comma, which the most compact form does not
    have: the text differs from what [separators=(',', ':')] or [jq -c]
    gives. It does end with exactly one line feed. *)
Theorem save_logs_text_not_compact :
  w_files (snd (save_logs example_collector example_record world_no_tailscale))
    !! log_file example_collector
  = Some (jlit "{'timestamp': '2026-11-04T12:28:00.123456Z', 'source': 'tailscale', 'collector_version': '1.0', 'status': {'Self': {'Online': true}}, 'events': []}"
          ++ [10]) /\
  json_dumps_compact example_record
  = jlit "{'timestamp':'2026-11-04T12:28:00.123456Z','source':'tailscale','collector_version':'1.0','status':{'Self':{'Online':true}},'events':[]}" /\
  (length (json_dumps_compact example_record) < length (json_dumps example_record))%nat.
Proof.
  split_and!; [vm_compute; reflexivity..|].
  apply Nat.ltb_lt. vm_compute. reflexivity.
Qed.

(** C4 (at a concrete output). When the status command succeeds and
    prints a text that is not JSON, [get_tailscale_status] raises
    [JSONDecodeError] instead of returning [None], and so does [collect]:
    the run aborts. *)
Theorem get_tailscale_status_malformed_raises :
  json_loads (lit "not json") = None /\
  fst (get_tailscale_status example_collector
         (example_world (Exited 0 (lit "not json")) NotInstalled true))
  = Raise JSONDecodeError /\
  fst (collect example_collector
         (example_world (Exited 0 (lit "not json")) NotInstalled true))
  = Raise JSONDecodeError.
Proof. split_and!; vm_compute; reflexivity. Qed.

(** C6 as stated fails, in two ways. The status command succeeds and
    prints the empty object, the log query fails, the file could be
    written, and nothing is persisted. And the status command succeeds
    with a proper status, the log query fails, the open of the file is
    refused, and nothing is persisted. *)
Lemma collect_log_failure_persists_nothing :
  (fst (get_tailscale_status example_collector world_empty_status) = Ret (PDict []) /\
   log_source_fails world_empty_status /\
   appendable world_empty_status (log_file example_collector) = true /\
   fst (get_system_logs example_collector 50 world_empty_status) = Ret [] /\
   fst (collect example_collector world_empty_status) = Ret tt /\
   w_files (snd (collect example_collector world_empty_status))
     !! log_file example_collector = None) /\
  (fst (get_tailscale_status example_collector world_read_only) = Ret example_status /\
   truthy example_status = true /\
   log_source_fails world_read_only /\
   fst (open_append (log_file example_collector) world_read_only)
     = Raise PermissionError /\
   fst (collect example_collector world_read_only) = Ret tt /\
   w_files (snd (collect example_collector world_read_only))
     !! log_file example_collector = None).
Proof. split; split_and!; vm_compute; done. Qed.

(** *** The theorems at concrete inputs *)

Lemma format_for_wazuh_events_length_status_witness :
  Forall is_dict example_logs /\
  exists record events,
    fst (format_for_wazuh example_collector example_status example_logs world_ok)
      = Ret record /\
    item record (lit "events") = Some (PList events) /\
    length events = length example_logs /\
    item record (lit "status") = Some example_status.
Proof.
  assert (Forall is_dict example_logs) as H by (repeat constructor).
  split; [exact H|].
  exact (format_for_wazuh_events_length_status example_collector example_status
           example_logs world_ok H).
Defined.

Lemma format_for_wazuh_defaults_witness :
  Forall is_dict example_logs /\
  example_logs !! 1%nat = Some (PDict [ (lit "OTHER", PInt 1) ]) /\
  no_recognized_key (PDict [ (lit "OTHER", PInt 1) ]) /\
  exists record ts events,
    fst (format_for_wazuh example_collector example_status example_logs world_ok)
      = Ret record /\
    item record (lit "timestamp") = Some (PStr ts) /\
    item record (lit "events") = Some (PList events) /\
    events !! 1%nat = Some (PDict [ (lit "timestamp", PStr ts);
                                    (lit "message", PStr []);
                                    (lit "priority", PStr (lit "6"));
                                    (lit "unit", PStr (lit "tailscaled"));
                                    (lit "hostname", PStr (lit "unknown")) ]) /\
    w_trace (snd (format_for_wazuh example_collector example_status example_logs world_ok))
      = w_trace world_ok ++ [EvClock].
Proof.
  assert (Forall is_dict example_logs) as H by (repeat constructor).
  assert (no_recognized_key (PDict [ (lit "OTHER", PInt 1) ])) as Hk
    by (repeat split).
  split; [exact H|]. split; [reflexivity|]. split; [exact Hk|].
  exact (format_for_wazuh_defaults example_collector example_status example_logs
           world_ok 1%nat _ H eq_refl Hk).
Defined.


Lemma collect_without_status_writes_nothing_witness :
  status_unavailable example_collector world_no_tailscale /\
  exists steps,
    w_trace (snd (collect example_collector world_no_tailscale))
      = w_trace world_no_tailscale ++ steps /\
    Forall status_step steps /\
    w_files (snd (collect example_collector world_no_tailscale))
      = w_files world_no_tailscale /\
    w_dirs (snd (collect example_collector world_no_tailscale))
      = w_dirs world_no_tailscale.
Proof.
  assert (status_unavailable example_collector world_no_tailscale) as H
    by (vm_compute; reflexivity).
  split; [exact H|].
  exact (collect_without_status_writes_nothing example_collector world_no_tailscale H).
Defined.


Lemma collect_falsy_status_treated_as_failure_witness :
  w_exec world_empty_status status_argv = Exited 0 (jlit "{}") /\
  In (jlit "{}") falsy_status_outputs /\
  (exists v, json_loads (jlit "{}") = Some v /\ truthy v = false /\
             fst (get_tailscale_status example_collector world_empty_status) = Ret v) /\
  w_trace (snd (collect example_collector world_empty_status))
  = w_trace world_empty_status
    ++ [ EvPrint (lit "Collecting Tailscale logs...");
         EvRun status_argv;
         EvPrint (lit "Failed to collect status.") ] /\
  w_files (snd (collect example_collector world_empty_status))
  = w_files world_empty_status.
Proof.
  assert (w_exec world_empty_status status_argv = Exited 0 (jlit "{}")) as H
    by (vm_compute; reflexivity).
  assert (In (jlit "{}") falsy_status_outputs) as Hin by (left; reflexivity).
  split; [exact H|]. split; [exact Hin|].
  exact (collect_falsy_status_treated_as_failure example_collector
           world_empty_status (jlit "{}") H Hin).
Defined.

Lemma collect_log_failure_persists_empty_events_witness :
  w_exec world_no_journalctl status_argv = Exited 0 example_status_output /\
  json_loads example_status_output = Some example_status /\
  truthy example_status = true /\
  log_source_fails world_no_journalctl /\
  appendable world_no_journalctl (log_file example_collector) = true /\
  fst (get_system_logs example_collector 50 world_no_journalctl) = Ret [] /\
  exists record,
    item record (lit "events") = Some (PList []) /\
    item record (lit "status") = Some example_status /\
    w_files (snd (collect example_collector world_no_journalctl)) =
      <[ log_file example_collector :=
           content world_no_journalctl (log_file example_collector)
           ++ json_dumps record ++ [10] ]> (w_files world_no_journalctl).
Proof.
  assert (w_exec world_no_journalctl status_argv = Exited 0 example_status_output)
    as H1 by (vm_compute; reflexivity).
  assert (json_loads example_status_output = Some example_status) as H2
    by (vm_compute; reflexivity).
  assert (log_source_fails world_no_journalctl) as H3 by (vm_compute; exact I).
  assert (appendable world_no_journalctl (log_file example_collector) = true) as H4
    by (vm_compute; reflexivity).
  split; [exact H1|]. split; [exact H2|]. split; [reflexivity|].
  split; [exact H3|]. split; [exact H4|].
  exact (collect_log_failure_persists_empty_events example_collector
           world_no_journalctl example_status_output example_status
           H1 H2 eq_refl H3 H4).
Defined.

Lemma main_creates_output_dir_first_witness :
  dirs_closed (bare_world NotInstalled NotInstalled) /\
  mkdir_allowed (bare_world NotInstalled NotInstalled)
    (Path (chosen_dir example_argv)) = true /\
  status_unavailable example_collector (bare_world NotInstalled NotInstalled) /\
  is_dir (snd (main example_argv (bare_world NotInstalled NotInstalled)))
    (Path (chosen_dir example_argv)) = true /\
  w_files (snd (main example_argv (bare_world NotInstalled NotInstalled)))
  = w_files (bare_world NotInstalled NotInstalled).
Proof.
  assert (dirs_closed (bare_world NotInstalled NotInstalled)) as H1
    by (intros q Hq; by apply not_elem_of_empty in Hq).
  assert (mkdir_allowed (bare_world NotInstalled NotInstalled)
            (Path (chosen_dir example_argv)) = true) as H2
    by (vm_compute; reflexivity).
  assert (status_unavailable example_collector (bare_world NotInstalled NotInstalled))
    as H3 by (vm_compute; reflexivity).
  split; [exact H1|]. split; [exact H2|]. split; [exact H3|].
  destruct (main_creates_output_dir_first example_argv
              (bare_world NotInstalled NotInstalled)) as [_ H].
  destruct (H H1 H2) as (Hd & _ & Hf).
  split; [exact Hd|]. exact (Hf example_collector H3).
Defined.

(** *** The further properties at concrete inputs *)

Lemma get_system_logs_blank_output_witness :
  w_exec world_blank_journal (journal_argv 50) = Exited 0 [32; 10; 10] /\
  Forall (fun c => isspace c = true) [32; 10; 10] /\
  get_system_logs example_collector 50 world_blank_journal
  = (Ret [], record_event (EvRun (journal_argv 50)) world_blank_journal).
Proof.
  assert (w_exec world_blank_journal (journal_argv 50) = Exited 0 [32; 10; 10]) as H1
    by (vm_compute; reflexivity).
  assert (Forall (fun c => isspace c = true) [32; 10; 10]) as H2
    by (repeat constructor).
  split; [exact H1|]. split; [exact H2|].
  exact (get_system_logs_blank_output example_collector 50 world_blank_journal
           [32; 10; 10] H1 H2).
Defined.

Lemma format_for_wazuh_copies_present_fields_witness :
  Forall is_dict example_logs /\
  example_logs !! 0%nat = Some (PDict [ (lit "MESSAGE", PStr (lit "a")) ]) /\
  exists record events entry,
    fst (format_for_wazuh example_collector example_status example_logs world_ok)
      = Ret record /\
    item record (lit "events") = Some (PList events) /\
    events !! 0%nat = Some (PDict entry) /\
    map fst entry = map fst recognized_keys /\
    Forall (fun '(field, key) =>
              forall v, dict_lookup key [ (lit "MESSAGE", PStr (lit "a")) ] = Some v ->
                        dict_lookup field entry = Some v)
           recognized_keys.
Proof.
  assert (Forall is_dict example_logs) as H by (repeat constructor).
  split; [exact H|]. split; [reflexivity|].
  exact (format_for_wazuh_copies_present_fields example_collector example_status
           example_logs world_ok 0%nat _ H eq_refl).
Defined.

Lemma format_for_wazuh_utc_suffix_witness :
  w_now world_ok = lit "2026-11-04T12:28:00.123456" ++ lit "+00:00" /\
  Forall (fun c => c <> 43) (lit "2026-11-04T12:28:00.123456") /\
  Forall is_dict example_logs /\
  exists record,
    fst (format_for_wazuh example_collector example_status example_logs world_ok)
      = Ret record /\
    item record (lit "timestamp")
      = Some (PStr (lit "2026-11-04T12:28:00.123456" ++ lit "Z")).
Proof.
  assert (w_now world_ok = lit "2026-11-04T12:28:00.123456" ++ lit "+00:00") as H1
    by (vm_compute; reflexivity).
  assert (Forall (fun c => c <> 43) (lit "2026-11-04T12:28:00.123456")) as H2.
  { eapply Forall_impl;
      [apply (forallb_Forall_true (fun c => negb (c =? 43))); vm_compute; reflexivity|].
    intros c Hc ->. discriminate Hc. }
  assert (Forall is_dict example_logs) as H3 by (repeat constructor).
  split; [exact H1|]. split; [exact H2|]. split; [exact H3|].
  exact (format_for_wazuh_utc_suffix example_collector example_status example_logs
           world_ok _ H1 H2 H3).
Defined.



Lemma collect_status_command_failure_witness :
  status_command_fails world_no_tailscale /\
  exists diag,
    fst (collect example_collector world_no_tailscale) = Ret tt /\
    w_trace (snd (collect example_collector world_no_tailscale)) =
      w_trace world_no_tailscale
      ++ [ EvPrint (lit "Collecting Tailscale logs...");
           EvRun status_argv;
           EvPrint diag;
           EvPrint (lit "Failed to collect status.") ] /\
    diag = match w_exec world_no_tailscale status_argv with
           | NotInstalled => lit "Tailscale CLI not found. Please install Tailscale."
           | Exited rc _ =>
               lit "Error getting Tailscale status: "
               ++ w_errtext world_no_tailscale status_argv rc
           end /\
    w_files (snd (collect example_collector world_no_tailscale))
      = w_files world_no_tailscale /\
    w_dirs (snd (collect example_collector world_no_tailscale))
      = w_dirs world_no_tailscale.
Proof.
  assert (status_command_fails world_no_tailscale) as H by (vm_compute; exact I).
  split; [exact H|].
  exact (collect_status_command_failure example_collector world_no_tailscale H).
Defined.


Lemma save_logs_permission_denied_witness :
  write_refused world_read_only (log_file example_collector) = true /\
  save_logs example_collector example_record world_read_only =
  (Ret None,
   record_event (EvPrint (lit "Error: Permission denied writing to "
                          ++ path_str (log_file example_collector)
                          ++ lit ". Try sudo?"))
     (record_event (EvOpenAppend (log_file example_collector)) world_read_only)).
Proof.
  assert (write_refused world_read_only (log_file example_collector) = true) as H
    by (vm_compute; reflexivity).
  split; [exact H|].
  exact (save_logs_permission_denied example_collector example_record
           world_read_only H).
Defined.

Lemma init_returns_existing_dir_witness :
  init (lit "/var/log/tailscale-custom") (bare_world NotInstalled NotInstalled)
  = (Ret example_collector,
     snd (init (lit "/var/log/tailscale-custom")
            (bare_world NotInstalled NotInstalled))) /\
  is_dir (snd (init (lit "/var/log/tailscale-custom")
                 (bare_world NotInstalled NotInstalled)))
    (output_dir example_collector) = true /\
  parent (log_file example_collector) = output_dir example_collector.
Proof.
  assert (init (lit "/var/log/tailscale-custom") (bare_world NotInstalled NotInstalled)
          = (Ret example_collector,
             snd (init (lit "/var/log/tailscale-custom")
                    (bare_world NotInstalled NotInstalled)))) as H
    by (vm_compute; reflexivity).
  split; [exact H|].
  destruct (init_returns_existing_dir _ _ _ _ H) as (_ & _ & Hp & Hd & _).
  split; [exact Hd|exact Hp].
Defined.

Lemma init_again_creates_nothing_witness :
  init (lit "/var/log/tailscale-custom") (bare_world NotInstalled NotInstalled)
  = (Ret example_collector,
     snd (init (lit "/var/log/tailscale-custom")
            (bare_world NotInstalled NotInstalled))) /\
  init (lit "/var/log/tailscale-custom")
    (snd (init (lit "/var/log/tailscale-custom")
            (bare_world NotInstalled NotInstalled)))
  = (Ret example_collector,
     record_event (EvMkdir (Path (lit "/var/log/tailscale-custom")))
       (snd (init (lit "/var/log/tailscale-custom")
               (bare_world NotInstalled NotInstalled)))).
Proof.
  assert (init (lit "/var/log/tailscale-custom") (bare_world NotInstalled NotInstalled)
          = (Ret example_collector,
             snd (init (lit "/var/log/tailscale-custom")
                    (bare_world NotInstalled NotInstalled)))) as H
    by (vm_compute; reflexivity).
  split; [exact H|].
  exact (init_again_creates_nothing _ _ _ _ H).
Defined.

Lemma main_mkdir_failure_propagates_witness :
  fst (path_mkdir (Path (chosen_dir example_argv)) world_path_taken)
    = Raise FileExistsError /\
  fst (main example_argv world_path_taken) = Raise FileExistsError /\
  w_files (snd (main example_argv world_path_taken)) = w_files world_path_taken.
Proof.
  assert (fst (path_mkdir (Path (chosen_dir example_argv)) world_path_taken)
          = Raise FileExistsError) as H by (vm_compute; reflexivity).
  split; [exact H|].
  destruct (main_mkdir_failure_propagates example_argv world_path_taken
              FileExistsError H) as (Hr & Hf & _).
  split; [exact Hr|exact Hf].
Defined.

Lemma save_each_appends_lines_witness :
  appendable world_ok (log_file example_collector) = true /\
  w_writable world_ok (log_file example_collector) = true /\
  terminated (content world_ok (log_file example_collector)) = true /\
  fst (save_each example_collector [example_record; example_full_record] world_ok)
    = Ret tt /\
  file_lines (content (snd (save_each example_collector
                              [example_record; example_full_record] world_ok))
                (log_file example_collector))
  = file_lines (content world_ok (log_file example_collector))
    ++ map json_dumps [example_record; example_full_record].
Proof.
  assert (appendable world_ok (log_file example_collector) = true) as H1
    by (vm_compute; reflexivity).
  assert (terminated (content world_ok (log_file example_collector)) = true) as H3
    by (vm_compute; reflexivity).
  split; [exact H1|]. split; [reflexivity|]. split; [exact H3|].
  exact (save_each_appends_lines example_collector
           [example_record; example_full_record] world_ok H1 eq_refl H3).
Defined.

Lemma save_logs_line_reads_back_witness :
  canonical example_reading /\
  appendable world_ok (log_file example_collector) = true /\
  terminated (content world_ok (log_file example_collector)) = true /\
  exists line,
    file_lines (content (snd (save_logs example_collector example_reading world_ok))
                  (log_file example_collector))
    = file_lines (content world_ok (log_file example_collector)) ++ [line] /\
    json_loads line = Some example_reading.
Proof.
  assert (canonical example_reading) as H1.
  { split; [apply (bool_decide_unpack _); vm_compute; exact I|].
    repeat split; vm_compute; reflexivity. }
  assert (appendable world_ok (log_file example_collector) = true) as H2
    by (vm_compute; reflexivity).
  assert (terminated (content world_ok (log_file example_collector)) = true) as H3
    by (vm_compute; reflexivity).
  split; [exact H1|]. split; [exact H2|]. split; [exact H3|].
  exact (save_logs_line_reads_back example_collector example_reading world_ok
           H1 H2 H3).
Defined.


